(** * chatBot server: a shallow embedding of [server.py]

    The model comes first and follows the source file top to bottom:

    - Python values as they come out of [json.loads], with the handful of
      dynamic operations the server applies to them ([.get], [or], [==],
      [not in], subscripts, [int()], f-string formatting) and the
      exceptions those operations raise;
    - the SQLite store (two tables, AUTOINCREMENT keys, the NOT NULL, CHECK
      and FOREIGN KEY constraints of [init_db]) and the storage functions,
      each running in its own transaction;
    - [llm_chat], with the outbound request recorded in a trace;
    - the three handlers [do_GET], [do_POST], [do_PUT].

    Then come the predicates the statements are written with, a few
    sample worlds, and the properties with their lemmas.

    Strings are sequences of 8-bit characters.  JSON numbers are the
    integers; numbers with a fraction or an exponent are not represented.
    A request body is the value [_read_json] decoded.  A handler that
    ends in [Raise] let an exception escape: no response is written.
    Calls run one after the other, each to its end: the server answers
    requests on threads, and two calls that interleave are not
    represented. *)

From Stdlib Require Import ZArith List String Ascii Bool Lia.
From Stdlib Require Import Sorted Permutation OrdersEx DecimalString RelationClasses.
Import ListNotations.
Set Warnings "-register-all".
Local Open Scope string_scope.
Local Open Scope Z_scope.

(* ------------------------------------------------------------------ *)
(** ** Python values *)

(** What [json.loads] produces.  An object is the Python dict, kept as
    an association list in insertion order; a lookup returns the first
    binding of the key. *)
Inductive json : Type :=
| JNull
| JBool (b : bool)
| JInt (n : Z)
| JStr (s : string)
| JArr (items : list json)
| JObj (fields : list (string * json)).

(** The exceptions the server can meet.  [RuntimeError] is the one
    [llm_chat] raises on purpose and the only one [do_POST] catches.
    [OSError] stands for its subclasses too (TimeoutError,
    ConnectionResetError), [HTTPException] for those of [http.client]
    (IncompleteRead, BadStatusLine). *)
Inductive exn : Type :=
| RuntimeError (msg : string)
| AttributeError
| TypeError
| KeyError
| IndexError
| ValueError
| OverflowError
| IntegrityError
| ProgrammingError
| OperationalError
| OSError
| HTTPException.

Inductive res (A : Type) : Type :=
| Ok (a : A)
| Raise (e : exn).
Arguments Ok {A} a.
Arguments Raise {A} e.

Definition res_bind {A B} (r : res A) (k : A -> res B) : res B :=
  match r with
  | Ok a => k a
  | Raise e => Raise e
  end.

Fixpoint dict_get (k : string) (d : list (string * json)) : option json :=
  match d with
  | [] => None
  | (k', v) :: d' => if String.eqb k k' then Some v else dict_get k d'
  end.

(** [bool(v)] *)
Definition truthy (v : json) : bool :=
  match v with
  | JNull => false
  | JBool b => b
  | JInt n => negb (n =? 0)
  | JStr s => negb (String.eqb s "")
  | JArr l => match l with [] => false | _ => true end
  | JObj d => match d with [] => false | _ => true end
  end.

(** [a or b] *)
Definition py_or (a b : json) : json := if truthy a then a else b.

(** [v.get(k, default)]: only a dict has the method. *)
Definition py_get (v : json) (k : string) (default : json) : res json :=
  match v with
  | JObj d => Ok (match dict_get k d with Some x => x | None => default end)
  | _ => Raise AttributeError
  end.

(** [v[k]] with a string key. *)
Definition py_getitem (v : json) (k : string) : res json :=
  match v with
  | JObj d => match dict_get k d with Some x => Ok x | None => Raise KeyError end
  | _ => Raise TypeError
  end.

(** [v[0]] *)
Definition py_first (v : json) : res json :=
  match v with
  | JArr (x :: _) => Ok x
  | JArr [] => Raise IndexError
  | JStr (String c _) => Ok (JStr (String c ""))
  | JStr EmptyString => Raise IndexError
  | JObj _ => Raise KeyError
  | _ => Raise TypeError
  end.

(** [v == "..."] against a string literal. *)
Definition py_eq_str (v : json) (s : string) : bool :=
  match v with
  | JStr s' => String.eqb s' s
  | _ => false
  end.

Definition ROLES : list string := ["user"; "assistant"; "system"].

Definition is_role (s : string) : bool :=
  existsb (String.eqb s) ROLES.

(** [v in {"user", "assistant", "system"}]: membership in a set hashes
    the operand first, and a list or a dict has no hash. *)
Definition in_roles (v : json) : res bool :=
  match v with
  | JArr _ | JObj _ => Raise TypeError
  | JStr s => Ok (is_role s)
  | _ => Ok false
  end.

Definition is_list (v : json) : bool :=
  match v with JArr _ => true | _ => false end.

Definition is_dict (v : json) : bool :=
  match v with JObj _ => true | _ => false end.

(* ------------------------------------------------------------------ *)
(** ** Text: decimal numerals, [str()], [repr()] *)

(** [str(n)].  CPython refuses to print an integer of more than
    [INT_MAX_STR_DIGITS] digits, and [json.loads] refuses to read one,
    so the integers the handlers hold all print; [loadable] below says
    which values those are. *)
Definition decimal (n : Z) : string :=
  NilZero.string_of_int (Z.to_int n).

(** [sys.get_int_max_str_digits()], the default of CPython 3.11. *)
Definition INT_MAX_STR_DIGITS : nat := 4300.

(** A value [json.loads] can produce: no integer in it has more digits
    than [int()] converts. *)
Fixpoint loadable (v : json) : bool :=
  match v with
  | JInt n => Nat.leb (String.length (decimal (Z.abs n))) INT_MAX_STR_DIGITS
  | JArr l => forallb loadable l
  | JObj d => forallb (fun kv => loadable (snd kv)) d
  | _ => true
  end.

Fixpoint join (sep : string) (l : list string) : string :=
  match l with
  | [] => ""
  | [x] => x
  | x :: l' => x ++ sep ++ join sep l'
  end.

Fixpoint contains_char (c : ascii) (s : string) : bool :=
  match s with
  | EmptyString => false
  | String c' s' => Ascii.eqb c c' || contains_char c s'
  end.

Definition dquote : ascii := ascii_of_N 34.

Definition hex_digit (n : N) : ascii :=
  ascii_of_N (if (n <? 10)%N then 48 + n else 87 + n).

(** One character of [repr(str)] inside the quote [q].  The characters
    that are not printable are written [\xhh]: the control characters,
    DEL, 0x80 to 0xa0 (NBSP included) and the soft hyphen 0xad. *)
Definition repr_char (q c : ascii) : string :=
  let n := N_of_ascii c in
  if Ascii.eqb c q then String "\" (String c "")
  else if Ascii.eqb c "\" then "\\"
  else if (n =? 10)%N then "\n"
  else if (n =? 13)%N then "\r"
  else if (n =? 9)%N then "\t"
  else if ((n <? 32) || ((127 <=? n) && (n <=? 160)) || (n =? 173))%N
       then "\x" ++ String (hex_digit (n / 16)) (String (hex_digit (n mod 16)) "")
  else String c "".

Fixpoint repr_chars (q : ascii) (s : string) : string :=
  match s with
  | EmptyString => ""
  | String c s' => repr_char q c ++ repr_chars q s'
  end.

(** [repr(s)]: single quotes unless the text has a single quote and no
    double quote. *)
Definition repr_str (s : string) : string :=
  let q := if contains_char "'" s && negb (contains_char dquote s)
           then dquote else "'"%char in
  String q (repr_chars q s ++ String q "").

Fixpoint py_repr (v : json) : string :=
  match v with
  | JNull => "None"
  | JBool b => if b then "True" else "False"
  | JInt n => decimal n
  | JStr s => repr_str s
  | JArr l => "[" ++ join ", " (map py_repr l) ++ "]"
  | JObj d =>
      "{" ++ join ", " (map (fun kv => repr_str (fst kv) ++ ": " ++ py_repr (snd kv)) d) ++ "}"
  end.

(** [str(v)], which is what an f-string field applies. *)
Definition py_str (v : json) : string :=
  match v with
  | JStr s => s
  | _ => py_repr v
  end.

(* ------------------------------------------------------------------ *)
(** ** Paths: [startswith], [endswith], [split], [int()] *)

Definition startswith (s p : string) : bool := String.prefix p s.

Fixpoint string_rev (s acc : string) : string :=
  match s with
  | EmptyString => acc
  | String c s' => string_rev s' (String c acc)
  end.

Definition endswith (s p : string) : bool :=
  String.prefix (string_rev p "") (string_rev s "").

(** [s.split(sep)] for a one-character separator; [cur] is the segment
    being read.  The result always has at least one segment. *)
Fixpoint split_from (sep : ascii) (cur s : string) : list string :=
  match s with
  | EmptyString => [cur]
  | String c s' =>
      if Ascii.eqb c sep then cur :: split_from sep "" s'
      else split_from sep (cur ++ String c "") s'
  end.

Definition split (sep : ascii) (s : string) : list string :=
  split_from sep "" s.

(** The white space [int()] strips, among the first 256 code points:
    the ASCII characters tab to carriage return and the space, and the
    two non-ASCII spaces NEL and NBSP, which [int()] turns into spaces
    first.  The separators 0x1c to 0x1f are white space for
    [str.isspace()] but not for [int()]. *)
Definition is_space (c : ascii) : bool :=
  let n := N_of_ascii c in
  (((9 <=? n) && (n <=? 13)) || (n =? 32) || (n =? 133) || (n =? 160))%N.

Fixpoint lstrip (s : string) : string :=
  match s with
  | String c s' => if is_space c then lstrip s' else s
  | EmptyString => EmptyString
  end.

Definition strip (s : string) : string :=
  string_rev (lstrip (string_rev (lstrip s) "")) "".

Definition digit_of (c : ascii) : option Z :=
  let n := N_of_ascii c in
  if ((48 <=? n) && (n <=? 57))%N then Some (Z.of_N n - 48) else None.

(** The digits of a decimal literal: one underscore is allowed between
    two digits.  [seen] says whether the previous character was a digit,
    [count] is the number of digits read. *)
Fixpoint int_digits (s : string) (acc : Z) (seen : bool) (count : nat)
  : option (Z * nat) :=
  match s with
  | EmptyString => if seen then Some (acc, count) else None
  | String c s' =>
      match digit_of c with
      | Some d => int_digits s' (10 * acc + d) true (S count)
      | None =>
          if Ascii.eqb c "_" && seen then int_digits s' acc false count
          else None
      end
  end.

(** [int(s)] in base ten: surrounding white space, an optional sign,
    digits.  [None] stands for the ValueError. *)
Definition py_int (s : string) : option Z :=
  let body := strip s in
  let '(negative, digits) :=
    match body with
    | String "-" r => (true, r)
    | String "+" r => (false, r)
    | _ => (false, body)
    end in
  match int_digits digits 0 false 0 with
  | Some (n, count) =>
      if Nat.leb count INT_MAX_STR_DIGITS
      then Some (if negative : bool then - n else n)
      else None
  | None => None
  end.

(** [path.split("/")[3]] then [int(...)], as the three handlers do it
    under [except (ValueError, IndexError)]. *)
Definition conversation_id_of (path : string) : option Z :=
  match nth_error (split "/" path) 3 with
  | Some segment => py_int segment
  | None => None
  end.

(* ------------------------------------------------------------------ *)
(** ** The store *)

(** Timestamps are the ISO-8601 texts of [now_iso]; SQLite compares
    TEXT byte by byte, which is the order used by ORDER BY below. *)
Definition stamp_leb (a b : string) : bool :=
  match String_as_OT.compare a b with
  | Gt => false
  | _ => true
  end.

Definition stamp_le (a b : string) : Prop := stamp_leb a b = true.

Record conversation : Type := mkConversation {
  c_id : Z;
  c_title : string;
  c_system_prompt : string;
  c_created_at : string;
  c_updated_at : string
}.

Record message : Type := mkMessage {
  m_id : Z;
  m_conversation_id : Z;
  m_role : string;
  m_content : string;
  m_created_at : string
}.

(** The two tables in rowid order of insertion, and the two rows of
    [sqlite_sequence] that AUTOINCREMENT maintains. *)
Record database : Type := mkDatabase {
  conversations : list conversation;
  messages : list message;
  seq_conversations : Z;
  seq_messages : Z
}.

Definition empty_database : database := mkDatabase [] [] 0 0.

(** AUTOINCREMENT: one more than the largest rowid the table has ever
    held.  Rowids are 64-bit; when none is left the INSERT fails
    (SQLITE_FULL). *)
Definition next_rowid (seq : Z) (ids : list Z) : Z :=
  fold_right Z.max seq ids + 1.

(** A value bound to a statement parameter. *)
Inductive sqlval : Type :=
| SNull
| SInteger (n : Z)
| SText (s : string).

Definition fits_int64 (n : Z) : bool :=
  (- 9223372036854775808 <=? n) && (n <=? 9223372036854775807).

Definition new_rowid (seq : Z) (ids : list Z) : res Z :=
  let id := next_rowid seq ids in
  if fits_int64 id then Ok id else Raise OperationalError.

(** What the [sqlite3] module does with a Python value handed over as a
    parameter: None, int (bool included) and str are adapted, a list or
    a dict is refused. *)
Definition adapt (v : json) : res sqlval :=
  match v with
  | JNull => Ok SNull
  | JBool b => Ok (SInteger (if b then 1 else 0))
  | JInt n => if fits_int64 n then Ok (SInteger n) else Raise OverflowError
  | JStr s => Ok (SText s)
  | JArr _ | JObj _ => Raise ProgrammingError
  end.

Definition adapt_id (n : Z) : res Z :=
  if fits_int64 n then Ok n else Raise OverflowError.

(** A column declared TEXT NOT NULL: an integer is stored as its
    decimal text, NULL violates the constraint. *)
Definition text_not_null (v : sqlval) : res string :=
  match v with
  | SNull => Raise IntegrityError
  | SInteger n => Ok (decimal n)
  | SText s => Ok s
  end.

Definition find_conversation (d : database) (id : Z) : option conversation :=
  find (fun c => c_id c =? id) (conversations d).

Definition messages_of (d : database) (id : Z) : list message :=
  filter (fun m => m_conversation_id m =? id) (messages d).

(** [INSERT INTO conversations (title, system_prompt, created_at,
    updated_at) VALUES (?, ?, ?, ?)]; the result is [lastrowid].  The
    parameters are bound first; SQLite then allocates the rowid, and
    checks NOT NULL after that. *)
Definition insert_conversation (title system_prompt : json)
    (created updated : string) (d : database) : res (Z * database) :=
  res_bind (adapt title) (fun v_title =>
  res_bind (adapt system_prompt) (fun v_prompt =>
  res_bind (new_rowid (seq_conversations d) (map c_id (conversations d))) (fun id =>
  res_bind (text_not_null v_title) (fun t =>
  res_bind (text_not_null v_prompt) (fun p =>
    Ok (id,
        mkDatabase (conversations d ++ [mkConversation id t p created updated])
                   (messages d) id (seq_messages d))))))).

(** [INSERT INTO messages (conversation_id, role, content, created_at)
    VALUES (?, ?, ?, ?)] under the CHECK on [role] and the foreign key
    (the connection runs with [PRAGMA foreign_keys = ON]).  The
    parameters are bound first; SQLite then allocates the rowid, so that
    a full table is reported (OperationalError) before any constraint
    is looked at, and checks NOT NULL, CHECK and the foreign key after
    that. *)
Definition insert_message (conversation_id : Z) (role content : json)
    (created : string) (d : database) : res database :=
  res_bind (adapt_id conversation_id) (fun cid =>
  res_bind (adapt role) (fun v_role =>
  res_bind (adapt content) (fun v_content =>
  res_bind (new_rowid (seq_messages d) (map m_id (messages d))) (fun id =>
  res_bind (text_not_null v_role) (fun r =>
  res_bind (text_not_null v_content) (fun c =>
    if negb (is_role r) then Raise IntegrityError
    else match find_conversation d cid with
         | None => Raise IntegrityError
         | Some _ =>
             Ok (mkDatabase (conversations d)
                            (messages d ++ [mkMessage id cid r c created])
                            (seq_conversations d) id)
         end)))))).

(** [UPDATE conversations SET updated_at = ? WHERE id = ?] *)
Definition touch_conversation (updated : string) (conversation_id : Z)
    (d : database) : res database :=
  res_bind (adapt_id conversation_id) (fun cid =>
    Ok (mkDatabase
          (map (fun c => if c_id c =? cid
                         then mkConversation (c_id c) (c_title c) (c_system_prompt c)
                                             (c_created_at c) updated
                         else c) (conversations d))
          (messages d) (seq_conversations d) (seq_messages d))).

(** [DELETE FROM messages WHERE conversation_id = ?] *)
Definition delete_messages (conversation_id : Z) (d : database) : res database :=
  res_bind (adapt_id conversation_id) (fun cid =>
    Ok (mkDatabase (conversations d)
                   (filter (fun m => negb (m_conversation_id m =? cid)) (messages d))
                   (seq_conversations d) (seq_messages d))).

(** [UPDATE conversations SET title = ?, system_prompt = ?, updated_at = ?
    WHERE id = ?], where each of the first two assignments is present
    only when its value is. *)
Definition update_row (title system_prompt : option json) (updated : string)
    (conversation_id : Z) (d : database) : res database :=
  res_bind (match title with
            | Some v => res_bind (adapt v) (fun x => Ok (Some x))
            | None => Ok None
            end) (fun v_title =>
  res_bind (match system_prompt with
            | Some v => res_bind (adapt v) (fun x => Ok (Some x))
            | None => Ok None
            end) (fun v_prompt =>
  res_bind (adapt_id conversation_id) (fun cid =>
    match find_conversation d cid with
    | None => Ok d
    | Some _ =>
        res_bind (match v_title with
                  | Some x => res_bind (text_not_null x) (fun t => Ok (Some t))
                  | None => Ok None
                  end) (fun new_title =>
        res_bind (match v_prompt with
                  | Some x => res_bind (text_not_null x) (fun p => Ok (Some p))
                  | None => Ok None
                  end) (fun new_prompt =>
          Ok (mkDatabase
                (map (fun c =>
                        if c_id c =? cid
                        then mkConversation
                               (c_id c)
                               (match new_title with Some t => t | None => c_title c end)
                               (match new_prompt with Some p => p | None => c_system_prompt c end)
                               (c_created_at c) updated
                        else c) (conversations d))
                (messages d) (seq_conversations d) (seq_messages d))))
    end))).

(* ------------------------------------------------------------------ *)
(** ** The world the server runs in *)

(** The request [llm_chat] sends. *)
Record outbound : Type := mkOutbound {
  o_url : string;
  o_data : json;
  o_content_type : string;
  o_authorization : string;
  o_method : string;
  o_timeout : Z
}.

(** What [urllib] makes of the request.  [Refused]: the constructor
    [urllib.request.Request] raises ValueError on the URL (one without
    a scheme), outside the [try] and before [urlopen] is called.
    Otherwise [urlopen] is called once, and [urlopen], [response.read()]
    and [json.loads] come back with a decoded body, with a 2xx body that
    is not JSON, with one of the two exceptions [llm_chat] catches, or
    with any other exception ([Escapes]: a read timeout, a connection
    closed by the peer, an incomplete read), which [llm_chat] lets
    through. *)
Inductive upstream : Type :=
| Body (data : json)
| NotJson
| HTTPError (code : Z) (detail : string)
| URLError (reason : string)
| Refused
| Escapes (e : exn).

(** [clock n] is what the [n]-th call of [now_iso] returns, [ticks]
    counts the calls made; [network] is what [urllib] does with a
    request, [sent] the trace of the requests [urlopen] was called
    with. *)
Record world : Type := mkWorld {
  db : database;
  clock : nat -> string;
  ticks : nat;
  environ : string -> option string;
  network : outbound -> upstream;
  sent : list outbound
}.

Definition set_db (w : world) (d : database) : world :=
  mkWorld d (clock w) (ticks w) (environ w) (network w) (sent w).

Definition M (A : Type) : Type := world -> res A * world.

Definition ret {A} (a : A) : M A := fun w => (Ok a, w).

Definition raise {A} (e : exn) : M A := fun w => (Raise e, w).

Definition bind {A B} (m : M A) (k : A -> M B) : M B :=
  fun w =>
    match m w with
    | (Ok a, w') => k a w'
    | (Raise e, w') => (Raise e, w')
    end.

Notation "x <- m ;; k" := (bind m (fun x => k))
  (at level 61, m at next level, right associativity).
Notation "m ;;; k" := (bind m (fun _ => k))
  (at level 61, right associativity).

Definition lift {A} (r : res A) : M A := fun w => (r, w).

(** [now_iso()] *)
Definition now_iso : M string :=
  fun w =>
    (Ok (clock w (ticks w)),
     mkWorld (db w) (clock w) (S (ticks w)) (environ w) (network w) (sent w)).

(** One statement on the connection. *)
Definition execute {A} (stmt : database -> res (A * database)) : M A :=
  fun w =>
    match stmt (db w) with
    | Ok (a, d) => (Ok a, set_db w d)
    | Raise e => (Raise e, w)
    end.

Definition execute_ (stmt : database -> res database) : M unit :=
  execute (fun d => res_bind (stmt d) (fun d' => Ok (tt, d'))).

(** A SELECT. *)
Definition query {A} (q : database -> res A) : M A :=
  fun w => (q (db w), w).

(** [with get_db() as db: ...]: commit when the block ends, roll the
    store back when it raises. *)
Definition with_db {A} (block : M A) : M A :=
  fun w =>
    match block w with
    | (Ok a, w') => (Ok a, w')
    | (Raise e, w') => (Raise e, set_db w' (db w))
    end.

(* ------------------------------------------------------------------ *)
(** ** Sorting, for ORDER BY *)

Section Sort.
Context {A : Type} (leb : A -> A -> bool).

Fixpoint insert_sorted (x : A) (l : list A) : list A :=
  match l with
  | [] => [x]
  | y :: l' => if leb x y then x :: l else y :: insert_sorted x l'
  end.

Fixpoint order_by (l : list A) : list A :=
  match l with
  | [] => []
  | x :: l' => insert_sorted x (order_by l')
  end.

End Sort.

(* ------------------------------------------------------------------ *)
(** ** Storage functions *)

(** [dict(row)] for the two SELECTs on [conversations]. *)
Definition conversation_dict (c : conversation) : list (string * json) :=
  [("id", JInt (c_id c)); ("title", JStr (c_title c));
   ("system_prompt", JStr (c_system_prompt c));
   ("created_at", JStr (c_created_at c)); ("updated_at", JStr (c_updated_at c))].

Definition message_dict (m : message) : json :=
  JObj [("id", JInt (m_id m)); ("role", JStr (m_role m));
        ("content", JStr (m_content m)); ("created_at", JStr (m_created_at m))].

Definition create_conversation (title system_prompt : json) : M Z :=
  timestamp <- now_iso ;;
  with_db (execute (insert_conversation title system_prompt timestamp timestamp)).

(** [conversations c LEFT JOIN messages m ON m.conversation_id = c.id]
    for one row of [c]: its messages, or one row of NULLs. *)
Definition left_join (d : database) (c : conversation) : list (option message) :=
  match messages_of d (c_id c) with
  | [] => [None]
  | ms => map Some ms
  end.

(** [COUNT(m.id)]: the rows of the group where [m.id] is not NULL. *)
Fixpoint count_ids (group : list (option message)) : Z :=
  match group with
  | [] => 0
  | Some _ :: rest => 1 + count_ids rest
  | None :: rest => count_ids rest
  end.

(** The rows of [list_conversations]: one group per conversation
    ([c.id] is the primary key), ordered by [updated_at] descending. *)
Definition conversation_rows (d : database) : list (conversation * Z) :=
  order_by (fun a b => stamp_leb (c_updated_at (fst b)) (c_updated_at (fst a)))
           (map (fun c => (c, count_ids (left_join d c))) (conversations d)).

Definition list_conversations : M (list json) :=
  with_db (query (fun d =>
    Ok (map (fun row => JObj (conversation_dict (fst row)
                              ++ [("message_count", JInt (snd row))]))
            (conversation_rows d)))).

Definition get_conversation (conversation_id : Z) : M (option json) :=
  with_db (query (fun d =>
    res_bind (adapt_id conversation_id) (fun cid =>
      Ok (option_map (fun c => JObj (conversation_dict c))
                     (find_conversation d cid))))).

(** The rows of [list_messages], [ORDER BY id ASC]. *)
Definition message_rows (d : database) (conversation_id : Z) : list message :=
  order_by (fun a b => m_id a <=? m_id b) (messages_of d conversation_id).

Definition list_messages (conversation_id : Z) : M (list json) :=
  with_db (query (fun d =>
    res_bind (adapt_id conversation_id) (fun cid =>
      Ok (map message_dict (message_rows d cid))))).

(** [title] and [system_prompt] are Python values; [JNull] is None. *)
Definition update_conversation (conversation_id : Z) (title system_prompt : json)
  : M unit :=
  let title' := match title with JNull => None | v => Some v end in
  let prompt' := match system_prompt with JNull => None | v => Some v end in
  timestamp <- now_iso ;;
  with_db (execute_ (update_row title' prompt' timestamp conversation_id)).

Definition append_message (conversation_id : Z) (role content : json) : M unit :=
  with_db (
    created <- now_iso ;;
    execute_ (insert_message conversation_id role content created) ;;;
    updated <- now_iso ;;
    execute_ (touch_conversation updated conversation_id)).

Fixpoint insert_each (conversation_id : Z) (msgs : list json) : M unit :=
  match msgs with
  | [] => ret tt
  | message :: rest =>
      role <- lift (py_getitem message "role") ;;
      content <- lift (py_getitem message "content") ;;
      created <- now_iso ;;
      execute_ (insert_message conversation_id role content created) ;;;
      insert_each conversation_id rest
  end.

Definition replace_messages (conversation_id : Z) (msgs : list json) : M unit :=
  with_db (
    execute_ (delete_messages conversation_id) ;;;
    insert_each conversation_id msgs ;;;
    updated <- now_iso ;;
    execute_ (touch_conversation updated conversation_id)).

(* ------------------------------------------------------------------ *)
(** ** [llm_chat] *)

Definition MOCK_PREFIX : string :=
  "[mock backend reply] Set LLM_API_KEY to call a real model. Last user message: ".

Definition DEFAULT_API_URL : string := "https://api.openai.com/v1/chat/completions".
Definition DEFAULT_MODEL : string := "gpt-4o-mini".

(** The loop over [reversed(messages)]: [ms] is the list already
    reversed, the result is [last_user] when the loop ends or breaks. *)
Fixpoint scan_last_user (ms : list json) : res json :=
  match ms with
  | [] => Ok (JStr "")
  | message :: rest =>
      res_bind (py_get message "role" JNull) (fun role =>
        if py_eq_str role "user"
        then py_get message "content" (JStr "")
        else scan_last_user rest)
  end.

(** Lines 169-177: from the decoded response to the reply. *)
Definition reply_of (data : json) : res json :=
  res_bind (py_get data "choices" JNull) (fun found =>
    let choices := py_or found (JArr []) in
    if negb (truthy choices)
    then Raise (RuntimeError "LLM response did not include choices")
    else
      res_bind (py_first choices) (fun first =>
      res_bind (py_get first "message" (JObj [])) (fun msg =>
      res_bind (py_get msg "content" JNull) (fun content =>
        if negb (truthy content)
        then Raise (RuntimeError "LLM response did not include assistant content")
        else Ok content)))).

Definition env_or (w : world) (name default : string) : string :=
  match environ w name with
  | Some v => v
  | None => default
  end.

(** [not api_key] *)
Definition no_credential (w : world) : bool :=
  match environ w "LLM_API_KEY" with
  | None => true
  | Some k => String.eqb k ""
  end.

Definition urlopen (request : outbound) : M upstream :=
  fun w =>
    (Ok (network w request),
     mkWorld (db w) (clock w) (ticks w) (environ w) (network w)
             (sent w ++ [request])).

(** [urllib.request.Request(api_url, ...)] *)
Definition build_request (request : outbound) : M outbound :=
  fun w =>
    match network w request with
    | Refused => (Raise ValueError, w)
    | _ => (Ok request, w)
    end.

(** The [urllib.request.Request] of lines 149-158, with the timeout
    [urlopen] is given. *)
Definition chat_request (w : world) (msgs : list json) : outbound :=
  let api_key := env_or w "LLM_API_KEY" "" in
  let api_url := env_or w "LLM_API_URL" DEFAULT_API_URL in
  let model := env_or w "LLM_MODEL" DEFAULT_MODEL in
  let payload := JObj [("model", JStr model); ("messages", JArr msgs)] in
  mkOutbound api_url payload "application/json" ("Bearer " ++ api_key) "POST" 60.

Definition llm_chat (msgs : list json) : M json :=
  fun w =>
    if no_credential w then
      (res_bind (scan_last_user (rev msgs)) (fun last_user =>
         Ok (JStr (MOCK_PREFIX ++ py_str last_user))), w)
    else
      (request <- build_request (chat_request w msgs) ;;
       answer <- urlopen request ;;
       match answer with
       | Body data => lift (reply_of data)
       | NotJson => raise ValueError
       | HTTPError code detail =>
           raise (RuntimeError
                    ("LLM request failed (" ++ decimal code ++ "): " ++ detail))
       | URLError reason =>
           raise (RuntimeError ("LLM connection failed: " ++ reason))
       | Refused => raise ValueError
       | Escapes e => raise e
       end) w.

(* ------------------------------------------------------------------ *)
(** ** The handlers *)

Inductive response : Type :=
| JsonResponse (status : Z) (payload : json)
| SendError (code : Z) (reason : string)
| ServeStatic (route_path : string).

Definition error_json (text : string) : json := JObj [("error", JStr text)].

Definition API : string := "/api/conversations".
Definition API_SLASH : string := "/api/conversations/".
Definition MESSAGES : string := "/messages".

Definition is_messages_path (path : string) : bool :=
  startswith path API_SLASH && endswith path MESSAGES.

(** The opening of every branch that names a conversation: parse the
    identifier, look the conversation up, then run [k] on it. *)
Definition with_conversation (path : string) (k : Z -> M response) : M response :=
  match conversation_id_of path with
  | None => ret (JsonResponse 400 (error_json "invalid conversation id"))
  | Some conversation_id =>
      found <- get_conversation conversation_id ;;
      match found with
      | None => ret (JsonResponse 404 (error_json "conversation not found"))
      | Some _ => k conversation_id
      end
  end.

Definition do_GET (path : string) : M response :=
  if String.eqb path API then
    rows <- list_conversations ;;
    ret (JsonResponse 200 (JObj [("conversations", JArr rows)]))
  else if is_messages_path path then
    with_conversation path (fun conversation_id =>
      rows <- list_messages conversation_id ;;
      ret (JsonResponse 200 (JObj [("messages", JArr rows)])))
  else ret (ServeStatic path).

(** [except RuntimeError as err] around [llm_chat]. *)
Definition chat_or_500 (msgs : list json) : M response :=
  fun w =>
    match llm_chat msgs w with
    | (Ok reply, w') => (Ok (JsonResponse 200 (JObj [("reply", reply)])), w')
    | (Raise (RuntimeError text), w') => (Ok (JsonResponse 500 (error_json text)), w')
    | (Raise e, w') => (Raise e, w')
    end.

Definition do_POST (path : string) (body : json) : M response :=
  if String.eqb path API then
    found_title <- lift (py_get body "title" JNull) ;;
    let title := py_or found_title (JStr "New conversation") in
    found_prompt <- lift (py_get body "systemPrompt" JNull) ;;
    let system_prompt := py_or found_prompt (JStr "") in
    conversation_id <- create_conversation title system_prompt ;;
    created <- get_conversation conversation_id ;;
    ret (JsonResponse 201
           (JObj [("conversation", match created with Some c => c | None => JNull end)]))
  else if is_messages_path path then
    with_conversation path (fun conversation_id =>
      role <- lift (py_get body "role" JNull) ;;
      content <- lift (py_get body "content" (JStr "")) ;;
      known <- lift (in_roles role) ;;
      if negb known then ret (JsonResponse 400 (error_json "invalid role"))
      else
        append_message conversation_id role content ;;;
        ret (JsonResponse 201 (JObj [("ok", JBool true)])))
  else if String.eqb path "/api/chat" then
    found <- lift (py_get body "messages" (JArr [])) ;;
    match found with
    | JArr msgs => chat_or_500 msgs
    | _ => ret (JsonResponse 400 (error_json "messages must be an array"))
    end
  else ret (SendError 404 "Not found").

(** The loop of [do_PUT] that builds [cleaned]: [Ok (inl r)] is the
    early [return] with the response [r]. *)
Fixpoint clean_messages (msgs : list json) (cleaned : list json)
  : res (response + list json) :=
  match msgs with
  | [] => Ok (inr cleaned)
  | message :: rest =>
      res_bind (py_get message "role" JNull) (fun role =>
      res_bind (py_get message "content" (JStr "")) (fun content =>
      res_bind (in_roles role) (fun known =>
        if negb known
        then Ok (inl (JsonResponse 400 (error_json "invalid role in messages")))
        else clean_messages rest
               (cleaned ++ [JObj [("role", role); ("content", content)]]))))
  end.

Definition do_PUT (path : string) (body : json) : M response :=
  if startswith path API_SLASH && negb (endswith path MESSAGES) then
    with_conversation path (fun conversation_id =>
      title <- lift (py_get body "title" JNull) ;;
      system_prompt <- lift (py_get body "systemPrompt" JNull) ;;
      update_conversation conversation_id title system_prompt ;;;
      updated <- get_conversation conversation_id ;;
      ret (JsonResponse 200
             (JObj [("conversation", match updated with Some c => c | None => JNull end)])))
  else if is_messages_path path then
    with_conversation path (fun conversation_id =>
      found <- lift (py_get body "messages" (JArr [])) ;;
      match found with
      | JArr msgs =>
          outcome <- lift (clean_messages msgs []) ;;
          match outcome with
          | inl early => ret early
          | inr cleaned =>
              replace_messages conversation_id cleaned ;;;
              ret (JsonResponse 200 (JObj [("ok", JBool true)]))
          end
      | _ => ret (JsonResponse 400 (error_json "messages must be an array"))
      end)
  else ret (SendError 404 "Not found").

(* ------------------------------------------------------------------ *)
(** ** The vocabulary of the statements *)

(** The message is a dict whose "role" is the string [r]. *)
Definition has_role (r : string) (m : json) : bool :=
  match m with
  | JObj d => match dict_get "role" d with
              | Some v => py_eq_str v r
              | None => false
              end
  | _ => false
  end.

(** The text the fallback reply ends with, for a user message whose
    "content" is [content] ([None] when the key is absent): a string as
    it is, another value as [str()] prints it, nothing when there is no
    content. *)
Definition content_text (content : option json) (text : string) : Prop :=
  match content with
  | None => text = ""
  | Some (JStr s) => text = s
  | Some v => text = py_str v
  end.

(** Not the most recent user message, and no obstacle on the way to
    it: an object whose role is not "user". *)
Definition passed_over (m : json) : Prop :=
  is_dict m = true /\ has_role "user" m = false.

Definition NO_CHOICES : exn := RuntimeError "LLM response did not include choices".
Definition NO_CONTENT : exn :=
  RuntimeError "LLM response did not include assistant content".

(** A JSON value with a hash: anything but an array or an object. *)
Definition scalar (v : json) : bool :=
  match v with
  | JArr _ | JObj _ => false
  | _ => true
  end.

(** A JSON object whose "role", when present, is a scalar. *)
Definition plain_message (m : json) : Prop :=
  exists d, m = JObj d
            /\ match dict_get "role" d with
               | Some v => scalar v = true
               | None => True
               end.

(** The role of the message is one of the three. *)
Definition names_role (m : json) : bool :=
  has_role "user" m || has_role "assistant" m || has_role "system" m.

Definition pair_message (p : string * string) : json :=
  JObj [("role", JStr (fst p)); ("content", JStr (snd p))].

(** What an entry of the list [list_messages] returns shows: its role
    and content, when the entry is an object that has both as strings,
    and its identifier, when it has one that is an integer. *)
Definition shown_pair (entry : json) : option (string * string) :=
  match entry with
  | JObj fields =>
      match dict_get "role" fields, dict_get "content" fields with
      | Some (JStr r), Some (JStr c) => Some (r, c)
      | _, _ => None
      end
  | _ => None
  end.

Definition shown_id (entry : json) : option Z :=
  match entry with
  | JObj fields =>
      match dict_get "id" fields with
      | Some (JInt n) => Some n
      | _ => None
      end
  | _ => None
  end.

(** The text a TEXT NOT NULL column keeps of a Python value. *)
Definition stored_text (v : json) : res string :=
  res_bind (adapt v) text_not_null.

(** One message as [replace_messages] receives it: the role, the value
    under "content", and the text that value is stored as. *)
Record item : Type := mkItem {
  i_role : string;
  i_content : json;
  i_text : string
}.

Definition item_message (i : item) : json :=
  JObj [("role", JStr (i_role i)); ("content", i_content i)].

Definition item_ok (i : item) : Prop :=
  is_role (i_role i) = true /\ stored_text (i_content i) = Ok (i_text i).

Definition item_pair (i : item) : string * string := (i_role i, i_text i).

Definition pair_item (p : string * string) : item :=
  mkItem (fst p) (JStr (snd p)) (snd p).

(** The largest rowid the [messages] table has held. *)
Definition top_message_id (d : database) : Z :=
  fold_right Z.max (seq_messages d) (map m_id (messages d)).

Definition INT64_MAX : Z := 9223372036854775807.

(** The calls that write to the store. *)
Inductive call : Type :=
| CreateConversation (title system_prompt : json)
| UpdateConversation (id : Z) (title system_prompt : json)
| AppendMessage (id : Z) (role content : json)
| ReplaceMessages (id : Z) (msgs : list json).

Definition run (c : call) (w : world) : world :=
  match c with
  | CreateConversation title system_prompt =>
      snd (create_conversation title system_prompt w)
  | UpdateConversation id title system_prompt =>
      snd (update_conversation id title system_prompt w)
  | AppendMessage id role content => snd (append_message id role content w)
  | ReplaceMessages id msgs => snd (replace_messages id msgs w)
  end.

(** The worlds a server reaches from an empty store. *)
Inductive reachable : world -> Prop :=
| reachable_start (w : world) : db w = empty_database -> reachable w
| reachable_call (w : world) (c : call) : reachable w -> reachable (run c w).

(** The clock never goes back. *)
Definition clock_monotone (w : world) : Prop :=
  forall i j : nat, (i <= j)%nat -> stamp_le (clock w i) (clock w j).

Section Evolution.
Variables w w' : world.

(** [s] was read from the clock between the two worlds. *)
Definition stamped_between (s : string) : Prop :=
  exists t : nat, (ticks w <= t < ticks w')%nat /\ s = clock w t.

Definition conversation_step (c c' : conversation) : Prop :=
  c_id c' = c_id c
  /\ c_created_at c' = c_created_at c
  /\ (c_updated_at c' = c_updated_at c \/ stamped_between (c_updated_at c')).

Definition conversation_born (c : conversation) : Prop :=
  c_updated_at c = c_created_at c /\ stamped_between (c_created_at c).

Definition evolves : Prop :=
  clock w' = clock w
  /\ (ticks w <= ticks w')%nat
  /\ exists kept born,
      conversations (db w') = (kept ++ born)%list
      /\ Forall2 conversation_step (conversations (db w)) kept
      /\ Forall conversation_born born.

End Evolution.

(** A row rewritten by an UPDATE that sets [updated_at] to [updated]. *)
Definition refreshed (updated : string) (c c' : conversation) : Prop :=
  c' = c
  \/ (c_id c' = c_id c /\ c_created_at c' = c_created_at c
      /\ c_updated_at c' = updated).

(** The invariant behind C5: every conversation was created no
    later than it was last updated, and that no later than the next
    reading of the clock. *)
Definition stamps_in_order (w : world) : Prop :=
  Forall (fun c => stamp_le (c_created_at c) (c_updated_at c)
                   /\ stamp_le (c_updated_at c) (clock w (ticks w)))
         (conversations (db w)).

(** [title: str | None] as the Python value handed over. *)
Definition optional_str (o : option string) : json :=
  match o with
  | Some s => JStr s
  | None => JNull
  end.

Definition updated_row (conv : conversation) (new_title new_prompt : option string)
    (now : string) : conversation :=
  mkConversation (c_id conv)
                 (match new_title with Some t => t | None => c_title conv end)
                 (match new_prompt with Some p => p | None => c_system_prompt conv end)
                 (c_created_at conv) now.

Definition row_dict (row : conversation * Z) : json :=
  JObj (conversation_dict (fst row) ++ [("message_count", JInt (snd row))]).

Definition next_conversation_id (d : database) : Z :=
  next_rowid (seq_conversations d) (map c_id (conversations d)).

(** [message.get("content", "")] *)
Definition content_or_empty (c : option json) : json :=
  match c with
  | Some v => v
  | None => JStr ""
  end.

(** One message of a PUT body: its role, what it has under "content"
    ([None] when the key is absent), and the text stored for it. *)
Record entry : Type := mkEntry {
  e_role : string;
  e_content : option json;
  e_text : string
}.

Definition reads_as (m : json) (e : entry) : Prop :=
  exists d, m = JObj d
            /\ dict_get "role" d = Some (JStr (e_role e))
            /\ dict_get "content" d = e_content e.

Definition entry_item (e : entry) : item :=
  mkItem (e_role e) (content_or_empty (e_content e)) (e_text e).

(* ------------------------------------------------------------------ *)
(** ** Sample worlds *)

Definition sample_clock (n : nat) : string :=
  nth n ["2024-05-01T10:00:00+00:00"; "2024-05-01T10:00:00.000250+00:00";
         "2024-05-01T10:00:01.500000+00:00"; "2024-05-01T10:02:00+00:00";
         "2024-05-01T10:03:00.000001+00:00"; "2024-05-01T10:03:00.000002+00:00";
         "2024-05-01T10:04:10.250000+00:00"; "2024-05-01T10:04:10.250001+00:00";
         "2024-05-01T10:04:10.250002+00:00"; "2024-05-01T10:10:00+00:00";
         "2024-05-01T10:10:00.000500+00:00"; "2024-05-01T11:00:00+00:00"]
        "2024-05-02T00:00:00+00:00".

Definition silent_network (request : outbound) : upstream :=
  URLError "connection refused".

(** A clock that is set back after its first reading. *)
Definition rewound_clock (n : nat) : string :=
  match n with
  | O => "2024-05-01T10:00:01+00:00"
  | S _ => "2024-05-01T10:00:00+00:00"
  end.

(** A server just started, with no credential in the environment. *)
Definition offline_world : world :=
  mkWorld empty_database sample_clock 0 (fun _ => None) silent_network [].

(** The same under the clock that is set back. *)
Definition rewound_world : world :=
  mkWorld empty_database rewound_clock 0 (fun _ => None) silent_network [].

(** The same with a credential, and an upstream that answers [answer]. *)
Definition online_world (answer : upstream) : world :=
  mkWorld empty_database sample_clock 0
          (fun name => if String.eqb name "LLM_API_KEY" then Some "sk-test" else None)
          (fun _ => answer) [].

Definition user_says (text : string) : json :=
  JObj [("role", JStr "user"); ("content", JStr text)].

(** A 2xx body whose first choice has a null "message". *)
Definition null_message_body : json :=
  JObj [("choices", JArr [JObj [("index", JInt 0); ("message", JNull)]])].

(** The store after one [POST /api/conversations {"title": "Chat"}]. *)
Definition one_conversation_world : world :=
  snd (do_POST "/api/conversations" (JObj [("title", JStr "Chat")]) offline_world).

(** The store after a second conversation is created. *)
Definition two_conversations_world : world :=
  snd (do_POST "/api/conversations" (JObj [("title", JStr "Second")])
               one_conversation_world).

(** Two appends, then a replacement by three messages, then an empty
    replacement. *)
Definition busy_world : world :=
  snd (replace_messages 1
         (map pair_message [("system", "be brief"); ("user", "a"); ("assistant", "b")])
         (snd (append_message 1 (JStr "assistant") (JStr "second")
                 (snd (append_message 1 (JStr "user") (JStr "first")
                         one_conversation_world))))).

(* ------------------------------------------------------------------ *)
(** ** Requests, and what the schema promises of the store *)

Inductive request : Type :=
| GET (path : string)
| POST (path : string) (body : json)
| PUT (path : string) (body : json).

Definition handle (r : request) : M response :=
  match r with
  | GET path => do_GET path
  | POST path body => do_POST path body
  | PUT path body => do_PUT path body
  end.

(** The worlds a server started on an empty store goes through, one
    request after the other; a handler that raises leaves the server
    running in the world it reached. *)
Definition path_of (r : request) : string :=
  match r with
  | GET path | POST path _ | PUT path _ => path
  end.

Inductive served : world -> Prop :=
| served_start (w : world) : db w = empty_database -> served w
| served_request (w : world) (r : request) : served w -> served (snd (handle r w)).

(** Primary keys handed out in ascending order and recorded in
    [sqlite_sequence], the CHECK on [role], and the foreign key. *)
Record store_ok (d : database) : Prop := mkStoreOk {
  ok_conversation_ids : StronglySorted Z.lt (map c_id (conversations d));
  ok_conversation_seq : Forall (fun c => 0 < c_id c <= seq_conversations d) (conversations d);
  ok_message_ids : StronglySorted Z.lt (map m_id (messages d));
  ok_message_seq : Forall (fun m => 0 < m_id m <= seq_messages d) (messages d);
  ok_sequences : 0 <= seq_conversations d /\ 0 <= seq_messages d;
  ok_roles : Forall (fun m => is_role (m_role m) = true) (messages d);
  ok_owners : Forall (fun m => find_conversation d (m_conversation_id m) <> None)
                     (messages d);
  ok_room : seq_conversations d <= INT64_MAX /\ seq_messages d <= INT64_MAX
}.

(** The computation takes a store with [P] to a store with [P],
    however it ends. *)
Definition keeps (P : database -> Prop) {A : Type} (m : M A) : Prop :=
  forall (w w' : world) (r : res A), P (db w) -> m w = (r, w') -> P (db w').

(** The same for one SQL statement that succeeds. *)
Definition statement_keeps (P : database -> Prop) {A : Type}
    (stmt : database -> res (A * database)) : Prop :=
  forall (d d' : database) (a : A), P d -> stmt d = Ok (a, d') -> P d'.

(** The row of a conversation after [UPDATE ... SET updated_at = ?]. *)
Definition touched (c : conversation) (updated : string) : conversation :=
  mkConversation (c_id c) (c_title c) (c_system_prompt c) (c_created_at c) updated.

Definition INVALID_ID : response :=
  JsonResponse 400 (error_json "invalid conversation id").

Definition NOT_FOUND : response :=
  JsonResponse 404 (error_json "conversation not found").

(** A server that answered a few requests, two of them refused. *)
Definition chatting_world : world :=
  fold_left (fun w r => snd (handle r w))
    [POST "/api/conversations" (JObj [("title", JStr "Chat")]);
     POST "/api/conversations/1/messages" (JObj [("role", JStr "user"); ("content", JStr "hi")]);
     POST "/api/conversations/1/messages" (JObj [("role", JStr "robot")]);
     POST "/api/conversations" (JObj []);
     PUT "/api/conversations/2/messages"
         (JObj [("messages", JArr [JObj [("role", JStr "system")]; JInt 7])]);
     POST "/api/conversations/2/messages" (JObj [("role", JStr "assistant")]);
     PUT "/api/conversations/1" (JObj [("title", JStr "Renamed")])]
    offline_world.

(** All the handlers that take the path up produce [out] in [w],
    whatever the body: PUT on every path given to it, GET and POST on
    the paths that end in [/messages]. *)
Definition answers_all (path : string) (w : world) (out : res response * world) : Prop :=
  (forall body, do_PUT path body w = out)
  /\ (is_messages_path path = true ->
      do_GET path w = out /\ forall body, do_POST path body w = out).

(** What the store holds of one conversation: its row and its messages. *)
Definition conversation_view (d : database) (cid : Z)
  : option conversation * list message :=
  (find_conversation d cid, messages_of d cid).

(** From [d] to [d'] nothing was taken back: the two counters of
    [sqlite_sequence] did not decrease, every conversation is still
    there under its id and creation time, and every message of [d'] is
    a message of [d], field for field, or has an id that [d] had not
    given out. *)
Definition extends (d d' : database) : Prop :=
  seq_conversations d <= seq_conversations d'
  /\ seq_messages d <= seq_messages d'
  /\ (forall c, In c (conversations d) ->
        exists c', In c' (conversations d')
                   /\ c_id c' = c_id c /\ c_created_at c' = c_created_at c)
  /\ (forall m, In m (messages d') -> In m (messages d) \/ seq_messages d < m_id m).

(** The two UPDATEs rewrite rows of [conversations] in place: the id
    and the creation time of a row stay, and a row with another id is
    not rewritten. *)
Definition rewrites (cid : Z) (d d' : database) : Prop :=
  exists f,
    d' = mkDatabase (map f (conversations d)) (messages d)
                    (seq_conversations d) (seq_messages d)
    /\ forall c, c_id (f c) = c_id c
                 /\ c_created_at (f c) = c_created_at c
                 /\ (c_id c <> cid -> f c = c).

(** The store and the clock of [w'] are those of [w]. *)
Definition same_store (w w' : world) : Prop :=
  db w' = db w /\ clock w' = clock w /\ ticks w' = ticks w.

(** The call raised [e] and the store is what it was in [w]. *)
Definition rolled_back {A} (w : world) (e : exn) (out : res A * world) : Prop :=
  fst out = Raise e /\ db (snd out) = db w.

Definition OK_TRUE : json := JObj [("ok", JBool true)].

Definition NOT_A_LIST : response :=
  JsonResponse 400 (error_json "messages must be an array").

(** What [do_POST] makes of the outcome of [llm_chat]. *)
Definition chat_response (outcome : res json) : res response :=
  match outcome with
  | Ok reply => Ok (JsonResponse 200 (JObj [("reply", reply)]))
  | Raise (RuntimeError text) => Ok (JsonResponse 500 (error_json text))
  | Raise e => Raise e
  end.

(** A message [replace_messages] cannot store, and the exception it
    meets on it: the subscript [message["role"]] or [message["content"]]
    fails, or the role is a string the CHECK refuses. *)
Inductive unstorable : json -> exn -> Prop :=
| no_role (d : list (string * json)) :
    dict_get "role" d = None -> unstorable (JObj d) KeyError
| no_content (d : list (string * json)) (role : json) :
    dict_get "role" d = Some role -> dict_get "content" d = None ->
    unstorable (JObj d) KeyError
| bad_role (d : list (string * json)) (r : string) (v : json) (sv : sqlval) :
    dict_get "role" d = Some (JStr r) -> is_role r = false ->
    dict_get "content" d = Some v -> adapt v = Ok sv ->
    unstorable (JObj d) IntegrityError.

(* ================================================================== *)
(** * Properties *)

(* ------------------------------------------------------------------ *)
(** ** The model on small inputs *)

Example py_int_plain : py_int "42" = Some 42.
Proof. reflexivity. Qed.

Example py_int_signed : py_int " -1_000 " = Some (-1000).
Proof. reflexivity. Qed.

Example py_int_word : py_int "messages" = None.
Proof. reflexivity. Qed.

Example py_int_empty : py_int "" = None.
Proof. reflexivity. Qed.

Example split_messages_path :
  split "/" "/api/conversations/5/messages"
  = [""; "api"; "conversations"; "5"; "messages"].
Proof. reflexivity. Qed.

Example repr_nested :
  py_str (JArr [JInt 1; JStr "it's"; JNull; JObj [("k", JBool true)]])
  = String "[" ("1, " ++ String dquote ("it's" ++ String dquote (", None, {'k': True}]"))).
Proof. reflexivity. Qed.

(* ------------------------------------------------------------------ *)
(** ** The fallback reply of [llm_chat] *)

Lemma scan_skips (skipped rest : list json) :
  Forall passed_over skipped ->
  scan_last_user (skipped ++ rest) = scan_last_user rest.
Proof.
  induction 1 as [|m skipped [Hdict Hrole] _ IH]; [reflexivity|].
  destruct m as [| | | | |d]; try discriminate Hdict.
  cbn [app scan_last_user py_get res_bind]. simpl in Hrole.
  destruct (dict_get "role" d) as [v|]; [rewrite Hrole|]; exact IH.
Qed.

Lemma scan_from_the_end (before after : list json) (x : json) :
  Forall passed_over after ->
  scan_last_user (rev (before ++ x :: after)) = scan_last_user (x :: rev before).
Proof.
  intros Hafter. rewrite rev_app_distr. simpl. rewrite <- app_assoc. simpl.
  apply scan_skips. apply Forall_rev. exact Hafter.
Qed.

(** The claim as it is written fails on a list that holds something
    else than objects: a null after the last user message makes
    [message.get] raise AttributeError, in [llm_chat] and through
    [POST /api/chat], where nothing catches it. *)
Lemma llm_chat_non_object_raises :
  llm_chat [user_says "hello"; JNull] offline_world
  = (Raise AttributeError, offline_world)
  /\ do_POST "/api/chat" (JObj [("messages", JArr [user_says "hello"; JNull])])
             offline_world
     = (Raise AttributeError, offline_world).
Proof. split; reflexivity. Qed.

(** C1 (amended). With no API credential in the environment, and when
    every element that follows the most recent user message is an
    object, [llm_chat] returns normally and leaves the world as it was
    (no request is built or sent, [urllib] is not consulted).  Its
    result is the fixed prefix followed by the content of that message,
    a value [json.loads] can produce: the content itself when it is a
    string, what [str()] prints for another value, and nothing when the
    message has no "content".  What
    stands before the most recent user message may be anything.  On a
    list of objects none of which is a user message the result is the
    prefix followed by the empty string. *)
Theorem llm_chat_fallback (w : world) (before after : list json)
    (d : list (string * json)) :
  no_credential w = true ->
  has_role "user" (JObj d) = true ->
  loadable (content_or_empty (dict_get "content" d)) = true ->
  Forall passed_over after ->
  (exists text,
      llm_chat (before ++ JObj d :: after) w = (Ok (JStr (MOCK_PREFIX ++ text)), w)
      /\ content_text (dict_get "content" d) text)
  /\ llm_chat after w = (Ok (JStr (MOCK_PREFIX ++ "")), w).
Proof.
  intros Hkey Hrole _ Hafter. split.
  - unfold llm_chat. rewrite Hkey, (scan_from_the_end before after (JObj d) Hafter).
    cbn [scan_last_user py_get res_bind]. simpl in Hrole.
    destruct (dict_get "role" d) as [v|]; [|discriminate Hrole]. rewrite Hrole.
    destruct (dict_get "content" d) as [content|].
    + exists (py_str content). split; [reflexivity|].
      destruct content; reflexivity.
    + exists "". split; reflexivity.
  - unfold llm_chat. rewrite Hkey.
    replace (rev after) with (rev after ++ [])%list by apply app_nil_r.
    rewrite scan_skips by (apply Forall_rev; exact Hafter). reflexivity.
Qed.

Lemma llm_chat_fallback_hello :
  (exists text,
      llm_chat ([JInt 7; user_says "earlier"]
                ++ JObj [("role", JStr "user"); ("content", JStr "hello")]
                   :: [JObj [("role", JStr "assistant"); ("content", JStr "hi")]])%list
               offline_world
      = (Ok (JStr (MOCK_PREFIX ++ text)), offline_world)
      /\ content_text (dict_get "content" [("role", JStr "user"); ("content", JStr "hello")])
                      text)
  /\ llm_chat [JObj [("role", JStr "assistant"); ("content", JStr "hi")]] offline_world
     = (Ok (JStr (MOCK_PREFIX ++ "")), offline_world).
Proof.
  apply (llm_chat_fallback offline_world [JInt 7; user_says "earlier"]
           [JObj [("role", JStr "assistant"); ("content", JStr "hi")]]
           [("role", JStr "user"); ("content", JStr "hello")]).
  - reflexivity.
  - reflexivity.
  - reflexivity.
  - constructor; [split; reflexivity | constructor].
Defined.

Example fallback_hello_text :
  fst (llm_chat [user_says "hello"] offline_world)
  = Ok (JStr "[mock backend reply] Set LLM_API_KEY to call a real model. Last user message: hello").
Proof. reflexivity. Qed.

Example fallback_picks_latest :
  fst (llm_chat [user_says "first"; JObj [("role", JStr "assistant")]; user_says "second";
                 JObj [("role", JStr "system"); ("content", JStr "later")]] offline_world)
  = Ok (JStr (MOCK_PREFIX ++ "second")).
Proof. reflexivity. Qed.

Example fallback_without_user :
  fst (llm_chat [JObj [("role", JStr "assistant"); ("content", JStr "hi")]] offline_world)
  = Ok (JStr MOCK_PREFIX).
Proof. reflexivity. Qed.

(* ------------------------------------------------------------------ *)
(** ** Facts about the order on timestamps and about ORDER BY *)

Lemma stamp_le_refl (a : string) : stamp_le a a.
Proof.
  unfold stamp_le, stamp_leb.
  destruct (String_as_OT.compare_spec a a) as [_|H|H]; try reflexivity.
  exfalso. exact (StrictOrder_Irreflexive a H).
Qed.

Lemma stamp_le_total (a b : string) : stamp_le a b \/ stamp_le b a.
Proof.
  unfold stamp_le, stamp_leb.
  destruct (String_as_OT.compare_spec a b) as [E|H|H]; auto.
  right. destruct (String_as_OT.compare_spec b a) as [E'|H'|H']; auto.
  exfalso. exact (StrictOrder_Irreflexive _ (StrictOrder_Transitive _ _ _ H H')).
Qed.

Lemma stamp_le_cases (a b : string) :
  stamp_le a b <-> a = b \/ String_as_OT.lt a b.
Proof.
  unfold stamp_le, stamp_leb.
  destruct (String_as_OT.compare_spec a b) as [E|H|H]; split; intros H0; auto.
  - discriminate H0.
  - exfalso. destruct H0 as [E|H'].
    + subst. exact (StrictOrder_Irreflexive _ H).
    + exact (StrictOrder_Irreflexive _ (StrictOrder_Transitive _ _ _ H H')).
Qed.

Lemma stamp_le_trans (a b c : string) :
  stamp_le a b -> stamp_le b c -> stamp_le a c.
Proof.
  rewrite !stamp_le_cases.
  intros [E1|L1] [E2|L2]; subst; auto.
  right. exact (StrictOrder_Transitive _ _ _ L1 L2).
Qed.

Section SortFacts.
Context {A : Type} (leb : A -> A -> bool).
Let le (a b : A) : Prop := leb a b = true.

Lemma insert_sorted_perm (x : A) (l : list A) :
  Permutation (x :: l) (insert_sorted leb x l).
Proof.
  induction l as [|y l IH]; simpl.
  - apply Permutation_refl.
  - destruct (leb x y).
    + apply Permutation_refl.
    + eapply perm_trans; [apply perm_swap|]. apply perm_skip. exact IH.
Qed.

Lemma order_by_perm (l : list A) : Permutation l (order_by leb l).
Proof.
  induction l as [|x l IH]; simpl.
  - constructor.
  - eapply perm_trans; [apply perm_skip; exact IH|]. apply insert_sorted_perm.
Qed.

Lemma order_by_fixes_sorted (l : list A) :
  StronglySorted le l -> order_by leb l = l.
Proof.
  induction 1 as [|x l Hs IH Hx]; simpl; [reflexivity|].
  rewrite IH. destruct l as [|y l']; [reflexivity|].
  simpl. inversion Hx as [|? ? Hxy _]; subst.
  unfold le in Hxy. rewrite Hxy. reflexivity.
Qed.

Hypothesis le_total : forall a b, le a b \/ le b a.
Hypothesis le_trans : forall a b c, le a b -> le b c -> le a c.

Lemma insert_sorted_sorted (x : A) (l : list A) :
  StronglySorted le l -> StronglySorted le (insert_sorted leb x l).
Proof.
  induction 1 as [|y l Hs IH Hy]; simpl.
  - constructor; constructor.
  - destruct (leb x y) eqn:Hxy.
    + constructor; [constructor; assumption|].
      constructor; [exact Hxy|].
      eapply Forall_impl; [|exact Hy]. intros z Hz. exact (le_trans _ _ _ Hxy Hz).
    + constructor; [exact IH|].
      assert (Hyx : le y x).
      { destruct (le_total x y) as [H|H]; [unfold le in H; congruence | exact H]. }
      eapply Permutation_Forall; [apply insert_sorted_perm|].
      constructor; assumption.
Qed.

Lemma order_by_sorted (l : list A) : StronglySorted le (order_by leb l).
Proof.
  induction l as [|x l IH]; simpl.
  - constructor.
  - apply insert_sorted_sorted. exact IH.
Qed.
End SortFacts.

(* ------------------------------------------------------------------ *)
(** ** Facts about the monad and the connection *)

Lemma set_db_same (w : world) : set_db w (db w) = w.
Proof. destruct w; reflexivity. Qed.

Lemma with_db_query {A} (q : database -> res A) (w : world) :
  with_db (query q) w = (q (db w), w).
Proof.
  unfold with_db, query. destruct (q (db w)); [reflexivity|].
  rewrite set_db_same. reflexivity.
Qed.

Lemma get_conversation_run (w : world) (id : Z) :
  get_conversation id w
  = (res_bind (adapt_id id) (fun cid =>
       Ok (option_map (fun c => JObj (conversation_dict c))
                      (find_conversation (db w) cid))), w).
Proof. unfold get_conversation. apply with_db_query. Qed.

Lemma get_conversation_found (w : world) (id : Z) (c : conversation) :
  fits_int64 id = true ->
  find_conversation (db w) id = Some c ->
  get_conversation id w = (Ok (Some (JObj (conversation_dict c))), w).
Proof.
  intros Hfit Hfind. rewrite get_conversation_run.
  unfold adapt_id. rewrite Hfit. simpl. rewrite Hfind. reflexivity.
Qed.

Lemma list_messages_run (w : world) (id : Z) :
  fits_int64 id = true ->
  list_messages id w = (Ok (map message_dict (message_rows (db w) id)), w).
Proof.
  intros Hfit. unfold list_messages. rewrite with_db_query.
  unfold adapt_id. rewrite Hfit. reflexivity.
Qed.

(* ------------------------------------------------------------------ *)
(** ** [llm_chat] with a credential *)

(** With a credential exactly one request goes out, and a decoded 2xx
    body is handed to lines 169-177. *)
Lemma llm_chat_live (w : world) (msgs : list json) (data : json) :
  no_credential w = false ->
  network w (chat_request w msgs) = Body data ->
  fst (llm_chat msgs w) = reply_of data
  /\ sent (snd (llm_chat msgs w)) = (sent w ++ [chat_request w msgs])%list
  /\ db (snd (llm_chat msgs w)) = db w.
Proof.
  intros Hkey Hnet. unfold llm_chat. rewrite Hkey.
  unfold bind, build_request, urlopen. rewrite Hnet. simpl. rewrite Hnet.
  unfold lift. simpl. auto.
Qed.

Lemma reply_of_without_choices (d : list (string * json)) :
  match dict_get "choices" d with
  | Some v => truthy v = false
  | None => True
  end ->
  reply_of (JObj d) = Raise NO_CHOICES.
Proof.
  intros H. unfold reply_of, py_get, py_or. simpl.
  destruct (dict_get "choices" d) as [v|]; simpl.
  - rewrite H. reflexivity.
  - reflexivity.
Qed.

(** The first choice is a dict whose "message" is absent or a dict
    [m]: the reply is the "content" of [m] when that is present and not
    empty, and the second RuntimeError otherwise. *)
Lemma reply_of_first_choice (d c m : list (string * json)) (rest : list json) :
  dict_get "choices" d = Some (JArr (JObj c :: rest)) ->
  (dict_get "message" c = Some (JObj m)
   \/ (dict_get "message" c = None /\ m = [])) ->
  reply_of (JObj d)
  = match dict_get "content" m with
    | Some v => if truthy v then Ok v else Raise NO_CONTENT
    | None => Raise NO_CONTENT
    end.
Proof.
  intros Hc Hm. unfold reply_of, py_get, py_or. simpl. rewrite Hc. simpl.
  destruct Hm as [Hm | [Hm Hnil]]; rewrite Hm; simpl.
  - destruct (dict_get "content" m) as [v|]; simpl; [|reflexivity].
    destruct (truthy v); reflexivity.
  - subst m. reflexivity.
Qed.

(** What [llm_chat] returns from a 2xx body is never empty. *)
Lemma reply_of_never_empty (data v : json) :
  reply_of data = Ok v -> truthy v = true.
Proof.
  unfold reply_of. intros H.
  destruct (py_get data "choices" JNull) as [found|]; [|discriminate H]. simpl in H.
  destruct (negb (truthy (py_or found (JArr [])))); [discriminate H|].
  destruct (py_first (py_or found (JArr []))) as [first|]; [|discriminate H]. simpl in H.
  destruct (py_get first "message" (JObj [])) as [msg|]; [|discriminate H]. simpl in H.
  destruct (py_get msg "content" JNull) as [content|]; [|discriminate H]. simpl in H.
  destruct (truthy content) eqn:Ht; simpl in H; [|discriminate H].
  injection H as <-. exact Ht.
Qed.

(** C2. A 2xx body whose first choice carries ["message": null] has no
    reply text, yet [llm_chat] does not fail with its RuntimeError: the
    default of [.get("message", {})] is not used for a key that is
    present, and [None.get] raises AttributeError, which [do_POST] does
    not turn into the 500 response. *)
Theorem llm_chat_null_message :
  fst (llm_chat [user_says "hi"] (online_world (Body null_message_body)))
  = Raise AttributeError
  /\ fst (do_POST "/api/chat" (JObj [("messages", JArr [user_says "hi"])])
                  (online_world (Body null_message_body)))
     = Raise AttributeError
  /\ fst (llm_chat [user_says "hi"]
            (online_world (Body (JObj [("choices", JNull)]))))
     = Raise NO_CHOICES.
Proof. repeat split; reflexivity. Qed.

Example reply_verbatim :
  fst (llm_chat [user_says "hi"]
         (online_world (Body (JObj [("choices",
            JArr [JObj [("message", JObj [("role", JStr "assistant");
                                          ("content", JStr " Hello! ")])]])]))))
  = Ok (JStr " Hello! ").
Proof. reflexivity. Qed.

Example empty_choices_is_runtime_error :
  fst (do_POST "/api/chat" (JObj [("messages", JArr [user_says "hi"])])
               (online_world (Body (JObj [("choices", JArr [])]))))
  = Ok (JsonResponse 500 (error_json "LLM response did not include choices")).
Proof. reflexivity. Qed.

Example upstream_status_is_runtime_error :
  fst (llm_chat [user_says "hi"] (online_world (HTTPError 429 "slow down")))
  = Raise (RuntimeError "LLM request failed (429): slow down").
Proof. reflexivity. Qed.

(* ------------------------------------------------------------------ *)
(** ** Requests that name a conversation *)

Lemma messages_path_not_api (path : string) :
  is_messages_path path = true -> String.eqb path API = false.
Proof.
  intros H. destruct (String.eqb_spec path API) as [E|]; [|reflexivity].
  subst path. discriminate H.
Qed.

Lemma messages_path_not_update (path : string) :
  is_messages_path path = true ->
  startswith path API_SLASH && negb (endswith path MESSAGES) = false.
Proof.
  unfold is_messages_path. intros H.
  apply andb_true_iff in H. destruct H as [H1 H2]. rewrite H1, H2. reflexivity.
Qed.

Lemma with_conversation_found (path : string) (k : Z -> M response)
    (w : world) (cid : Z) (c : conversation) :
  conversation_id_of path = Some cid ->
  fits_int64 cid = true ->
  find_conversation (db w) cid = Some c ->
  with_conversation path k w = k cid w.
Proof.
  intros Hid Hfit Hfind. unfold with_conversation. rewrite Hid.
  unfold bind. rewrite (get_conversation_found w cid c Hfit Hfind). reflexivity.
Qed.

(* ------------------------------------------------------------------ *)
(** ** The role check of the two message routes *)

Lemma in_roles_plain (d : list (string * json)) :
  plain_message (JObj d) ->
  res_bind (py_get (JObj d) "role" JNull) in_roles = Ok (names_role (JObj d)).
Proof.
  intros [d' [E H]]. injection E as <-.
  unfold names_role, has_role. simpl.
  destruct (dict_get "role" d) as [v|]; [|reflexivity].
  destruct v; try discriminate H; try reflexivity.
  simpl. unfold is_role. simpl. rewrite orb_false_r, orb_assoc. reflexivity.
Qed.

Lemma clean_messages_step (d : list (string * json)) (rest cleaned : list json) :
  plain_message (JObj d) ->
  clean_messages (JObj d :: rest) cleaned
  = if names_role (JObj d)
    then clean_messages rest
           (cleaned ++ [JObj [("role", match dict_get "role" d with
                                       | Some x => x
                                       | None => JNull
                                       end);
                              ("content", match dict_get "content" d with
                                          | Some x => x
                                          | None => JStr ""
                                          end)]])
    else Ok (inl (JsonResponse 400 (error_json "invalid role in messages"))).
Proof.
  intros Hm. pose proof (in_roles_plain d Hm) as Hin.
  cbn [clean_messages py_get res_bind] in *.
  rewrite Hin. cbn [res_bind]. destruct (names_role (JObj d)); reflexivity.
Qed.

(** The loop stops at the first message whose role is not one of the
    three; what follows it is not looked at. *)
Lemma clean_messages_rejects (accepted rest : list json) (bad : json)
    (cleaned : list json) :
  Forall (fun m => plain_message m /\ names_role m = true) accepted ->
  plain_message bad ->
  names_role bad = false ->
  clean_messages (accepted ++ bad :: rest) cleaned
  = Ok (inl (JsonResponse 400 (error_json "invalid role in messages"))).
Proof.
  intros Haccepted Hplain Hbad. revert cleaned.
  induction Haccepted as [|m accepted [Hm Hn] _ IH]; intros cleaned.
  - pose proof Hplain as [d [E _]]. subst bad. simpl app.
    rewrite (clean_messages_step d rest cleaned Hplain), Hbad. reflexivity.
  - pose proof Hm as [d [E _]]. subst m. simpl app.
    rewrite (clean_messages_step d _ cleaned Hm), Hn. apply IH.
Qed.

(** The transaction of a storage function: when the block raises, the
    store is the one the block started from. *)
Lemma with_db_raise {A} (block : M A) (w w' : world) (e : exn) :
  with_db block w = (Raise e, w') -> db w' = db w.
Proof.
  unfold with_db. destruct (block w) as [[a|e'] w1]; intros H; inversion H.
  reflexivity.
Qed.

Lemma do_POST_messages_frame (path : string) (body : json) (w w' : world)
    (r : res response) :
  is_messages_path path = true ->
  do_POST path body w = (r, w') ->
  r = Ok (JsonResponse 201 (JObj [("ok", JBool true)])) \/ db w' = db w.
Proof.
  intros Hp. unfold do_POST. rewrite (messages_path_not_api path Hp), Hp.
  unfold with_conversation.
  destruct (conversation_id_of path) as [cid|]; [|intros H; inversion H; auto].
  unfold bind at 1. rewrite get_conversation_run.
  destruct (adapt_id cid) as [cid'|e]; simpl; [|intros H; inversion H; auto].
  destruct (find_conversation (db w) cid'); simpl; [|intros H; inversion H; auto].
  unfold bind, lift.
  destruct (py_get body "role" JNull) as [role|e]; [|intros H; inversion H; auto].
  destruct (py_get body "content" (JStr "")) as [content|e]; [|intros H; inversion H; auto].
  destruct (in_roles role) as [known|e]; [|intros H; inversion H; auto].
  destruct known; simpl; [|intros H; inversion H; auto].
  destruct (append_message cid role content w) as [[u|e] w1] eqn:Ha.
  - intros H; inversion H; auto.
  - intros H; inversion H; subst. right.
    exact (with_db_raise _ _ _ _ Ha).
Qed.

Lemma do_PUT_messages_frame (path : string) (body : json) (w w' : world)
    (r : res response) :
  is_messages_path path = true ->
  do_PUT path body w = (r, w') ->
  r = Ok (JsonResponse 200 (JObj [("ok", JBool true)])) \/ db w' = db w.
Proof.
  intros Hp. unfold do_PUT. rewrite (messages_path_not_update path Hp), Hp.
  unfold with_conversation.
  destruct (conversation_id_of path) as [cid|]; [|intros H; inversion H; auto].
  unfold bind at 1. rewrite get_conversation_run.
  destruct (adapt_id cid) as [cid'|e]; simpl; [|intros H; inversion H; auto].
  destruct (find_conversation (db w) cid'); simpl; [|intros H; inversion H; auto].
  unfold bind, lift.
  destruct (py_get body "messages" (JArr [])) as [found|e]; [|intros H; inversion H; auto].
  destruct found as [| | | |msgs|]; try (intros H; inversion H; auto; fail).
  destruct (clean_messages msgs []) as [[early|cleaned]|e];
    try (intros H; inversion H; auto; fail).
  destruct (replace_messages cid cleaned w) as [[u|e] w1] eqn:Hr.
  - intros H; inversion H; auto.
  - intros H; inversion H; subst. right.
    exact (with_db_raise _ _ _ _ Hr).
Qed.

(** The role check where it works: on an existing conversation, a
    POST whose body is an object with a "role" that is absent or a
    scalar other than the three roles, and a PUT whose list reaches,
    past messages with valid roles, an object with such a role, are
    answered 400 with the world untouched, whatever comes after that
    object in the list.  Whatever the body, a request on these two
    routes that is not answered with its success response leaves the
    store as it was. *)
Lemma hashable_role_rejected (w : world) (path : string) (cid : Z)
    (c : conversation) :
  is_messages_path path = true ->
  conversation_id_of path = Some cid ->
  fits_int64 cid = true ->
  find_conversation (db w) cid = Some c ->
  (forall body,
      plain_message body -> names_role body = false ->
      do_POST path body w = (Ok (JsonResponse 400 (error_json "invalid role")), w))
  /\ (forall d accepted bad rest,
         dict_get "messages" d = Some (JArr (accepted ++ bad :: rest)) ->
         Forall (fun m => plain_message m /\ names_role m = true) accepted ->
         plain_message bad -> names_role bad = false ->
         do_PUT path (JObj d) w
         = (Ok (JsonResponse 400 (error_json "invalid role in messages")), w))
  /\ (forall body r w',
         do_POST path body w = (r, w') ->
         r = Ok (JsonResponse 201 (JObj [("ok", JBool true)])) \/ db w' = db w)
  /\ (forall body r w',
         do_PUT path body w = (r, w') ->
         r = Ok (JsonResponse 200 (JObj [("ok", JBool true)])) \/ db w' = db w).
Proof.
  intros Hp Hid Hfit Hfind. repeat split.
  - intros body Hplain Hbad. pose proof Hplain as [d [E _]]. subst body.
    unfold do_POST. rewrite (messages_path_not_api path Hp), Hp.
    rewrite (with_conversation_found path _ w cid c Hid Hfit Hfind).
    pose proof (in_roles_plain d Hplain) as Hin.
    unfold bind, lift. cbn [py_get res_bind] in *. rewrite Hin, Hbad. reflexivity.
  - intros d accepted bad rest Hmsgs Haccepted Hplain Hbad.
    unfold do_PUT. rewrite (messages_path_not_update path Hp), Hp.
    rewrite (with_conversation_found path _ w cid c Hid Hfit Hfind).
    unfold bind, lift. cbn [py_get]. rewrite Hmsgs.
    rewrite (clean_messages_rejects accepted rest bad [] Haccepted Hplain Hbad).
    reflexivity.
  - intros body r w'. apply do_POST_messages_frame. exact Hp.
  - intros body r w'. apply do_PUT_messages_frame. exact Hp.
Qed.

Example bogus_role_rejected :
  do_POST "/api/conversations/1/messages"
          (JObj [("role", JStr "bogus"); ("content", JStr "x")]) one_conversation_world
  = (Ok (JsonResponse 400 (error_json "invalid role")), one_conversation_world)
  /\ do_PUT "/api/conversations/1/messages"
            (JObj [("messages", JArr [user_says "hi";
                                      JObj [("role", JStr "bogus"); ("content", JStr "x")];
                                      JInt 7])])
            one_conversation_world
     = (Ok (JsonResponse 400 (error_json "invalid role in messages")),
        one_conversation_world).
Proof. split; reflexivity. Qed.

(** C3. The claim holds for every role but one kind.  The test is
    [role not in {"user", "assistant", "system"}], and membership in a
    set hashes its operand: a "role" that is a JSON array or object
    raises the TypeError of an unhashable value, which the handler does
    not catch, so that the request gets no response where its
    neighbours, a null or a number for a role, get the 400 of the claim.
    The store is untouched all the same. *)
Theorem unhashable_role_escapes :
  do_POST "/api/conversations/1/messages"
          (JObj [("role", JArr []); ("content", JStr "x")]) one_conversation_world
  = (Raise TypeError, one_conversation_world)
  /\ do_PUT "/api/conversations/1/messages"
            (JObj [("messages", JArr [JObj [("role", JObj []); ("content", JStr "x")]])])
            one_conversation_world
     = (Raise TypeError, one_conversation_world)
  /\ do_POST "/api/conversations/1/messages"
             (JObj [("role", JNull); ("content", JStr "x")]) one_conversation_world
     = (Ok (JsonResponse 400 (error_json "invalid role")), one_conversation_world)
  /\ do_POST "/api/conversations/1/messages"
             (JObj [("role", JInt 7); ("content", JStr "x")]) one_conversation_world
     = (Ok (JsonResponse 400 (error_json "invalid role")), one_conversation_world).
Proof. repeat split; reflexivity. Qed.

(* ------------------------------------------------------------------ *)
(** ** [replace_messages] followed by [list_messages] *)

Lemma fold_max_seed (s : Z) (l : list Z) : s <= fold_right Z.max s l.
Proof. induction l as [|x l IH]; simpl; lia. Qed.

Lemma fold_max_bound (s b : Z) (l : list Z) :
  s <= b -> Forall (fun x => x <= b) l -> fold_right Z.max s l <= b.
Proof. intros Hs H. induction H; simpl; lia. Qed.

Lemma fold_max_elements (s : Z) (l : list Z) :
  Forall (fun x => x <= fold_right Z.max s l) l.
Proof.
  induction l as [|x l IH]; simpl; constructor; [lia|].
  eapply Forall_impl; [|exact IH]. simpl. intros; lia.
Qed.

Lemma fold_max_filter (s : Z) (f : message -> bool) (l : list message) :
  fold_right Z.max s (map m_id (filter f l)) <= fold_right Z.max s (map m_id l).
Proof.
  induction l as [|x l IH]; simpl; [lia|].
  destruct (f x); simpl; lia.
Qed.

Lemma fits_int64_range (n : Z) :
  0 <= n <= INT64_MAX -> fits_int64 n = true.
Proof. unfold fits_int64, INT64_MAX. intros H. apply andb_true_iff. split; lia. Qed.

(** One INSERT of a well-formed message into a store with room. *)
Lemma insert_message_run (cid : Z) (c : conversation) (r : string) (v : json)
    (t created : string) (d : database) :
  fits_int64 cid = true ->
  find_conversation d cid = Some c ->
  is_role r = true ->
  stored_text v = Ok t ->
  0 <= seq_messages d ->
  top_message_id d + 1 <= INT64_MAX ->
  insert_message cid (JStr r) v created d
  = Ok (mkDatabase (conversations d)
                   (messages d ++ [mkMessage (top_message_id d + 1) cid r t created])
                   (seq_conversations d) (top_message_id d + 1)).
Proof.
  intros Hfit Hfind Hrole Htext Hseq Hroom.
  unfold insert_message, adapt_id. rewrite Hfit. simpl.
  unfold stored_text in Htext.
  destruct (adapt v) as [sv|]; [|discriminate Htext]. simpl in Htext |- *.
  rewrite Htext. simpl. rewrite Hrole. simpl.
  rewrite Hfind. unfold new_rowid, next_rowid. fold (top_message_id d).
  rewrite fits_int64_range; [reflexivity|].
  pose proof (fold_max_seed (seq_messages d) (map m_id (messages d))).
  unfold top_message_id in *. lia.
Qed.

Lemma top_after_insert (d : database) (m : message) :
  m_id m = top_message_id d + 1 ->
  top_message_id (mkDatabase (conversations d) (messages d ++ [m])
                             (seq_conversations d) (m_id m))
  = top_message_id d + 1.
Proof.
  intros Hid. unfold top_message_id. simpl.
  apply Z.le_antisymm.
  - apply fold_max_bound; [unfold top_message_id in Hid; lia|].
    rewrite map_app. apply Forall_app. split.
    + pose proof (fold_max_elements (seq_messages d) (map m_id (messages d))) as H.
      eapply Forall_impl; [|exact H]. simpl. intros a Ha.
      unfold top_message_id in Hid. lia.
    + constructor; [|constructor]. unfold top_message_id in Hid. lia.
  - pose proof (fold_max_seed (m_id m) (map m_id (messages d ++ [m]))).
    unfold top_message_id in Hid. lia.
Qed.

Lemma insert_each_run (cid : Z) (c : conversation) (items : list item) :
  fits_int64 cid = true ->
  Forall item_ok items ->
  forall w,
    find_conversation (db w) cid = Some c ->
    0 <= seq_messages (db w) ->
    top_message_id (db w) + Z.of_nat (List.length items) <= INT64_MAX ->
    exists w' news,
      insert_each cid (map item_message items) w = (Ok tt, w')
      /\ conversations (db w') = conversations (db w)
      /\ messages (db w') = (messages (db w) ++ news)%list
      /\ clock w' = clock w
      /\ (ticks w <= ticks w')%nat
      /\ map (fun m => (m_role m, m_content m)) news = map item_pair items
      /\ Forall (fun m => m_conversation_id m = cid) news
      /\ StronglySorted Z.lt (map m_id news)
      /\ Forall (fun m => top_message_id (db w) < m_id m) news.
Proof.
  intros Hfit Hitems.
  induction Hitems as [|[r v t] items [Hr Hv] Hrest IH]; intros w Hfind Hseq Hroom.
  - exists w, []. simpl. rewrite app_nil_r. repeat split; auto; constructor.
  - simpl in Hr, Hv. simpl List.length in Hroom. rewrite Nat2Z.inj_succ in Hroom.
    set (m := mkMessage (top_message_id (db w) + 1) cid r t (clock w (ticks w))).
    set (d1 := mkDatabase (conversations (db w)) (messages (db w) ++ [m])
                          (seq_conversations (db w)) (top_message_id (db w) + 1)).
    set (w1 := mkWorld d1 (clock w) (S (ticks w)) (environ w) (network w) (sent w)).
    assert (Htop : top_message_id d1 = top_message_id (db w) + 1).
    { apply (top_after_insert (db w) m). reflexivity. }
    destruct (IH w1) as (w' & news & Hrun & Hc & Hm & Hclock & Hticks & Hmap & Hcid & Hsorted & Hnew).
    + exact Hfind.
    + simpl. pose proof (fold_max_seed (seq_messages (db w)) (map m_id (messages (db w)))).
      unfold top_message_id. lia.
    + simpl db. rewrite Htop. lia.
    + exists w', (m :: news).
      split.
      { cbn [map insert_each item_message i_role i_content]. unfold bind at 1, lift.
        simpl py_getitem. cbv beta iota. unfold bind at 1. simpl py_getitem. cbv beta iota.
        unfold bind at 1, now_iso. cbv beta iota.
        unfold bind at 1, execute_, execute. simpl db.
        rewrite (insert_message_run cid c r v t _ (db w) Hfit Hfind Hr Hv Hseq) by lia.
        simpl res_bind. cbv beta iota. exact Hrun. }
      simpl in Hc, Hm, Hclock, Hticks, Hnew.
      repeat split.
      * exact Hc.
      * rewrite Hm, <- app_assoc. reflexivity.
      * exact Hclock.
      * lia.
      * simpl. rewrite Hmap. reflexivity.
      * constructor; [reflexivity | exact Hcid].
      * simpl. constructor; [exact Hsorted|].
        apply Forall_map. eapply Forall_impl; [|exact Hnew].
        simpl. intros a Ha. rewrite Htop in Ha. lia.
      * constructor; [simpl; lia|].
        eapply Forall_impl; [|exact Hnew]. simpl. intros a Ha. rewrite Htop in Ha. lia.
Qed.

Lemma filter_out_then_in (cid : Z) (l : list message) :
  filter (fun m => m_conversation_id m =? cid)
         (filter (fun m => negb (m_conversation_id m =? cid)) l) = [].
Proof.
  induction l as [|m l IH]; simpl; [reflexivity|].
  destruct (m_conversation_id m =? cid) eqn:E; simpl; [exact IH|].
  rewrite E. exact IH.
Qed.

Lemma filter_all_in (cid : Z) (l : list message) :
  Forall (fun m => m_conversation_id m = cid) l ->
  filter (fun m => m_conversation_id m =? cid) l = l.
Proof.
  induction 1 as [|m l Hm _ IH]; simpl; [reflexivity|].
  rewrite Hm, Z.eqb_refl, IH. reflexivity.
Qed.

Lemma find_conversation_map (f : conversation -> conversation)
    (l : list conversation) (cid : Z) :
  (forall c, c_id (f c) = c_id c) ->
  find (fun c => c_id c =? cid) (map f l)
  = option_map f (find (fun c => c_id c =? cid) l).
Proof.
  intros Hf. induction l as [|c l IH]; simpl; [reflexivity|].
  rewrite Hf. destruct (c_id c =? cid); [reflexivity | exact IH].
Qed.

Lemma ascending_ids_sorted (l : list message) :
  StronglySorted Z.lt (map m_id l) ->
  StronglySorted (fun a b => (m_id a <=? m_id b) = true) l.
Proof.
  induction l as [|m l IH]; simpl; intros H; [constructor|].
  inversion H as [|? ? Hs Hall]; subst.
  constructor; [apply IH; exact Hs|].
  rewrite Forall_map in Hall. eapply Forall_impl; [|exact Hall].
  simpl. intros a Ha. apply Z.leb_le. lia.
Qed.

(** [replace_messages] on an existing conversation, with messages whose
    roles and contents the table accepts. *)
Lemma replace_messages_run (w : world) (cid : Z) (c : conversation)
    (items : list item) :
  fits_int64 cid = true ->
  find_conversation (db w) cid = Some c ->
  Forall item_ok items ->
  0 <= seq_messages (db w) ->
  top_message_id (db w) + Z.of_nat (List.length items) <= INT64_MAX ->
  exists w' rows,
    replace_messages cid (map item_message items) w = (Ok tt, w')
    /\ list_messages cid w' = (Ok (map message_dict rows), w')
    /\ map (fun m => (m_role m, m_content m)) rows = map item_pair items
    /\ StronglySorted Z.lt (map m_id rows)
    /\ Forall (fun m => seq_messages (db w) < m_id m) rows
    /\ (exists c', find_conversation (db w') cid = Some c'
                   /\ c_id c' = c_id c /\ c_title c' = c_title c).
Proof.
  intros Hfit Hfind Hitems Hseq Hroom.
  set (d0 := mkDatabase (conversations (db w))
                        (filter (fun m => negb (m_conversation_id m =? cid)) (messages (db w)))
                        (seq_conversations (db w)) (seq_messages (db w))).
  assert (Htop0 : top_message_id d0 <= top_message_id (db w)).
  { unfold top_message_id, d0. simpl. apply fold_max_filter. }
  destruct (insert_each_run cid c items Hfit Hitems (set_db w d0))
    as (w1 & news & Hrun & Hc & Hm & Hclock & Hticks & Hmap & Hcid & Hsorted & Hnew).
  { exact Hfind. }
  { exact Hseq. }
  { simpl db. lia. }
  set (touch := fun x : conversation =>
                  if c_id x =? cid
                  then mkConversation (c_id x) (c_title x) (c_system_prompt x)
                                      (c_created_at x) (clock w1 (ticks w1))
                  else x).
  set (d2 := mkDatabase (map touch (conversations (db w1))) (messages (db w1))
                        (seq_conversations (db w1)) (seq_messages (db w1))).
  set (w2 := mkWorld d2 (clock w1) (S (ticks w1)) (environ w1) (network w1) (sent w1)).
  assert (Hfinal : replace_messages cid (map item_message items) w = (Ok tt, w2)).
  { unfold replace_messages, with_db.
    unfold bind at 1, execute_, execute, delete_messages, adapt_id.
    rewrite Hfit. simpl res_bind. cbv beta iota. fold d0.
    unfold bind at 1. rewrite Hrun.
    unfold bind at 1, now_iso. cbv beta iota.
    unfold touch_conversation, adapt_id. rewrite Hfit. reflexivity. }
  exists w2, news. split; [exact Hfinal|].
  simpl in Hc, Hm, Hnew.
  split.
  { rewrite (list_messages_run w2 cid Hfit).
    unfold message_rows, messages_of. simpl db. simpl messages.
    rewrite Hm, filter_app, filter_out_then_in, (filter_all_in cid news Hcid).
    simpl app.
    rewrite (order_by_fixes_sorted _ news (ascending_ids_sorted news Hsorted)).
    reflexivity. }
  split; [exact Hmap|]. split; [exact Hsorted|]. split.
  { eapply Forall_impl; [|exact Hnew]. simpl. intros a Ha.
    pose proof (fold_max_seed (seq_messages d0) (map m_id (messages d0))) as Hs.
    unfold top_message_id in Ha. simpl in Hs. unfold d0 in Ha. simpl in Ha. lia. }
  { unfold find_conversation. simpl db. simpl conversations.
    rewrite find_conversation_map by (intros x; unfold touch; destruct (c_id x =? cid); reflexivity).
    rewrite Hc. unfold find_conversation in Hfind. rewrite Hfind. simpl.
    exists (touch c). split; [reflexivity|].
    unfold touch. destruct (c_id c =? cid); split; reflexivity. }
Qed.

Lemma pair_items (pairs : list (string * string)) :
  Forall (fun p => is_role (fst p) = true) pairs ->
  Forall item_ok (map pair_item pairs)
  /\ map item_message (map pair_item pairs) = map pair_message pairs
  /\ map item_pair (map pair_item pairs) = pairs.
Proof.
  intros H. split; [|split].
  - apply Forall_map. eapply Forall_impl; [|exact H].
    intros p Hp. split; [exact Hp | reflexivity].
  - rewrite map_map. reflexivity.
  - rewrite map_map. rewrite <- (map_id pairs) at 2. apply map_ext.
    intros [r t]. reflexivity.
Qed.

Lemma shown_rows (rows : list message) :
  map shown_pair (map message_dict rows)
  = map Some (map (fun m => (m_role m, m_content m)) rows)
  /\ map shown_id (map message_dict rows) = map Some (map m_id rows).
Proof.
  split; rewrite !map_map; apply map_ext; intros m; reflexivity.
Qed.

(** C4. On an existing conversation, [replace_messages] with any list
    of role/content pairs (roles among the three, room left in the
    table) succeeds, and the list [list_messages] then returns has one
    object per pair, in the order given, whose "role" and "content" are
    those of the pair and whose "id"s are strictly ascending integers,
    all larger than any identifier assigned before; the conversation is
    still there, also when the list is empty, in which case the list
    returned is empty. *)
Theorem replace_then_list (w : world) (cid : Z) (c : conversation)
    (pairs : list (string * string)) :
  fits_int64 cid = true ->
  find_conversation (db w) cid = Some c ->
  Forall (fun p => is_role (fst p) = true) pairs ->
  0 <= seq_messages (db w) ->
  top_message_id (db w) + Z.of_nat (List.length pairs) <= INT64_MAX ->
  exists w' listed ids,
    replace_messages cid (map pair_message pairs) w = (Ok tt, w')
    /\ list_messages cid w' = (Ok listed, w')
    /\ map shown_pair listed = map Some pairs
    /\ map shown_id listed = map Some ids
    /\ StronglySorted Z.lt ids
    /\ Forall (fun id => seq_messages (db w) < id) ids
    /\ (exists c', find_conversation (db w') cid = Some c'
                   /\ c_id c' = c_id c /\ c_title c' = c_title c).
Proof.
  intros Hfit Hfind Hroles Hseq Hroom.
  destruct (pair_items pairs Hroles) as (Hok & Hmsgs & Hpairs).
  destruct (replace_messages_run w cid c (map pair_item pairs) Hfit Hfind Hok Hseq)
    as (w' & rows & Hrun & Hlist & Hmap & Hsorted & Hfresh & Hstill).
  { rewrite length_map. exact Hroom. }
  rewrite Hmsgs in Hrun. rewrite Hpairs in Hmap.
  destruct (shown_rows rows) as [Hshown Hids].
  exists w', (map message_dict rows), (map m_id rows).
  split; [exact Hrun|]. split; [exact Hlist|].
  split; [rewrite Hshown, Hmap; reflexivity|].
  split; [exact Hids|]. split; [exact Hsorted|].
  split; [apply Forall_map; exact Hfresh | exact Hstill].
Qed.

Lemma replace_then_list_two :
  exists w' listed ids,
    replace_messages 1 (map pair_message [("user", "hi"); ("assistant", "hello")])
                     one_conversation_world = (Ok tt, w')
    /\ list_messages 1 w' = (Ok listed, w')
    /\ map shown_pair listed = map Some [("user", "hi"); ("assistant", "hello")]
    /\ map shown_id listed = map Some ids
    /\ StronglySorted Z.lt ids
    /\ Forall (fun id => seq_messages (db one_conversation_world) < id) ids
    /\ (exists c', find_conversation (db w') 1 = Some c'
                   /\ c_id c' = 1 /\ c_title c' = "Chat").
Proof.
  apply (replace_then_list one_conversation_world 1
           (mkConversation 1 "Chat" "" (sample_clock 0) (sample_clock 0))
           [("user", "hi"); ("assistant", "hello")]).
  - reflexivity.
  - reflexivity.
  - repeat constructor.
  - vm_compute. discriminate.
  - vm_compute. discriminate.
Defined.

Example replace_then_list_shown :
  fst (list_messages 1
         (snd (replace_messages 1
                 (map pair_message [("user", "hi"); ("assistant", "hello")])
                 one_conversation_world)))
  = Ok [JObj [("id", JInt 1); ("role", JStr "user"); ("content", JStr "hi");
              ("created_at", JStr "2024-05-01T10:00:00.000250+00:00")];
        JObj [("id", JInt 2); ("role", JStr "assistant"); ("content", JStr "hello");
              ("created_at", JStr "2024-05-01T10:00:01.500000+00:00")]].
Proof. vm_compute. reflexivity. Qed.

Example busy_world_messages :
  map (fun m => (m_id m, m_role m, m_content m)) (message_rows (db busy_world) 1)
  = [(3, "system", "be brief"); (4, "user", "a"); (5, "assistant", "b")].
Proof. reflexivity. Qed.

Example replace_with_nothing :
  let w := snd (replace_messages 1 [] busy_world) in
  fst (list_messages 1 w) = Ok []
  /\ option_map c_title (find_conversation (db w) 1) = Some "Chat"
  /\ seq_messages (db w) = 5.
Proof. repeat split; reflexivity. Qed.

(* ------------------------------------------------------------------ *)
(** ** How the storage functions move the timestamps *)

Lemma evolves_by_map (w w' : world) (f : conversation -> conversation) :
  clock w' = clock w ->
  (ticks w <= ticks w')%nat ->
  conversations (db w') = map f (conversations (db w)) ->
  (forall c, conversation_step w w' c (f c)) ->
  evolves w w'.
Proof.
  intros Hc Ht Hmap Hf. split; [exact Hc|]. split; [exact Ht|].
  exists (map f (conversations (db w))), []. rewrite app_nil_r.
  split; [exact Hmap|]. split; [|constructor].
  clear Hmap. induction (conversations (db w)) as [|c l IH]; simpl; constructor.
  - apply Hf.
  - exact IH.
Qed.

Lemma evolves_unchanged (w w' : world) :
  clock w' = clock w ->
  (ticks w <= ticks w')%nat ->
  conversations (db w') = conversations (db w) ->
  evolves w w'.
Proof.
  intros Hc Ht Hsame. apply (evolves_by_map w w' (fun c => c)); auto.
  - rewrite map_id. exact Hsame.
  - intros c. repeat split; auto.
Qed.

Lemma insert_message_conversations (cid : Z) (role content : json) (created : string)
    (d d' : database) :
  insert_message cid role content created d = Ok d' ->
  conversations d' = conversations d.
Proof.
  unfold insert_message. intros H.
  destruct (adapt_id cid); [|discriminate H]. simpl in H.
  destruct (adapt role) as [vr|]; [|discriminate H]. simpl in H.
  destruct (adapt content) as [vc|]; [|discriminate H]. simpl in H.
  destruct (new_rowid _ _) as [id|]; [|discriminate H]. simpl in H.
  destruct (text_not_null vr) as [r|]; [|discriminate H]. simpl in H.
  destruct (text_not_null vc) as [c|]; [|discriminate H]. simpl in H.
  destruct (negb (is_role r)); [discriminate H|].
  destruct (find_conversation d a); [|discriminate H].
  injection H as <-. reflexivity.
Qed.

Lemma bind_inv {A B} (m : M A) (k : A -> M B) (w w' : world) (r : res B) :
  bind m k w = (r, w') ->
  (exists a w1, m w = (Ok a, w1) /\ k a w1 = (r, w'))
  \/ (exists e, m w = (Raise e, w') /\ r = Raise e).
Proof.
  unfold bind. destruct (m w) as [[a|e] w1]; intros H.
  - left. exists a, w1. auto.
  - right. exists e. inversion H. auto.
Qed.

Lemma lift_inv {A} (x : res A) (w w' : world) (r : res A) :
  lift x w = (r, w') -> r = x /\ w' = w.
Proof. unfold lift. intros H. inversion H. auto. Qed.

Lemma now_iso_inv (w w' : world) (r : res string) :
  now_iso w = (r, w') ->
  r = Ok (clock w (ticks w))
  /\ db w' = db w /\ clock w' = clock w /\ ticks w' = S (ticks w).
Proof. unfold now_iso. intros H. inversion H. auto. Qed.

Lemma execute__inv (stmt : database -> res database) (w w' : world) (r : res unit) :
  execute_ stmt w = (r, w') ->
  clock w' = clock w /\ ticks w' = ticks w
  /\ ((exists d, stmt (db w) = Ok d /\ r = Ok tt /\ db w' = d)
      \/ (exists e, stmt (db w) = Raise e /\ r = Raise e /\ db w' = db w)).
Proof.
  unfold execute_, execute. destruct (stmt (db w)) as [d|e]; simpl; intros H; inversion H.
  - repeat split. left. exists d. auto.
  - repeat split. right. exists e. auto.
Qed.

(** Every statement but the final UPDATE leaves the [conversations]
    table alone, whatever the messages are and wherever the loop stops. *)
Lemma insert_each_conversations (cid : Z) (msgs : list json) :
  forall (w w' : world) (r : res unit),
    insert_each cid msgs w = (r, w') ->
    conversations (db w') = conversations (db w)
    /\ clock w' = clock w /\ (ticks w <= ticks w')%nat.
Proof.
  induction msgs as [|m msgs IH]; intros w w' r H; simpl in H.
  - inversion H. auto.
  - apply bind_inv in H. destruct H as [(role & w1 & H1 & H) | (e & H1 & _)];
      [|apply lift_inv in H1; destruct H1 as [_ ->]; auto].
    apply lift_inv in H1. destruct H1 as [_ ->].
    apply bind_inv in H. destruct H as [(content & w1 & H1 & H) | (e & H1 & _)];
      [|apply lift_inv in H1; destruct H1 as [_ ->]; auto].
    apply lift_inv in H1. destruct H1 as [_ ->].
    apply bind_inv in H. destruct H as [(created & w1 & H1 & H) | (e & H1 & _)];
      apply now_iso_inv in H1; destruct H1 as (Hr & Hd1 & Hc1 & Ht1);
      [|discriminate Hr].
    apply bind_inv in H. destruct H as [(u & w2 & H2 & H) | (e & H2 & _)];
      apply execute__inv in H2; destruct H2 as (Hc2 & Ht2 & Hs).
    + destruct Hs as [(d & Hs & _ & Hd2) | (e & _ & Hr2 & _)]; [|discriminate Hr2].
      apply insert_message_conversations in Hs.
      apply IH in H. destruct H as (Hc & Hk & Ht).
      rewrite Hc, Hk, Hd2, Hs, Hd1, Hc2, Hc1. repeat split. lia.
    + destruct Hs as [(d & _ & Hr2 & _) | (e' & _ & _ & Hd2)]; [discriminate Hr2|].
      rewrite Hd2, Hd1, Hc2, Hc1. repeat split. lia.
Qed.

Lemma with_db_inv {A} (block : M A) (w w' : world) (r : res A) :
  with_db block w = (r, w') ->
  exists w1, block w = (r, w1)
             /\ clock w' = clock w1 /\ ticks w' = ticks w1
             /\ ((exists a, r = Ok a /\ w' = w1) \/ (exists e, r = Raise e /\ db w' = db w)).
Proof.
  unfold with_db. destruct (block w) as [[a|e] w1]; intros H;
    injection H as Hr Hw; exists w1; rewrite <- Hr, <- Hw.
  - repeat split. left. exists a. auto.
  - repeat split. right. exists e. auto.
Qed.

Lemma touch_conversation_inv (updated : string) (cid : Z) (d d' : database) :
  touch_conversation updated cid d = Ok d' ->
  exists f, conversations d' = map f (conversations d)
            /\ forall c, refreshed updated c (f c).
Proof.
  unfold touch_conversation. destruct (adapt_id cid) as [n|]; simpl; intros H;
    [|discriminate H].
  injection H as <-. eexists. split; [reflexivity|].
  intros c. simpl. destruct (c_id c =? n); [right | left]; auto.
Qed.

Lemma update_row_inv (title prompt : option json) (updated : string) (cid : Z)
    (d d' : database) :
  update_row title prompt updated cid d = Ok d' ->
  exists f, conversations d' = map f (conversations d)
            /\ forall c, refreshed updated c (f c).
Proof.
  unfold update_row. intros H.
  destruct (match title with Some v => _ | None => _ end) as [vt|]; [|discriminate H].
  simpl in H.
  destruct (match prompt with Some v => _ | None => _ end) as [vp|]; [|discriminate H].
  simpl in H.
  destruct (adapt_id cid) as [n|]; [|discriminate H]. simpl in H.
  destruct (find_conversation d n) as [found|].
  - destruct (match vt with Some x => _ | None => _ end) as [nt|]; [|discriminate H].
    simpl in H.
    destruct (match vp with Some x => _ | None => _ end) as [np|]; [|discriminate H].
    simpl in H. injection H as <-. eexists. split; [reflexivity|].
    intros c. simpl. destruct (c_id c =? n); [right | left]; auto.
  - injection H as <-. exists (fun c => c). rewrite map_id. split; [reflexivity|].
    intros c. left. reflexivity.
Qed.

Lemma insert_conversation_inv (title prompt : json) (created updated : string)
    (d d' : database) (id : Z) :
  insert_conversation title prompt created updated d = Ok (id, d') ->
  id = next_rowid (seq_conversations d) (map c_id (conversations d))
  /\ exists t p,
      conversations d'
      = (conversations d ++ [mkConversation id t p created updated])%list.
Proof.
  unfold insert_conversation. intros H.
  destruct (adapt title) as [vt|]; [|discriminate H]. simpl in H.
  destruct (adapt prompt) as [vp|]; [|discriminate H]. simpl in H.
  unfold new_rowid in H. destruct (fits_int64 _); [|discriminate H]. simpl in H.
  destruct (text_not_null vt) as [t|]; [|discriminate H]. simpl in H.
  destruct (text_not_null vp) as [p|]; [|discriminate H]. simpl in H.
  injection H as <- <-. split; [reflexivity|]. exists t, p. reflexivity.
Qed.

Lemma evolves_refreshed (w w' : world) (f : conversation -> conversation) (t : nat) :
  clock w' = clock w ->
  (ticks w <= t < ticks w')%nat ->
  conversations (db w') = map f (conversations (db w)) ->
  (forall c, refreshed (clock w t) c (f c)) ->
  evolves w w'.
Proof.
  intros Hc Ht Hmap Hf. apply (evolves_by_map w w' f); auto; [lia|].
  intros c. destruct (Hf c) as [E | (Hid & Hcr & Hup)].
  - rewrite E. repeat split; auto.
  - repeat split; auto. right. exists t. auto.
Qed.

Lemma create_conversation_evolves (title prompt : json) (w : world) :
  evolves w (snd (create_conversation title prompt w)).
Proof.
  destruct (create_conversation title prompt w) as [r w'] eqn:H. simpl.
  unfold create_conversation in H.
  apply bind_inv in H. destruct H as [(ts & w1 & H1 & H) | (e & H1 & _)];
    apply now_iso_inv in H1; destruct H1 as (Hr & Hd1 & Hc1 & Ht1); [|discriminate Hr].
  injection Hr as ->.
  apply with_db_inv in H. destruct H as (w2 & H & Hc2 & Ht2 & Hout).
  unfold execute in H.
  destruct (insert_conversation title prompt _ _ (db w1)) as [[id d]|e] eqn:Hi;
    inversion H; subst r w2; clear H.
  - destruct Hout as [(a & _ & ->) | (e & He & _)]; [|discriminate He].
    apply insert_conversation_inv in Hi. destruct Hi as (_ & t & p & Hconv).
    simpl in Hc2, Ht2 |- *.
    split; [simpl; exact Hc1|]. split; [simpl; lia|].
    exists (conversations (db w)), [mkConversation id t p (clock w (ticks w)) (clock w (ticks w))].
    simpl. rewrite Hconv, Hd1. split; [reflexivity|]. split.
    + clear. induction (conversations (db w)); constructor; auto.
      repeat split; auto.
    + constructor; [|constructor]. split; [reflexivity|].
      exists (ticks w). simpl. split; [lia | reflexivity].
  - destruct Hout as [(a & Ha & _) | (e' & _ & Hd)]; [discriminate Ha|].
    apply evolves_unchanged; [congruence | lia | congruence].
Qed.

Lemma update_conversation_evolves (id : Z) (title prompt : json) (w : world) :
  evolves w (snd (update_conversation id title prompt w)).
Proof.
  destruct (update_conversation id title prompt w) as [r w'] eqn:H. simpl.
  unfold update_conversation in H.
  apply bind_inv in H. destruct H as [(ts & w1 & H1 & H) | (e & H1 & _)];
    apply now_iso_inv in H1; destruct H1 as (Hr & Hd1 & Hc1 & Ht1); [|discriminate Hr].
  injection Hr as ->.
  apply with_db_inv in H. destruct H as (w2 & H & Hc2 & Ht2 & Hout).
  apply execute__inv in H. destruct H as (Hc3 & Ht3 & Hs).
  destruct Hout as [(a & _ & ->) | (e & _ & Hd)].
  - destruct Hs as [(d & Hs & _ & Hd2) | (e & _ & _ & Hd2)].
    + apply update_row_inv in Hs. destruct Hs as (f & Hmap & Hf).
      apply (evolves_refreshed w w2 f (ticks w)); [congruence | lia | | exact Hf].
      rewrite Hd2, Hmap, Hd1. reflexivity.
    + apply evolves_unchanged; [congruence | lia | congruence].
  - apply evolves_unchanged; [congruence | lia | congruence].
Qed.

Lemma append_message_evolves (id : Z) (role content : json) (w : world) :
  evolves w (snd (append_message id role content w)).
Proof.
  destruct (append_message id role content w) as [r w'] eqn:H. simpl.
  unfold append_message in H.
  apply with_db_inv in H. destruct H as (w4 & H & Hc & Ht & Hout).
  assert (Hblock : clock w4 = clock w /\ (ticks w <= ticks w4)%nat
                   /\ (forall a, r = Ok a ->
                        exists f t, (ticks w <= t < ticks w4)%nat
                                    /\ conversations (db w4) = map f (conversations (db w))
                                    /\ forall c, refreshed (clock w t) c (f c))).
  { apply bind_inv in H. destruct H as [(ts & w1 & H1 & H) | (e & H1 & _)];
      apply now_iso_inv in H1; destruct H1 as (Hr & Hd1 & Hc1 & Ht1); [|discriminate Hr].
    apply bind_inv in H. destruct H as [(u & w2 & H2 & H) | (e & H2 & ->)];
      apply execute__inv in H2; destruct H2 as (Hc2 & Ht2 & Hs).
    2:{ split; [congruence|]. split; [lia|]. intros a Ha. discriminate Ha. }
    destruct Hs as [(d & Hs & _ & Hd2) | (e & _ & Hr2 & _)]; [|discriminate Hr2].
    apply insert_message_conversations in Hs.
    apply bind_inv in H. destruct H as [(ts' & w3 & H3 & H) | (e & H3 & _)];
      apply now_iso_inv in H3; destruct H3 as (Hr3 & Hd3 & Hc3 & Ht3); [|discriminate Hr3].
    injection Hr3 as ->.
    apply execute__inv in H. destruct H as (Hc4 & Ht4 & Hs4).
    split; [congruence|]. split; [lia|]. intros a Ha.
    destruct Hs4 as [(d4 & Hs4 & _ & Hd4) | (e & _ & Hr4 & _)]; [|congruence].
    apply touch_conversation_inv in Hs4. destruct Hs4 as (f & Hmap & Hf).
    exists f, (ticks w2). split; [lia|]. split.
    - rewrite Hd4, Hmap, Hd3, Hd2, Hs, Hd1. reflexivity.
    - intros c. replace (clock w (ticks w2)) with (clock w2 (ticks w2)) by congruence.
      apply Hf. }
  destruct Hblock as (Hcb & Htb & Hok).
  destruct Hout as [(a & Ha & ->) | (e & _ & Hd)].
  - destruct (Hok a Ha) as (f & t & Ht' & Hmap & Hf).
    apply (evolves_refreshed w w4 f t); auto.
  - apply evolves_unchanged; [congruence | lia | congruence].
Qed.

Lemma replace_messages_evolves (id : Z) (msgs : list json) (w : world) :
  evolves w (snd (replace_messages id msgs w)).
Proof.
  destruct (replace_messages id msgs w) as [r w'] eqn:H. simpl.
  unfold replace_messages in H.
  apply with_db_inv in H. destruct H as (w4 & H & Hc & Ht & Hout).
  assert (Hblock : clock w4 = clock w /\ (ticks w <= ticks w4)%nat
                   /\ (forall a, r = Ok a ->
                        exists f t, (ticks w <= t < ticks w4)%nat
                                    /\ conversations (db w4) = map f (conversations (db w))
                                    /\ forall c, refreshed (clock w t) c (f c))).
  { apply bind_inv in H. destruct H as [(u & w1 & H1 & H) | (e & H1 & ->)];
      apply execute__inv in H1; destruct H1 as (Hc1 & Ht1 & Hs1).
    2:{ split; [congruence|]. split; [lia|]. intros a Ha. discriminate Ha. }
    destruct Hs1 as [(d1 & Hs1 & _ & Hd1) | (e & _ & Hr1 & _)]; [|discriminate Hr1].
    assert (Hconv1 : conversations (db w1) = conversations (db w)).
    { unfold delete_messages in Hs1. destruct (adapt_id id); [|discriminate Hs1].
      simpl in Hs1. injection Hs1 as <-. rewrite Hd1. reflexivity. }
    apply bind_inv in H. destruct H as [(u2 & w2 & H2 & H) | (e & H2 & ->)];
      apply insert_each_conversations in H2; destruct H2 as (Hconv2 & Hc2 & Ht2).
    2:{ split; [congruence|]. split; [lia|]. intros a Ha. discriminate Ha. }
    apply bind_inv in H. destruct H as [(ts' & w3 & H3 & H) | (e & H3 & _)];
      apply now_iso_inv in H3; destruct H3 as (Hr3 & Hd3 & Hc3 & Ht3); [|discriminate Hr3].
    injection Hr3 as ->.
    apply execute__inv in H. destruct H as (Hc4 & Ht4 & Hs4).
    split; [congruence|]. split; [lia|]. intros a Ha.
    destruct Hs4 as [(d4 & Hs4 & _ & Hd4) | (e & _ & Hr4 & _)]; [|congruence].
    apply touch_conversation_inv in Hs4. destruct Hs4 as (f & Hmap & Hf).
    exists f, (ticks w2). split; [lia|]. split.
    - rewrite Hd4, Hmap, Hd3, Hconv2, Hconv1. reflexivity.
    - intros c. replace (clock w (ticks w2)) with (clock w2 (ticks w2)) by congruence.
      apply Hf. }
  destruct Hblock as (Hcb & Htb & Hok).
  destruct Hout as [(a & Ha & ->) | (e & _ & Hd)].
  - destruct (Hok a Ha) as (f & t & Ht' & Hmap & Hf).
    apply (evolves_refreshed w w4 f t); auto.
  - apply evolves_unchanged; [congruence | lia | congruence].
Qed.

Lemma run_evolves (c : call) (w : world) : evolves w (run c w).
Proof.
  destruct c; simpl.
  - apply create_conversation_evolves.
  - apply update_conversation_evolves.
  - apply append_message_evolves.
  - apply replace_messages_evolves.
Qed.

Lemma evolves_keeps_order (w w' : world) :
  clock_monotone w -> evolves w w' -> stamps_in_order w -> stamps_in_order w'.
Proof.
  intros Hmono (Hclock & Hticks & kept & born & Hconv & Hkept & Hborn) Hinv.
  unfold stamps_in_order in *. rewrite Hconv, Hclock. apply Forall_app. split.
  - clear Hconv. induction Hkept as [|c c' l l' Hstep Hrest IH]; [constructor|].
    inversion Hinv as [|? ? [Hcu Hun] Hinv']; subst.
    constructor; [|apply IH; exact Hinv'].
    destruct Hstep as (_ & Hcr & [Hup | (t & Ht & Hup)]); rewrite Hcr, Hup.
    + split; [exact Hcu|].
      eapply stamp_le_trans; [exact Hun|]. apply Hmono. exact Hticks.
    + assert (Hut : stamp_le (c_updated_at c) (clock w t)).
      { eapply stamp_le_trans; [exact Hun|]. apply Hmono. lia. }
      split; [eapply stamp_le_trans; eassumption|]. apply Hmono. lia.
  - eapply Forall_impl; [|exact Hborn].
    intros c (Hsame & t & Ht & Hcr). rewrite Hsame, Hcr.
    split; [apply stamp_le_refl|]. apply Hmono. lia.
Qed.

Lemma reachable_in_order (w : world) :
  clock_monotone w -> reachable w -> stamps_in_order w.
Proof.
  intros Hmono Hreach. induction Hreach as [w Hempty | w c Hreach IH].
  - unfold stamps_in_order. rewrite Hempty. constructor.
  - pose proof (run_evolves c w) as Hev.
    assert (Hmono' : clock_monotone w).
    { destruct Hev as (Hclock & _). unfold clock_monotone in *.
      rewrite <- Hclock. exact Hmono. }
    exact (evolves_keeps_order w (run c w) Hmono' Hev (IH Hmono')).
Qed.

Lemma find_app_first {A} (p : A -> bool) (l l' : list A) (x : A) :
  find p l = Some x -> find p (l ++ l') = Some x.
Proof.
  induction l as [|y l IH]; simpl; [discriminate|].
  destruct (p y); auto.
Qed.

Lemma find_app_second {A} (p : A -> bool) (l l' : list A) :
  find p l = None -> find p (l ++ l') = find p l'.
Proof.
  induction l as [|y l IH]; simpl; [reflexivity|].
  destruct (p y); [discriminate | auto].
Qed.

Lemma find_above (b : Z) (l : list conversation) :
  Forall (fun c => c_id c < b) l -> find (fun c => c_id c =? b) l = None.
Proof.
  induction 1 as [|c l Hc _ IH]; [reflexivity|].
  cbn [find]. destruct (Z.eqb_spec (c_id c) b); [lia | exact IH].
Qed.

Lemma find_fresh_rowid (seq : Z) (l : list conversation) :
  find (fun c => c_id c =? next_rowid seq (map c_id l)) l = None.
Proof.
  apply find_above.
  pose proof (fold_max_elements seq (map c_id l)) as H.
  rewrite Forall_map in H. eapply Forall_impl; [|exact H].
  unfold next_rowid. simpl. intros; lia.
Qed.

Lemma find_step (w w' : world) (cid : Z) (l kept : list conversation)
    (conv : conversation) :
  Forall2 (conversation_step w w') l kept ->
  find (fun c => c_id c =? cid) l = Some conv ->
  exists conv', find (fun c => c_id c =? cid) kept = Some conv'
                /\ conversation_step w w' conv conv'.
Proof.
  induction 1 as [|c c' l l' Hstep _ IH]; simpl; [discriminate|].
  pose proof Hstep as (Hid & _). rewrite Hid.
  destruct (c_id c =? cid).
  - intros H. injection H as <-. exists c'. auto.
  - exact IH.
Qed.

(** The claim as it is written fails when the clock goes back: the
    timestamps are readings of the wall clock, and an update stamped
    with an earlier reading lowers [updated_at] below what it was and
    below [created_at]. *)
Lemma updated_at_can_decrease :
  option_map (fun c => (c_created_at c, c_updated_at c))
    (find_conversation
       (db (run (UpdateConversation 1 JNull JNull)
                (run (CreateConversation (JStr "Chat") (JStr "")) rewound_world))) 1)
  = Some ("2024-05-01T10:00:01+00:00", "2024-05-01T10:00:00+00:00")
  /\ option_map c_updated_at
       (find_conversation
          (db (run (CreateConversation (JStr "Chat") (JStr "")) rewound_world)) 1)
     = Some "2024-05-01T10:00:01+00:00"
  /\ stamp_leb "2024-05-01T10:00:01+00:00" "2024-05-01T10:00:00+00:00" = false.
Proof. repeat split; reflexivity. Qed.

(** C5 (amended). [updated_at] equals [created_at] right after
    [create_conversation], in every world.  When the clock does not go
    back and the storage calls run one after the other, then in any
    world reached from an empty store, whichever storage call comes
    next, every conversation keeps its [created_at] and gets an
    [updated_at] that is no earlier than the one it had and no earlier
    than its [created_at]. *)
Theorem updated_at_never_decreases (w : world) :
  clock_monotone w ->
  reachable w ->
  (forall title prompt id w',
      create_conversation title prompt w = (Ok id, w') ->
      exists conv, find_conversation (db w') id = Some conv
                   /\ c_id conv = id
                   /\ c_updated_at conv = c_created_at conv)
  /\ (forall (c : call) cid conv,
         find_conversation (db w) cid = Some conv ->
         exists conv', find_conversation (db (run c w)) cid = Some conv'
                       /\ c_created_at conv' = c_created_at conv
                       /\ stamp_le (c_updated_at conv) (c_updated_at conv')
                       /\ stamp_le (c_created_at conv') (c_updated_at conv')).
Proof.
  intros Hmono Hreach. split.
  - intros title prompt id w' H. unfold create_conversation in H.
    apply bind_inv in H. destruct H as [(ts & w1 & H1 & H) | (e & _ & He)];
      [|discriminate He].
    apply now_iso_inv in H1. destruct H1 as (_ & Hd1 & _ & _).
    apply with_db_inv in H. destruct H as (w2 & H & _ & _ & Hout).
    destruct Hout as [(a & _ & ->) | (e & He & _)]; [|discriminate He].
    unfold execute in H.
    destruct (insert_conversation title prompt ts ts (db w1)) as [[id' d]|e] eqn:Hi;
      [|discriminate H].
    injection H as <- <-.
    apply insert_conversation_inv in Hi. destruct Hi as (Hid & t & p & Hconv).
    exists (mkConversation id' t p ts ts).
    unfold find_conversation. simpl db. rewrite Hconv.
    rewrite find_app_second by (rewrite Hid; apply find_fresh_rowid).
    simpl. rewrite Z.eqb_refl. auto.
  - intros c cid conv Hfind.
    pose proof (reachable_in_order w Hmono Hreach) as Hinv.
    destruct (run_evolves c w) as (Hclock & Hticks & kept & born & Hconv & Hkept & _).
    destruct (find_step w (run c w) cid _ kept conv Hkept Hfind)
      as (conv' & Hfind' & _ & Hcr & Hup).
    exists conv'. unfold find_conversation. rewrite Hconv.
    split; [apply find_app_first; exact Hfind'|]. split; [exact Hcr|].
    unfold stamps_in_order in Hinv. rewrite Forall_forall in Hinv.
    destruct (Hinv conv) as [Hcu Hun].
    { unfold find_conversation in Hfind. apply find_some in Hfind. apply Hfind. }
    rewrite Hcr. destruct Hup as [Hup | (t & Ht & Hup)]; rewrite Hup.
    + split; [apply stamp_le_refl | exact Hcu].
    + assert (Hut : stamp_le (c_updated_at conv) (clock w t)).
      { eapply stamp_le_trans; [exact Hun|]. apply Hmono. lia. }
      split; [exact Hut|]. eapply stamp_le_trans; eassumption.
Qed.

Lemma sample_clock_monotone (i j : nat) :
  (i <= j)%nat -> stamp_le (sample_clock i) (sample_clock j).
Proof.
  intros H.
  do 13 (destruct i as [|i];
         [do 13 (destruct j as [|j]; [reflexivity || lia|]); reflexivity|]).
  do 13 (destruct j as [|j]; [lia|]). reflexivity.
Qed.

Lemma one_conversation_reachable : reachable one_conversation_world.
Proof.
  change one_conversation_world
    with (run (CreateConversation (JStr "Chat") (JStr "")) offline_world).
  apply reachable_call. apply reachable_start. reflexivity.
Qed.

Lemma updated_at_after_append :
  (forall title prompt id w',
      create_conversation title prompt one_conversation_world = (Ok id, w') ->
      exists conv, find_conversation (db w') id = Some conv
                   /\ c_id conv = id
                   /\ c_updated_at conv = c_created_at conv)
  /\ (forall (c : call) cid conv,
         find_conversation (db one_conversation_world) cid = Some conv ->
         exists conv', find_conversation (db (run c one_conversation_world)) cid = Some conv'
                       /\ c_created_at conv' = c_created_at conv
                       /\ stamp_le (c_updated_at conv) (c_updated_at conv')
                       /\ stamp_le (c_created_at conv') (c_updated_at conv')).
Proof.
  apply (updated_at_never_decreases one_conversation_world).
  - exact sample_clock_monotone.
  - exact one_conversation_reachable.
Defined.

Example stamps_after_append :
  option_map (fun c => (c_created_at c, c_updated_at c))
    (find_conversation
       (db (run (AppendMessage 1 (JStr "user") (JStr "hi")) one_conversation_world)) 1)
  = Some ("2024-05-01T10:00:00+00:00", "2024-05-01T10:00:01.500000+00:00").
Proof. reflexivity. Qed.

(* ------------------------------------------------------------------ *)
(** ** [update_conversation] *)

Lemma find_conversation_id (d : database) (cid : Z) (conv : conversation) :
  find_conversation d cid = Some conv -> c_id conv = cid.
Proof.
  unfold find_conversation. intros H. apply find_some in H.
  destruct H as [_ H]. apply Z.eqb_eq. exact H.
Qed.

Lemma update_row_run (cid : Z) (conv : conversation) (new_title new_prompt : option string)
    (now : string) (d : database) :
  fits_int64 cid = true ->
  find_conversation d cid = Some conv ->
  update_row (option_map JStr new_title) (option_map JStr new_prompt) now cid d
  = Ok (mkDatabase
          (map (fun c => if c_id c =? cid
                         then updated_row c new_title new_prompt now
                         else c) (conversations d))
          (messages d) (seq_conversations d) (seq_messages d)).
Proof.
  intros Hfit Hfind. unfold update_row, adapt_id. rewrite Hfit.
  destruct new_title as [t|], new_prompt as [p|]; simpl; rewrite Hfind; reflexivity.
Qed.

(** C6. On an existing conversation, [update_conversation] succeeds;
    a title or system prompt that is None leaves the stored one as it
    is, one that is a string (the empty string included) replaces it;
    the identifier, [created_at], the messages and every other
    conversation stay as they are; and [updated_at] becomes the current
    reading of the clock even when both arguments are None.  [do_PUT]
    hands over None for a key the body does not have and answers 200
    with the row so updated. *)
Theorem update_conversation_frame (w : world) (cid : Z) (conv : conversation)
    (new_title new_prompt : option string) :
  fits_int64 cid = true ->
  find_conversation (db w) cid = Some conv ->
  exists w',
    update_conversation cid (optional_str new_title) (optional_str new_prompt) w
    = (Ok tt, w')
    /\ find_conversation (db w') cid
       = Some (updated_row conv new_title new_prompt (clock w (ticks w)))
    /\ messages (db w') = messages (db w)
    /\ map c_id (conversations (db w')) = map c_id (conversations (db w))
    /\ (forall other, other <> cid ->
          find_conversation (db w') other = find_conversation (db w) other)
    /\ (forall path d,
          startswith path API_SLASH && negb (endswith path MESSAGES) = true ->
          conversation_id_of path = Some cid ->
          dict_get "title" d = option_map JStr new_title ->
          dict_get "systemPrompt" d = option_map JStr new_prompt ->
          do_PUT path (JObj d) w
          = (Ok (JsonResponse 200
                   (JObj [("conversation",
                           JObj (conversation_dict
                                   (updated_row conv new_title new_prompt
                                                (clock w (ticks w)))))])), w')).
Proof.
  intros Hfit Hfind.
  set (now := clock w (ticks w)).
  set (f := fun c => if c_id c =? cid then updated_row c new_title new_prompt now else c).
  assert (Hf : forall c, c_id (f c) = c_id c).
  { intros c. unfold f. destruct (c_id c =? cid); reflexivity. }
  pose proof (update_row_run cid conv new_title new_prompt now (db w) Hfit Hfind) as Hrow.
  set (w' := mkWorld (mkDatabase (map f (conversations (db w))) (messages (db w))
                                 (seq_conversations (db w)) (seq_messages (db w)))
                     (clock w) (S (ticks w)) (environ w) (network w) (sent w)).
  assert (Hrun : update_conversation cid (optional_str new_title)
                                     (optional_str new_prompt) w = (Ok tt, w')).
  { unfold update_conversation, bind, now_iso, with_db, execute_, execute.
    fold now. simpl db.
    destruct new_title, new_prompt; simpl optional_str; cbv iota zeta;
      simpl option_map in Hrow; rewrite Hrow; reflexivity. }
  assert (Hfind' : find_conversation (db w') cid
                   = Some (updated_row conv new_title new_prompt now)).
  { unfold find_conversation. simpl. rewrite (find_conversation_map f _ cid Hf).
    unfold find_conversation in Hfind. rewrite Hfind. simpl. unfold f.
    rewrite (find_conversation_id (db w) cid conv Hfind), Z.eqb_refl. reflexivity. }
  exists w'. split; [exact Hrun|]. split; [exact Hfind'|].
  split; [reflexivity|]. split; [|split].
  - simpl. rewrite map_map. apply map_ext. exact Hf.
  - intros other Hother. unfold find_conversation. simpl.
    rewrite (find_conversation_map f _ other Hf).
    destruct (find (fun c => c_id c =? other) (conversations (db w))) as [c|] eqn:Hc;
      [|reflexivity].
    simpl. unfold f. apply find_some in Hc. destruct Hc as [_ Hc].
    apply Z.eqb_eq in Hc. destruct (Z.eqb_spec (c_id c) cid); [congruence | reflexivity].
  - intros path d Hpath Hid Ht Hp.
    unfold do_PUT. rewrite Hpath.
    rewrite (with_conversation_found path _ w cid conv Hid Hfit Hfind).
    unfold bind, lift. cbn [py_get]. rewrite Ht, Hp.
    replace (match option_map JStr new_title with Some x => x | None => JNull end)
      with (optional_str new_title) by (destruct new_title; reflexivity).
    replace (match option_map JStr new_prompt with Some x => x | None => JNull end)
      with (optional_str new_prompt) by (destruct new_prompt; reflexivity).
    rewrite Hrun.
    rewrite (get_conversation_found w' cid _ Hfit Hfind'). reflexivity.
Qed.

Lemma update_conversation_frame_nothing :
  exists w',
    update_conversation 1 (optional_str None) (optional_str None) one_conversation_world
    = (Ok tt, w')
    /\ find_conversation (db w') 1
       = Some (updated_row (mkConversation 1 "Chat" "" (sample_clock 0) (sample_clock 0))
                           None None
                           (clock one_conversation_world (ticks one_conversation_world)))
    /\ messages (db w') = messages (db one_conversation_world)
    /\ map c_id (conversations (db w')) = map c_id (conversations (db one_conversation_world))
    /\ (forall other, other <> 1 ->
          find_conversation (db w') other
          = find_conversation (db one_conversation_world) other)
    /\ (forall path d,
          startswith path API_SLASH && negb (endswith path MESSAGES) = true ->
          conversation_id_of path = Some 1 ->
          dict_get "title" d = option_map JStr None ->
          dict_get "systemPrompt" d = option_map JStr None ->
          do_PUT path (JObj d) one_conversation_world
          = (Ok (JsonResponse 200
                   (JObj [("conversation",
                           JObj (conversation_dict
                                   (updated_row
                                      (mkConversation 1 "Chat" "" (sample_clock 0)
                                                      (sample_clock 0))
                                      None None
                                      (clock one_conversation_world
                                             (ticks one_conversation_world)))))])), w')).
Proof.
  apply (update_conversation_frame one_conversation_world 1
           (mkConversation 1 "Chat" "" (sample_clock 0) (sample_clock 0)) None None).
  - reflexivity.
  - reflexivity.
Defined.

Example put_empty_body_refreshes_only :
  fst (do_PUT "/api/conversations/1" (JObj []) one_conversation_world)
  = Ok (JsonResponse 200
          (JObj [("conversation",
                  JObj [("id", JInt 1); ("title", JStr "Chat"); ("system_prompt", JStr "");
                        ("created_at", JStr "2024-05-01T10:00:00+00:00");
                        ("updated_at", JStr "2024-05-01T10:00:00.000250+00:00")])])).
Proof. reflexivity. Qed.

Example put_empty_title_is_stored :
  option_map c_title
    (find_conversation
       (db (snd (do_PUT "/api/conversations/1" (JObj [("title", JStr "")])
                        one_conversation_world))) 1)
  = Some "".
Proof. reflexivity. Qed.

(* ------------------------------------------------------------------ *)
(** ** [list_conversations] *)

Lemma count_ids_some (ms : list message) :
  count_ids (map Some ms) = Z.of_nat (List.length ms).
Proof.
  induction ms as [|m ms IH]; [reflexivity|].
  cbn [map count_ids List.length]. rewrite IH. lia.
Qed.

Lemma count_left_join (d : database) (c : conversation) :
  count_ids (left_join d c) = Z.of_nat (List.length (messages_of d (c_id c))).
Proof.
  unfold left_join. destruct (messages_of d (c_id c)) as [|m ms] eqn:E.
  - reflexivity.
  - rewrite <- E. apply count_ids_some.
Qed.

(** C7. [list_conversations] returns one row per conversation of the
    store, in descending order of [updated_at], each with a
    [message_count] equal to the number of messages whose
    [conversation_id] is that conversation, which is 0 when it has none. *)
Theorem list_conversations_rows (w : world) :
  exists rows,
    list_conversations w = (Ok (map row_dict rows), w)
    /\ Permutation (map fst rows) (conversations (db w))
    /\ StronglySorted
         (fun a b => stamp_le (c_updated_at (fst b)) (c_updated_at (fst a))) rows
    /\ Forall (fun row =>
                 snd row
                 = Z.of_nat (List.length
                               (filter (fun m => m_conversation_id m =? c_id (fst row))
                                       (messages (db w))))) rows.
Proof.
  exists (conversation_rows (db w)).
  split; [unfold list_conversations; rewrite with_db_query; reflexivity|].
  unfold conversation_rows.
  set (leb := fun a b : conversation * Z =>
                stamp_leb (c_updated_at (fst b)) (c_updated_at (fst a))).
  set (l := map (fun c => (c, count_ids (left_join (db w) c))) (conversations (db w))).
  pose proof (order_by_perm leb l) as Hperm.
  split; [|split].
  - apply Permutation_sym.
    eapply perm_trans; [|apply Permutation_map; exact Hperm].
    unfold l. rewrite map_map. simpl. rewrite map_id. apply Permutation_refl.
  - apply (order_by_sorted leb).
    + intros a b. apply stamp_le_total.
    + intros a b c Hab Hbc. unfold leb in *.
      exact (stamp_le_trans _ _ _ Hbc Hab).
  - eapply Permutation_Forall; [exact Hperm|].
    unfold l. apply Forall_map. apply Forall_forall. intros c _. simpl.
    apply count_left_join.
Qed.

Example busy_world_listing :
  fst (do_GET "/api/conversations"
         (snd (do_POST "/api/conversations" (JObj [("title", JStr "Later")]) busy_world)))
  = Ok (JsonResponse 200
          (JObj [("conversations",
                  JArr [JObj [("id", JInt 2); ("title", JStr "Later");
                              ("system_prompt", JStr "");
                              ("created_at", JStr "2024-05-01T10:10:00+00:00");
                              ("updated_at", JStr "2024-05-01T10:10:00+00:00");
                              ("message_count", JInt 0)];
                        JObj [("id", JInt 1); ("title", JStr "Chat");
                              ("system_prompt", JStr "");
                              ("created_at", JStr "2024-05-01T10:00:00+00:00");
                              ("updated_at", JStr "2024-05-01T10:04:10.250002+00:00");
                              ("message_count", JInt 3)]])])).
Proof. reflexivity. Qed.

(* ------------------------------------------------------------------ *)
(** ** [POST /api/conversations] *)

Lemma create_conversation_run (w : world) (title prompt : string) :
  fits_int64 (next_conversation_id (db w)) = true ->
  let id := next_conversation_id (db w) in
  let now := clock w (ticks w) in
  create_conversation (JStr title) (JStr prompt) w
  = (Ok id,
     mkWorld (mkDatabase (conversations (db w) ++ [mkConversation id title prompt now now])
                         (messages (db w)) id (seq_messages (db w)))
             (clock w) (S (ticks w)) (environ w) (network w) (sent w)).
Proof.
  intros Hfit. unfold create_conversation, bind, now_iso, with_db, execute.
  simpl db. unfold insert_conversation, new_rowid. simpl adapt. simpl res_bind.
  fold (next_conversation_id (db w)). rewrite Hfit. reflexivity.
Qed.

(** C8. A POST /api/conversations whose body has no "title", or one
    that is empty, is answered 201 with an object under "conversation"
    whose "title" is "New conversation", whose "system_prompt" is the
    "systemPrompt" string of the body and the empty string when the body
    has none, and whose "created_at" and "updated_at" are the same
    reading of the clock; the row stored is that conversation. *)
Theorem post_conversation_defaults (w : world) (d : list (string * json))
    (prompt : option string) :
  match dict_get "title" d with
  | Some v => truthy v = false
  | None => True
  end ->
  dict_get "systemPrompt" d = option_map JStr prompt ->
  fits_int64 (next_conversation_id (db w)) = true ->
  exists id w',
    do_POST "/api/conversations" (JObj d) w
    = (Ok (JsonResponse 201
             (JObj [("conversation",
                     JObj [("id", JInt id);
                           ("title", JStr "New conversation");
                           ("system_prompt",
                            JStr (match prompt with Some p => p | None => "" end));
                           ("created_at", JStr (clock w (ticks w)));
                           ("updated_at", JStr (clock w (ticks w)))])])), w')
    /\ find_conversation (db w') id
       = Some (mkConversation id "New conversation"
                              (match prompt with Some p => p | None => "" end)
                              (clock w (ticks w)) (clock w (ticks w)))
    /\ find_conversation (db w) id = None.
Proof.
  intros Htitle Hprompt Hfit.
  set (p := match prompt with Some p => p | None => "" end).
  exists (next_conversation_id (db w)). eexists.
  assert (Hfind : forall l,
             find (fun c => c_id c =? next_conversation_id (db w))
                  (conversations (db w) ++ l)
             = find (fun c => c_id c =? next_conversation_id (db w)) l).
  { intros l. apply find_app_second. apply find_fresh_rowid. }
  split; [|split].
  - assert (Htitle' : py_or match dict_get "title" d with Some x => x | None => JNull end
                             (JStr "New conversation") = JStr "New conversation").
    { unfold py_or. destruct (dict_get "title" d); [rewrite Htitle|]; reflexivity. }
    assert (Hprompt' : py_or match dict_get "systemPrompt" d with Some x => x | None => JNull end
                              (JStr "") = JStr p).
    { rewrite Hprompt. unfold p, py_or. destruct prompt as [[|c s]|]; reflexivity. }
    unfold do_POST. change (String.eqb "/api/conversations" API) with true. cbv iota.
    unfold bind, lift. cbn [py_get]. rewrite Htitle', Hprompt'.
    rewrite (create_conversation_run w "New conversation" p Hfit). cbv zeta beta iota.
    rewrite get_conversation_run. unfold adapt_id.
    rewrite Hfit. simpl res_bind. unfold find_conversation. simpl db. simpl conversations.
    rewrite Hfind. simpl. rewrite Z.eqb_refl. simpl. reflexivity.
  - unfold find_conversation. simpl. rewrite Hfind. simpl. rewrite Z.eqb_refl. reflexivity.
  - apply find_fresh_rowid.
Qed.

Lemma post_conversation_defaults_empty_body :
  exists id w',
    do_POST "/api/conversations" (JObj []) offline_world
    = (Ok (JsonResponse 201
             (JObj [("conversation",
                     JObj [("id", JInt id);
                           ("title", JStr "New conversation");
                           ("system_prompt", JStr "");
                           ("created_at", JStr (clock offline_world (ticks offline_world)));
                           ("updated_at",
                            JStr (clock offline_world (ticks offline_world)))])])), w')
    /\ find_conversation (db w') id
       = Some (mkConversation id "New conversation" ""
                              (clock offline_world (ticks offline_world))
                              (clock offline_world (ticks offline_world)))
    /\ find_conversation (db offline_world) id = None.
Proof.
  apply (post_conversation_defaults offline_world [] None).
  - exact I.
  - reflexivity.
  - reflexivity.
Defined.

Example post_empty_title :
  fst (do_POST "/api/conversations"
               (JObj [("title", JStr ""); ("systemPrompt", JStr "Be terse.")]) busy_world)
  = Ok (JsonResponse 201
          (JObj [("conversation",
                  JObj [("id", JInt 2); ("title", JStr "New conversation");
                        ("system_prompt", JStr "Be terse.");
                        ("created_at", JStr "2024-05-01T10:10:00+00:00");
                        ("updated_at", JStr "2024-05-01T10:10:00+00:00")])])).
Proof. reflexivity. Qed.

(* ------------------------------------------------------------------ *)
(** ** Routing of [/api/conversations/.../messages] *)

Lemma prefix_split (a s : string) :
  String.prefix a s = true -> exists rest, s = a ++ rest.
Proof.
  revert s. induction a as [|c a IH]; intros s H.
  - exists s. reflexivity.
  - destruct s as [|c' s]; [discriminate H|]. simpl in H.
    destruct (ascii_dec c c') as [->|_]; [|discriminate H].
    destruct (IH s H) as [rest ->]. exists rest. reflexivity.
Qed.

Lemma split_from_first (sep : ascii) (s cur : string) :
  exists first others, split_from sep cur s = first :: others.
Proof.
  revert cur. induction s as [|c s IH]; intros cur; simpl.
  - eauto.
  - destruct (Ascii.eqb c sep); [eauto | apply IH].
Qed.

(** Under the prefix test the path always has a segment of index 3: the
    IndexError of [path.split("/")[3]] cannot happen on these routes. *)
Lemma third_segment_exists (path : string) :
  startswith path API_SLASH = true ->
  exists segment, nth_error (split "/" path) 3 = Some segment.
Proof.
  intros H. apply prefix_split in H. destruct H as [rest ->].
  destruct (split_from_first "/" rest "") as (first & others & Hs).
  exists first. unfold split, API_SLASH. simpl. rewrite Hs. reflexivity.
Qed.

Lemma append_message_run (w : world) (cid : Z) (conv : conversation) (r t : string) :
  fits_int64 cid = true ->
  find_conversation (db w) cid = Some conv ->
  is_role r = true ->
  0 <= seq_messages (db w) ->
  top_message_id (db w) + 1 <= INT64_MAX ->
  exists w',
    append_message cid (JStr r) (JStr t) w = (Ok tt, w')
    /\ messages (db w')
       = (messages (db w)
          ++ [mkMessage (top_message_id (db w) + 1) cid r t (clock w (ticks w))])%list.
Proof.
  intros Hfit Hfind Hrole Hseq Hroom. eexists.
  unfold append_message, with_db, bind, now_iso, execute_, execute. simpl db.
  rewrite (insert_message_run cid conv r (JStr t) t _ (db w) Hfit Hfind Hrole
             eq_refl Hseq Hroom).
  simpl. unfold touch_conversation, adapt_id. rewrite Hfit. simpl.
  split; reflexivity.
Qed.

Lemma clean_messages_pairs (pairs : list (string * string)) :
  Forall (fun pair => is_role (fst pair) = true) pairs ->
  forall cleaned,
    clean_messages (map pair_message pairs) cleaned
    = Ok (inr (cleaned ++ map pair_message pairs)%list).
Proof.
  induction 1 as [|[r t] pairs Hr _ IH]; intros cleaned.
  - simpl. rewrite app_nil_r. reflexivity.
  - simpl in Hr. cbn [map clean_messages]. unfold pair_message at 1.
    simpl py_get. cbn [res_bind]. simpl in_roles. rewrite Hr. cbn [res_bind negb].
    cbv iota. rewrite IH, <- app_assoc. reflexivity.
Qed.

Lemma map_Some_inj {A} (l1 l2 : list A) : map Some l1 = map Some l2 -> l1 = l2.
Proof.
  revert l2. induction l1 as [|x l1 IH]; intros [|y l2] H; try discriminate H.
  - reflexivity.
  - simpl in H. injection H as -> H. rewrite (IH l2 H). reflexivity.
Qed.

Lemma with_conversation_same_id (p q : string) (k : Z -> M response) :
  nth_error (split "/" p) 3 = nth_error (split "/" q) 3 ->
  with_conversation p k = with_conversation q k.
Proof.
  intros H. unfold with_conversation, conversation_id_of. rewrite H. reflexivity.
Qed.

(** C9. On a path that starts with "/api/conversations/" and ends with
    "/messages", the conversation is the one whose id [int()] reads in
    the segment of index 3 of [path.split("/")], whatever stands between
    that segment and "/messages".  When no conversation has that id the
    answer of GET is the 404 of an unknown conversation, not that of the
    static files.  When one has, GET answers with the messages of that
    conversation, POST appends to it and PUT replaces its messages.  So
    "/api/conversations/5/anything/messages" names conversation 5 and is
    answered by GET as "/api/conversations/5/messages" is. *)
Theorem messages_route_third_segment (p segment : string) (cid : Z) (w : world) :
  is_messages_path p = true ->
  nth_error (split "/" p) 3 = Some segment ->
  py_int segment = Some cid ->
  fits_int64 cid = true ->
  do_GET p w
  = (Ok (match find_conversation (db w) cid with
         | None => JsonResponse 404 (error_json "conversation not found")
         | Some _ =>
             JsonResponse 200
               (JObj [("messages", JArr (map message_dict (message_rows (db w) cid)))])
         end), w)
  /\ (forall c,
        find_conversation (db w) cid = Some c ->
        (forall r t,
              is_role r = true ->
              0 <= seq_messages (db w) ->
              top_message_id (db w) + 1 <= INT64_MAX ->
              exists w',
                do_POST p (JObj [("role", JStr r); ("content", JStr t)]) w
                = (Ok (JsonResponse 201 (JObj [("ok", JBool true)])), w')
                /\ messages (db w')
                   = (messages (db w)
                      ++ [mkMessage (top_message_id (db w) + 1) cid r t
                                    (clock w (ticks w))])%list)
        /\ (forall pairs,
              Forall (fun pair => is_role (fst pair) = true) pairs ->
              0 <= seq_messages (db w) ->
              top_message_id (db w) + Z.of_nat (List.length pairs) <= INT64_MAX ->
              exists w',
                do_PUT p (JObj [("messages", JArr (map pair_message pairs))]) w
                = (Ok (JsonResponse 200 (JObj [("ok", JBool true)])), w')
                /\ map (fun m => (m_role m, m_content m)) (message_rows (db w') cid)
                   = pairs))
  /\ conversation_id_of "/api/conversations/5/anything/messages" = Some 5
  /\ (forall w0, do_GET "/api/conversations/5/anything/messages" w0
                 = do_GET "/api/conversations/5/messages" w0).
Proof.
  intros Hp Hseg Hint Hfit.
  assert (Hid : conversation_id_of p = Some cid).
  { unfold conversation_id_of. rewrite Hseg. exact Hint. }
  split; [|split; [|split]].
  - unfold do_GET. rewrite (messages_path_not_api p Hp), Hp.
    destruct (find_conversation (db w) cid) as [c|] eqn:Hfind.
    + rewrite (with_conversation_found p _ w cid c Hid Hfit Hfind).
      unfold bind. rewrite (list_messages_run w cid Hfit). reflexivity.
    + unfold with_conversation. rewrite Hid. unfold bind.
      rewrite get_conversation_run. unfold adapt_id. rewrite Hfit. simpl.
      rewrite Hfind. reflexivity.
  - intros c Hfind. split.
    + intros r t Hrole Hseq Hroom.
      destruct (append_message_run w cid c r t Hfit Hfind Hrole Hseq Hroom)
        as (w' & Hrun & Hmsgs).
      exists w'. split; [|exact Hmsgs].
      unfold do_POST. rewrite (messages_path_not_api p Hp), Hp.
      rewrite (with_conversation_found p _ w cid c Hid Hfit Hfind).
      unfold bind, lift. simpl py_get. cbv beta iota. simpl in_roles. cbv beta iota.
      rewrite Hrole. cbn [negb]. cbv beta iota. rewrite Hrun. reflexivity.
    + intros pairs Hroles Hseq Hroom.
      destruct (pair_items pairs Hroles) as (Hok & Hmsgs & Hpairs).
      destruct (replace_messages_run w cid c (map pair_item pairs) Hfit Hfind Hok Hseq)
        as (w' & rows & Hrun & Hlist & Hmap & _).
      { rewrite length_map. exact Hroom. }
      rewrite Hmsgs in Hrun. rewrite Hpairs in Hmap.
      exists w'. split.
      * unfold do_PUT. rewrite (messages_path_not_update p Hp), Hp.
        rewrite (with_conversation_found p _ w cid c Hid Hfit Hfind).
        unfold bind at 1, lift. simpl py_get. cbv beta iota.
        unfold bind at 1, lift. rewrite (clean_messages_pairs pairs Hroles []).
        simpl app. cbv beta iota.
        unfold bind. rewrite Hrun. reflexivity.
      * rewrite (list_messages_run w' cid Hfit) in Hlist. injection Hlist as Hlist.
        apply map_Some_inj.
        rewrite <- (proj1 (shown_rows (message_rows (db w') cid))), Hlist.
        rewrite (proj1 (shown_rows rows)), Hmap. reflexivity.
  - reflexivity.
  - intros w0. unfold do_GET.
    change (String.eqb "/api/conversations/5/anything/messages" API) with false.
    change (String.eqb "/api/conversations/5/messages" API) with false.
    change (is_messages_path "/api/conversations/5/anything/messages") with true.
    change (is_messages_path "/api/conversations/5/messages") with true.
    cbv iota.
    rewrite (with_conversation_same_id "/api/conversations/5/anything/messages"
               "/api/conversations/5/messages");
      [reflexivity | transitivity (Some "5"); reflexivity].
Qed.

Lemma messages_route_extra_segment :
  do_GET "/api/conversations/2/anything/messages" two_conversations_world
  = (Ok (match find_conversation (db two_conversations_world) 2 with
         | None => JsonResponse 404 (error_json "conversation not found")
         | Some _ =>
             JsonResponse 200
               (JObj [("messages",
                       JArr (map message_dict
                                 (message_rows (db two_conversations_world) 2)))])
         end), two_conversations_world)
  /\ (forall c,
        find_conversation (db two_conversations_world) 2 = Some c ->
        (forall r t,
              is_role r = true ->
              0 <= seq_messages (db two_conversations_world) ->
              top_message_id (db two_conversations_world) + 1 <= INT64_MAX ->
              exists w',
                do_POST "/api/conversations/2/anything/messages"
                        (JObj [("role", JStr r); ("content", JStr t)])
                        two_conversations_world
                = (Ok (JsonResponse 201 (JObj [("ok", JBool true)])), w')
                /\ messages (db w')
                   = (messages (db two_conversations_world)
                      ++ [mkMessage (top_message_id (db two_conversations_world) + 1) 2 r t
                                    (clock two_conversations_world
                                           (ticks two_conversations_world))])%list)
        /\ (forall pairs,
              Forall (fun pair => is_role (fst pair) = true) pairs ->
              0 <= seq_messages (db two_conversations_world) ->
              top_message_id (db two_conversations_world) + Z.of_nat (List.length pairs)
              <= INT64_MAX ->
              exists w',
                do_PUT "/api/conversations/2/anything/messages"
                       (JObj [("messages", JArr (map pair_message pairs))])
                       two_conversations_world
                = (Ok (JsonResponse 200 (JObj [("ok", JBool true)])), w')
                /\ map (fun m => (m_role m, m_content m)) (message_rows (db w') 2)
                   = pairs))
  /\ conversation_id_of "/api/conversations/5/anything/messages" = Some 5
  /\ (forall w0, do_GET "/api/conversations/5/anything/messages" w0
                 = do_GET "/api/conversations/5/messages" w0).
Proof.
  apply (messages_route_third_segment "/api/conversations/2/anything/messages" "2" 2
           two_conversations_world).
  - reflexivity.
  - reflexivity.
  - reflexivity.
  - reflexivity.
Defined.

Example post_through_extra_segment :
  map (fun m => (m_conversation_id m, m_role m, m_content m))
      (messages (db (snd (do_POST "/api/conversations/2/anything/messages"
                                  (JObj [("role", JStr "user"); ("content", JStr "hi")])
                                  two_conversations_world))))
  = [(2, "user", "hi")].
Proof. vm_compute. reflexivity. Qed.

Example get_through_extra_segment :
  fst (do_GET "/api/conversations/1/anything/messages" busy_world)
  = Ok (JsonResponse 200
          (JObj [("messages",
                  JArr [JObj [("id", JInt 3); ("role", JStr "system");
                              ("content", JStr "be brief");
                              ("created_at", JStr "2024-05-01T10:03:00.000002+00:00")];
                        JObj [("id", JInt 4); ("role", JStr "user"); ("content", JStr "a");
                              ("created_at", JStr "2024-05-01T10:04:10.250000+00:00")];
                        JObj [("id", JInt 5); ("role", JStr "assistant");
                              ("content", JStr "b");
                              ("created_at", JStr "2024-05-01T10:04:10.250001+00:00")]])])).
Proof. reflexivity. Qed.

Example get_word_segment :
  fst (do_GET "/api/conversations/messages" busy_world)
  = Ok (JsonResponse 400 (error_json "invalid conversation id")).
Proof. reflexivity. Qed.

Example get_unknown_conversation :
  fst (do_GET "/api/conversations/999999/messages" busy_world)
  = Ok (JsonResponse 404 (error_json "conversation not found")).
Proof. reflexivity. Qed.

(* ------------------------------------------------------------------ *)
(** ** Messages without "content" *)

Lemma is_role_names (r : string) (d : list (string * json)) :
  dict_get "role" d = Some (JStr r) ->
  is_role r = true ->
  plain_message (JObj d) /\ names_role (JObj d) = true.
Proof.
  intros Hr Hrole. split.
  - exists d. split; [reflexivity|]. rewrite Hr. reflexivity.
  - unfold names_role, has_role. rewrite Hr. simpl.
    unfold is_role in Hrole. simpl in Hrole.
    rewrite orb_false_r, orb_assoc in Hrole. exact Hrole.
Qed.

Lemma clean_messages_accepts (msgs : list json) (entries : list entry) :
  Forall2 reads_as msgs entries ->
  Forall (fun e => is_role (e_role e) = true) entries ->
  forall cleaned,
    clean_messages msgs cleaned
    = Ok (inr (cleaned ++ map item_message (map entry_item entries))%list).
Proof.
  induction 1 as [|m e msgs entries (d & -> & Hr & Hc) _ IH]; intros Hroles cleaned.
  - simpl. rewrite app_nil_r. reflexivity.
  - inversion Hroles as [|? ? Hrole Hroles']; subst.
    destruct (is_role_names (e_role e) d Hr Hrole) as [Hplain Hnames].
    rewrite (clean_messages_step d msgs cleaned Hplain), Hnames, Hr, Hc.
    rewrite (IH Hroles'). rewrite <- app_assoc. reflexivity.
Qed.

(** C10. On the two message routes a message needs only its "role".
    A POST whose body names one of the three roles and has no "content"
    is answered 201 and appends a message whose content is the empty
    string.  A PUT whose messages name roles among the three, each with
    a content the table can store or with none, is answered 200, and
    [list_messages] then shows, in order, each role with the text stored
    for it, which is the empty string for every message without
    "content". *)
Theorem absent_content_is_empty (w : world) (path : string) (cid : Z)
    (conv : conversation) :
  is_messages_path path = true ->
  conversation_id_of path = Some cid ->
  fits_int64 cid = true ->
  find_conversation (db w) cid = Some conv ->
  0 <= seq_messages (db w) ->
  (forall d role,
      dict_get "role" d = Some (JStr role) ->
      is_role role = true ->
      dict_get "content" d = None ->
      top_message_id (db w) + 1 <= INT64_MAX ->
      exists w',
        do_POST path (JObj d) w = (Ok (JsonResponse 201 (JObj [("ok", JBool true)])), w')
        /\ messages (db w')
           = (messages (db w)
              ++ [mkMessage (top_message_id (db w) + 1) cid role ""
                            (clock w (ticks w))])%list)
  /\ (forall d msgs entries,
         dict_get "messages" d = Some (JArr msgs) ->
         Forall2 reads_as msgs entries ->
         Forall (fun e => item_ok (entry_item e)) entries ->
         top_message_id (db w) + Z.of_nat (List.length entries) <= INT64_MAX ->
         exists w' rows,
           do_PUT path (JObj d) w = (Ok (JsonResponse 200 (JObj [("ok", JBool true)])), w')
           /\ list_messages cid w' = (Ok (map message_dict rows), w')
           /\ map (fun m => (m_role m, m_content m)) rows
              = map (fun e => (e_role e, e_text e)) entries
           /\ Forall (fun e => e_content e = None -> e_text e = "") entries).
Proof.
  intros Hp Hid Hfit Hfind Hseq. split.
  - intros d role Hr Hrole Hc Hroom.
    destruct (append_message_run w cid conv role "" Hfit Hfind Hrole Hseq Hroom)
      as (w' & Hrun & Hmsgs).
    exists w'. split; [|exact Hmsgs].
    destruct (is_role_names role d Hr Hrole) as [Hplain Hnames].
    pose proof (in_roles_plain d Hplain) as Hin.
    unfold do_POST. rewrite (messages_path_not_api path Hp), Hp.
    rewrite (with_conversation_found path _ w cid conv Hid Hfit Hfind).
    unfold bind, lift. cbn [py_get res_bind] in *. rewrite Hin, Hnames, Hr, Hc.
    cbn [negb]. cbv beta iota. rewrite Hrun. reflexivity.
  - intros d msgs entries Hmsgs Hreads Hok Hroom.
    assert (Hroles : Forall (fun e => is_role (e_role e) = true) entries).
    { eapply Forall_impl; [|exact Hok]. intros e [H _]. exact H. }
    assert (Hitems : Forall item_ok (map entry_item entries)).
    { apply Forall_map. exact Hok. }
    destruct (replace_messages_run w cid conv (map entry_item entries) Hfit Hfind Hitems Hseq)
      as (w' & rows & Hrun & Hlist & Hmap & _).
    { rewrite length_map. exact Hroom. }
    exists w', rows. split; [|split; [exact Hlist | split]].
    + unfold do_PUT. rewrite (messages_path_not_update path Hp), Hp.
      rewrite (with_conversation_found path _ w cid conv Hid Hfit Hfind).
      unfold bind, lift. cbn [py_get]. rewrite Hmsgs.
      rewrite (clean_messages_accepts msgs entries Hreads Hroles []). simpl app.
      rewrite Hrun. reflexivity.
    + rewrite Hmap, map_map. reflexivity.
    + eapply Forall_impl; [|exact Hok]. intros e [_ Htext] Hnone.
      unfold entry_item, stored_text in Htext. simpl in Htext.
      rewrite Hnone in Htext. simpl in Htext. injection Htext as <-. reflexivity.
Qed.

Lemma absent_content_is_empty_first_conversation :
  (forall d role,
      dict_get "role" d = Some (JStr role) ->
      is_role role = true ->
      dict_get "content" d = None ->
      top_message_id (db one_conversation_world) + 1 <= INT64_MAX ->
      exists w',
        do_POST "/api/conversations/1/messages" (JObj d) one_conversation_world
        = (Ok (JsonResponse 201 (JObj [("ok", JBool true)])), w')
        /\ messages (db w')
           = (messages (db one_conversation_world)
              ++ [mkMessage (top_message_id (db one_conversation_world) + 1) 1 role ""
                            (clock one_conversation_world
                                   (ticks one_conversation_world))])%list)
  /\ (forall d msgs entries,
         dict_get "messages" d = Some (JArr msgs) ->
         Forall2 reads_as msgs entries ->
         Forall (fun e => item_ok (entry_item e)) entries ->
         top_message_id (db one_conversation_world) + Z.of_nat (List.length entries)
         <= INT64_MAX ->
         exists w' rows,
           do_PUT "/api/conversations/1/messages" (JObj d) one_conversation_world
           = (Ok (JsonResponse 200 (JObj [("ok", JBool true)])), w')
           /\ list_messages 1 w' = (Ok (map message_dict rows), w')
           /\ map (fun m => (m_role m, m_content m)) rows
              = map (fun e => (e_role e, e_text e)) entries
           /\ Forall (fun e => e_content e = None -> e_text e = "") entries).
Proof.
  apply (absent_content_is_empty one_conversation_world
           "/api/conversations/1/messages" 1
           (mkConversation 1 "Chat" "" (sample_clock 0) (sample_clock 0))).
  - reflexivity.
  - reflexivity.
  - reflexivity.
  - reflexivity.
  - vm_compute. discriminate.
Defined.

Example post_role_only :
  let w := snd (do_POST "/api/conversations/1/messages" (JObj [("role", JStr "user")])
                        one_conversation_world) in
  fst (do_GET "/api/conversations/1/messages" w)
  = Ok (JsonResponse 200
          (JObj [("messages",
                  JArr [JObj [("id", JInt 1); ("role", JStr "user"); ("content", JStr "");
                              ("created_at", JStr "2024-05-01T10:00:00.000250+00:00")]])])).
Proof. reflexivity. Qed.

Example put_role_only :
  let w := snd (do_PUT "/api/conversations/1/messages"
                  (JObj [("messages",
                          JArr [JObj [("role", JStr "system")];
                                JObj [("content", JStr "hi"); ("role", JStr "user")]])])
                  busy_world) in
  map (fun m => (m_id m, m_role m, m_content m)) (message_rows (db w) 1)
  = [(6, "system", ""); (7, "user", "hi")].
Proof. reflexivity. Qed.

Example put_number_content_is_text :
  let w := snd (do_PUT "/api/conversations/1/messages"
                  (JObj [("messages",
                          JArr [JObj [("role", JStr "user"); ("content", JInt 42)];
                                JObj [("role", JStr "assistant")]])])
                  one_conversation_world) in
  map (fun m => (m_id m, m_role m, m_content m)) (message_rows (db w) 1)
  = [(1, "user", "42"); (2, "assistant", "")].
Proof. reflexivity. Qed.

Example post_null_content_is_refused :
  do_POST "/api/conversations/1/messages"
          (JObj [("role", JStr "user"); ("content", JNull)]) one_conversation_world
  = (Raise IntegrityError,
     mkWorld (db one_conversation_world) sample_clock 2 (fun _ => None) silent_network []).
Proof. reflexivity. Qed.

(* ------------------------------------------------------------------ *)
(** ** What every served store satisfies *)

Lemma keeps_ret (P : database -> Prop) {A} (a : A) : keeps P (ret a).
Proof. intros w w' r HP H. inversion H. subst. exact HP. Qed.

Lemma keeps_lift (P : database -> Prop) {A} (x : res A) : keeps P (lift x).
Proof. intros w w' r HP H. inversion H. subst. exact HP. Qed.

Lemma keeps_now_iso (P : database -> Prop) : keeps P now_iso.
Proof. intros w w' r HP H. inversion H. subst. exact HP. Qed.

Lemma keeps_bind (P : database -> Prop) {A B} (m : M A) (k : A -> M B) :
  keeps P m -> (forall a, keeps P (k a)) -> keeps P (bind m k).
Proof.
  intros Hm Hk w w' r HP H. apply bind_inv in H.
  destruct H as [(a & w1 & H1 & H2) | (e & H1 & _)].
  - exact (Hk a w1 w' r (Hm w w1 (Ok a) HP H1) H2).
  - exact (Hm w w' (Raise e) HP H1).
Qed.

Lemma keeps_with_db (P : database -> Prop) {A} (block : M A) :
  keeps P block -> keeps P (with_db block).
Proof.
  intros Hb w w' r HP H. apply with_db_inv in H.
  destruct H as (w1 & H1 & _ & _ & [(a & _ & ->) | (e & _ & Hd)]).
  - exact (Hb w w1 r HP H1).
  - rewrite Hd. exact HP.
Qed.

Lemma keeps_execute (P : database -> Prop) {A} (stmt : database -> res (A * database)) :
  statement_keeps P stmt -> keeps P (execute stmt).
Proof.
  intros Hs w w' r HP H. unfold execute in H.
  destruct (stmt (db w)) as [[a d]|e] eqn:E; inversion H; subst.
  - simpl. exact (Hs (db w) d a HP E).
  - exact HP.
Qed.

Lemma keeps_execute_ (P : database -> Prop) (stmt : database -> res database) :
  (forall d d', P d -> stmt d = Ok d' -> P d') -> keeps P (execute_ stmt).
Proof.
  intros Hs. apply keeps_execute. intros d d' a HP H.
  destruct (stmt d) as [d1|] eqn:E; [|discriminate H]. simpl in H.
  injection H as _ <-. exact (Hs d d1 HP E).
Qed.

Lemma keeps_query (P : database -> Prop) {A} (q : database -> res A) : keeps P (query q).
Proof. intros w w' r HP H. inversion H. subst. exact HP. Qed.

Lemma sorted_snoc (l : list Z) (x : Z) :
  StronglySorted Z.lt l -> Forall (fun y => y < x) l -> StronglySorted Z.lt (l ++ [x]).
Proof.
  induction 1 as [|y l Hs IH Hy]; intros Hx; simpl.
  - constructor; constructor.
  - inversion Hx as [|? ? Hyx Hx']; subst.
    constructor; [apply IH; exact Hx'|].
    apply Forall_app. split; [exact Hy | constructor; [exact Hyx | constructor]].
Qed.

Lemma sorted_message_filter (p : message -> bool) (l : list message) :
  StronglySorted Z.lt (map m_id l) -> StronglySorted Z.lt (map m_id (filter p l)).
Proof.
  induction l as [|m l IH]; simpl; intros H; [constructor|].
  inversion H as [|? ? Hs Hall]; subst.
  destruct (p m); simpl; [|apply IH; exact Hs].
  constructor; [apply IH; exact Hs|].
  rewrite Forall_map in *. rewrite Forall_forall in *.
  intros x Hx. apply Hall. apply filter_In in Hx. apply Hx.
Qed.

Lemma fits_int64_bound (n : Z) : fits_int64 n = true -> n <= INT64_MAX.
Proof. unfold fits_int64, INT64_MAX. intros H. apply andb_true_iff in H. lia. Qed.

Lemma below_next_rowid (seq : Z) (ids : list Z) :
  seq < next_rowid seq ids /\ Forall (fun y => y < next_rowid seq ids) ids.
Proof.
  unfold next_rowid. split.
  - pose proof (fold_max_seed seq ids). lia.
  - pose proof (fold_max_elements seq ids) as H.
    eapply Forall_impl; [|exact H]. simpl. intros; lia.
Qed.

Lemma find_conversation_grows (d : database) (l : list conversation) (cid : Z)
    (seqc seqm : Z) (ms : list message) :
  find_conversation d cid <> None ->
  find_conversation (mkDatabase (conversations d ++ l) ms seqc seqm) cid <> None.
Proof.
  unfold find_conversation. simpl.
  destruct (find (fun c => c_id c =? cid) (conversations d)) as [c|] eqn:E.
  - intros _. rewrite (find_app_first _ _ l c E). discriminate.
  - intros H. exfalso. apply H. reflexivity.
Qed.

Lemma insert_conversation_keeps_ok (title prompt : json) (created updated : string) :
  statement_keeps store_ok (insert_conversation title prompt created updated).
Proof.
  intros d d' id Hok H. unfold insert_conversation in H.
  destruct (adapt title) as [vt|]; [|discriminate H]. simpl in H.
  destruct (adapt prompt) as [vp|]; [|discriminate H]. simpl in H.
  unfold new_rowid in H. destruct (fits_int64 _) eqn:Hfit; [|discriminate H]. simpl in H.
  destruct (text_not_null vt) as [t|]; [|discriminate H]. simpl in H.
  destruct (text_not_null vp) as [p|]; [|discriminate H]. simpl in H.
  injection H as <- <-. apply fits_int64_bound in Hfit.
  destruct Hok as [Hci Hcs Hmi Hms [Hsc Hsm] Hr Ho [Hrc Hrm]].
  destruct (below_next_rowid (seq_conversations d) (map c_id (conversations d)))
    as [Hseq Hids].
  constructor; simpl; auto.
  - rewrite map_app. simpl. apply sorted_snoc; assumption.
  - apply Forall_app. split.
    + eapply Forall_impl; [|exact Hcs]. simpl. intros c Hc. lia.
    + constructor; [simpl; lia | constructor].
  - split; [lia | exact Hsm].
  - eapply Forall_impl; [|exact Ho]. intros m Hm.
    apply find_conversation_grows. exact Hm.
Qed.

Lemma insert_message_keeps_ok (cid : Z) (role content : json) (created : string)
    (d d' : database) :
  store_ok d -> insert_message cid role content created d = Ok d' -> store_ok d'.
Proof.
  intros Hok H. unfold insert_message in H.
  destruct (adapt_id cid) as [n|]; [|discriminate H]. simpl in H.
  destruct (adapt role) as [vr|]; [|discriminate H]. simpl in H.
  destruct (adapt content) as [vc|]; [|discriminate H]. simpl in H.
  unfold new_rowid in H. destruct (fits_int64 _) eqn:Hfit; [|discriminate H]. simpl in H.
  destruct (text_not_null vr) as [r|]; [|discriminate H]. simpl in H.
  destruct (text_not_null vc) as [c|]; [|discriminate H]. simpl in H.
  destruct (is_role r) eqn:Hrole; [|discriminate H]. simpl in H.
  destruct (find_conversation d n) as [conv|] eqn:Hfind; [|discriminate H].
  injection H as <-. apply fits_int64_bound in Hfit.
  destruct Hok as [Hci Hcs Hmi Hms [Hsc Hsm] Hr Ho [Hrc Hrm]].
  destruct (below_next_rowid (seq_messages d) (map m_id (messages d))) as [Hseq Hids].
  constructor; simpl; auto.
  - rewrite map_app. simpl. apply sorted_snoc; assumption.
  - apply Forall_app. split.
    + eapply Forall_impl; [|exact Hms]. simpl. intros m Hm. lia.
    + constructor; [simpl; lia | constructor].
  - split; [exact Hsc | lia].
  - apply Forall_app. split; [exact Hr | constructor; [exact Hrole | constructor]].
  - apply Forall_app. split.
    + exact Ho.
    + constructor; [|constructor]. simpl. unfold find_conversation in *. simpl.
      rewrite Hfind. discriminate.
Qed.

Lemma delete_messages_keeps_ok (cid : Z) (d d' : database) :
  store_ok d -> delete_messages cid d = Ok d' -> store_ok d'.
Proof.
  intros Hok H. unfold delete_messages in H.
  destruct (adapt_id cid) as [n|]; [|discriminate H]. simpl in H. injection H as <-.
  destruct Hok as [Hci Hcs Hmi Hms Hseq Hr Ho Hroom].
  constructor; simpl; auto.
  - apply sorted_message_filter. exact Hmi.
  - eapply incl_Forall; [apply incl_filter | exact Hms].
  - eapply incl_Forall; [apply incl_filter | exact Hr].
  - eapply incl_Forall; [apply incl_filter | exact Ho].
Qed.

(** An UPDATE of [conversations] that leaves every [id] alone. *)
Lemma rewrite_conversations_keeps_ok (f : conversation -> conversation) (d : database) :
  (forall c, c_id (f c) = c_id c) ->
  store_ok d ->
  store_ok (mkDatabase (map f (conversations d)) (messages d)
                       (seq_conversations d) (seq_messages d)).
Proof.
  intros Hf [Hci Hcs Hmi Hms Hseq Hr Ho Hroom].
  assert (Hids : map c_id (map f (conversations d)) = map c_id (conversations d)).
  { rewrite map_map. apply map_ext. exact Hf. }
  constructor; simpl; auto.
  - rewrite Hids. exact Hci.
  - apply Forall_map. eapply Forall_impl; [|exact Hcs]. simpl.
    intros c Hc. rewrite Hf. exact Hc.
  - eapply Forall_impl; [|exact Ho]. intros m Hm.
    unfold find_conversation in *. simpl.
    rewrite (find_conversation_map f _ _ Hf).
    destruct (find (fun c => c_id c =? m_conversation_id m) (conversations d));
      [discriminate | exact Hm].
Qed.

Lemma touch_conversation_keeps_ok (updated : string) (cid : Z) (d d' : database) :
  store_ok d -> touch_conversation updated cid d = Ok d' -> store_ok d'.
Proof.
  intros Hok H. unfold touch_conversation in H.
  destruct (adapt_id cid) as [n|]; [|discriminate H]. simpl in H. injection H as <-.
  apply rewrite_conversations_keeps_ok; [|exact Hok].
  intros c. destruct (c_id c =? n); reflexivity.
Qed.

Lemma update_row_keeps_ok (title prompt : option json) (updated : string) (cid : Z)
    (d d' : database) :
  store_ok d -> update_row title prompt updated cid d = Ok d' -> store_ok d'.
Proof.
  intros Hok H. unfold update_row in H.
  destruct (match title with Some v => _ | None => _ end) as [vt|]; [|discriminate H].
  simpl in H.
  destruct (match prompt with Some v => _ | None => _ end) as [vp|]; [|discriminate H].
  simpl in H.
  destruct (adapt_id cid) as [n|]; [|discriminate H]. simpl in H.
  destruct (find_conversation d n) as [found|].
  - destruct (match vt with Some x => _ | None => _ end) as [nt|]; [|discriminate H].
    simpl in H.
    destruct (match vp with Some x => _ | None => _ end) as [np|]; [|discriminate H].
    simpl in H. injection H as <-.
    apply rewrite_conversations_keeps_ok; [|exact Hok].
    intros c. destruct (c_id c =? n); reflexivity.
  - injection H as <-. exact Hok.
Qed.

(** [llm_chat] has no handle on the store. *)
Lemma llm_chat_keeps_store (msgs : list json) (w : world) :
  db (snd (llm_chat msgs w)) = db w /\ ticks (snd (llm_chat msgs w)) = ticks w.
Proof.
  unfold llm_chat. destruct (no_credential w); [split; reflexivity|].
  unfold bind, build_request, urlopen.
  destruct (network w (chat_request w msgs)) eqn:Hnet; simpl; try rewrite Hnet;
    simpl; split; reflexivity.
Qed.

Lemma get_conversation_keeps (P : database -> Prop) (id : Z) :
  keeps P (get_conversation id).
Proof. unfold get_conversation. apply keeps_with_db. apply keeps_query. Qed.

(** A property of the store that the statements on the conversations
    selected by [on] preserve is preserved by the storage functions
    called on them, however a call ends. *)
Section Keeping.
Variable P : database -> Prop.
Variable on : Z -> Prop.
Variable creating : Prop.
Hypothesis keep_insert_conversation :
  forall title prompt created updated,
    creating -> statement_keeps P (insert_conversation title prompt created updated).
Hypothesis keep_insert_message :
  forall cid role content created d d',
    on cid -> P d -> insert_message cid role content created d = Ok d' -> P d'.
Hypothesis keep_delete_messages :
  forall cid d d', on cid -> P d -> delete_messages cid d = Ok d' -> P d'.
Hypothesis keep_touch_conversation :
  forall updated cid d d',
    on cid -> P d -> touch_conversation updated cid d = Ok d' -> P d'.
Hypothesis keep_update_row :
  forall title prompt updated cid d d',
    on cid -> P d -> update_row title prompt updated cid d = Ok d' -> P d'.

Lemma create_conversation_keeps (title prompt : json) :
  creating -> keeps P (create_conversation title prompt).
Proof.
  intros Hcreating. unfold create_conversation.
  apply keeps_bind; [apply keeps_now_iso | intros timestamp].
  apply keeps_with_db. apply keeps_execute. apply keep_insert_conversation.
  exact Hcreating.
Qed.

Lemma update_conversation_keeps (id : Z) (title prompt : json) :
  on id -> keeps P (update_conversation id title prompt).
Proof.
  intros Hon. unfold update_conversation.
  apply keeps_bind; [apply keeps_now_iso | intros timestamp].
  apply keeps_with_db. apply keeps_execute_. intros d d'.
  apply keep_update_row. exact Hon.
Qed.

Lemma append_message_keeps (id : Z) (role content : json) :
  on id -> keeps P (append_message id role content).
Proof.
  intros Hon. unfold append_message. apply keeps_with_db.
  apply keeps_bind; [apply keeps_now_iso | intros created].
  apply keeps_bind; [|intros _].
  { apply keeps_execute_. intros d d'. apply keep_insert_message. exact Hon. }
  apply keeps_bind; [apply keeps_now_iso | intros updated].
  apply keeps_execute_. intros d d'. apply keep_touch_conversation. exact Hon.
Qed.

Lemma insert_each_keeps (id : Z) (msgs : list json) :
  on id -> keeps P (insert_each id msgs).
Proof.
  intros Hon. induction msgs as [|m msgs IH]; simpl.
  - apply keeps_ret.
  - apply keeps_bind; [apply keeps_lift | intros role].
    apply keeps_bind; [apply keeps_lift | intros content].
    apply keeps_bind; [apply keeps_now_iso | intros created].
    apply keeps_bind; [|intros _; exact IH].
    apply keeps_execute_. intros d d'. apply keep_insert_message. exact Hon.
Qed.

Lemma replace_messages_keeps (id : Z) (msgs : list json) :
  on id -> keeps P (replace_messages id msgs).
Proof.
  intros Hon. unfold replace_messages. apply keeps_with_db.
  apply keeps_bind; [|intros _].
  { apply keeps_execute_. intros d d'. apply keep_delete_messages. exact Hon. }
  apply keeps_bind; [apply insert_each_keeps; exact Hon | intros _].
  apply keeps_bind; [apply keeps_now_iso | intros updated].
  apply keeps_execute_. intros d d'. apply keep_touch_conversation. exact Hon.
Qed.

(** What the continuation of [with_conversation] preserves on the
    conversation the path names, the whole opening preserves. *)
Lemma with_conversation_keeps (path : string) (k : Z -> M response) :
  (forall cid, conversation_id_of path = Some cid -> keeps P (k cid)) ->
  keeps P (with_conversation path k).
Proof.
  intros Hk. unfold with_conversation.
  destruct (conversation_id_of path) as [cid|]; [|apply keeps_ret].
  apply keeps_bind; [apply get_conversation_keeps | intros found].
  destruct found; [apply Hk; reflexivity | apply keeps_ret].
Qed.

Lemma chat_or_500_keeps (msgs : list json) : keeps P (chat_or_500 msgs).
Proof.
  intros w w' r HP H. unfold chat_or_500 in H.
  pose proof (llm_chat_keeps_store msgs w) as [Hdb _].
  destruct (llm_chat msgs w) as [[reply|e] w1]; simpl in Hdb.
  - inversion H; subst. rewrite Hdb. exact HP.
  - destruct e; inversion H; subst; rewrite Hdb; exact HP.
Qed.

(** The three routes that name a conversation. *)
Lemma get_messages_keeps (path : string) :
  keeps P (with_conversation path (fun conversation_id =>
             rows <- list_messages conversation_id ;;
             ret (JsonResponse 200 (JObj [("messages", JArr rows)])))).
Proof.
  apply with_conversation_keeps. intros cid _.
  apply keeps_bind; [|intros rows; apply keeps_ret].
  unfold list_messages. apply keeps_with_db. apply keeps_query.
Qed.

Lemma post_message_keeps (path : string) (body : json) :
  (forall cid, conversation_id_of path = Some cid -> on cid) ->
  keeps P (with_conversation path (fun conversation_id =>
             role <- lift (py_get body "role" JNull) ;;
             content <- lift (py_get body "content" (JStr "")) ;;
             known <- lift (in_roles role) ;;
             if negb known then ret (JsonResponse 400 (error_json "invalid role"))
             else
               append_message conversation_id role content ;;;
               ret (JsonResponse 201 (JObj [("ok", JBool true)])))).
Proof.
  intros Hon. apply with_conversation_keeps. intros cid Hid.
  apply keeps_bind; [apply keeps_lift | intros role].
  apply keeps_bind; [apply keeps_lift | intros content].
  apply keeps_bind; [apply keeps_lift | intros known].
  destruct (negb known); [apply keeps_ret|].
  apply keeps_bind; [apply append_message_keeps; auto | intros _; apply keeps_ret].
Qed.

Lemma do_PUT_keeps (path : string) (body : json) :
  (forall cid, conversation_id_of path = Some cid -> on cid) ->
  keeps P (do_PUT path body).
Proof.
  intros Hon. unfold do_PUT.
  destruct (startswith path API_SLASH && negb (endswith path MESSAGES)).
  - apply with_conversation_keeps. intros cid Hid.
    apply keeps_bind; [apply keeps_lift | intros title].
    apply keeps_bind; [apply keeps_lift | intros prompt].
    apply keeps_bind; [apply update_conversation_keeps; auto | intros _].
    apply keeps_bind; [apply get_conversation_keeps | intros updated; apply keeps_ret].
  - destruct (is_messages_path path); [|apply keeps_ret].
    apply with_conversation_keeps. intros cid Hid.
    apply keeps_bind; [apply keeps_lift | intros found].
    destruct found; try apply keeps_ret.
    apply keeps_bind; [apply keeps_lift | intros outcome].
    destruct outcome; [apply keeps_ret|].
    apply keeps_bind; [apply replace_messages_keeps; auto | intros _; apply keeps_ret].
Qed.

Lemma do_GET_keeps (path : string) : keeps P (do_GET path).
Proof.
  unfold do_GET. destruct (String.eqb path API).
  - apply keeps_bind; [|intros rows; apply keeps_ret].
    unfold list_conversations. apply keeps_with_db. apply keeps_query.
  - destruct (is_messages_path path); [|apply keeps_ret].
    apply get_messages_keeps.
Qed.

Lemma do_POST_keeps (path : string) (body : json) :
  (forall cid, conversation_id_of path = Some cid -> on cid) ->
  (path = API -> creating) ->
  keeps P (do_POST path body).
Proof.
  intros Hon Hcreating. unfold do_POST. destruct (String.eqb_spec path API) as [Hapi|_].
  - apply keeps_bind; [apply keeps_lift | intros found_title].
    apply keeps_bind; [apply keeps_lift | intros found_prompt].
    apply keeps_bind; [apply create_conversation_keeps; auto | intros id].
    apply keeps_bind; [apply get_conversation_keeps | intros created; apply keeps_ret].
  - destruct (is_messages_path path); [apply post_message_keeps; exact Hon|].
    destruct (String.eqb path "/api/chat"); [|apply keeps_ret].
    apply keeps_bind; [apply keeps_lift | intros found].
    destruct found; try apply keeps_ret. apply chat_or_500_keeps.
Qed.

Lemma handle_keeps (r : request) :
  (forall cid, conversation_id_of (path_of r) = Some cid -> on cid) ->
  (path_of r = API -> creating) ->
  keeps P (handle r).
Proof.
  intros Hon Hcreating. destruct r as [path|path body|path body]; simpl in *.
  - apply do_GET_keeps.
  - apply do_POST_keeps; assumption.
  - apply do_PUT_keeps. exact Hon.
Qed.

End Keeping.

Lemma handle_keeps_ok (r : request) : keeps store_ok (handle r).
Proof.
  apply (handle_keeps store_ok (fun _ => True) True); auto.
  - intros title prompt created updated _. apply insert_conversation_keeps_ok.
  - intros cid role content created d d' _. apply insert_message_keeps_ok.
  - intros cid d d' _. apply delete_messages_keeps_ok.
  - intros updated cid d d' _. apply touch_conversation_keeps_ok.
  - intros title prompt updated cid d d' _. apply update_row_keeps_ok.
Qed.

Lemma empty_store_ok : store_ok empty_database.
Proof. constructor; simpl; try constructor; unfold INT64_MAX; lia. Qed.

Lemma served_store_ok (w : world) : served w -> store_ok (db w).
Proof.
  induction 1 as [w Hempty | w r Hserved IH].
  - rewrite Hempty. exact empty_store_ok.
  - destruct (handle r w) as [res w'] eqn:H. simpl.
    exact (handle_keeps_ok r w w' res IH H).
Qed.

Lemma chatting_world_served : served chatting_world.
Proof.
  unfold chatting_world. cbn [fold_left].
  do 7 apply served_request. apply served_start. reflexivity.
Qed.

Example chatting_world_store :
  map (fun c => (c_id c, c_title c)) (conversations (db chatting_world))
  = [(1, "Renamed"); (2, "New conversation")]
  /\ map (fun m => (m_id m, m_conversation_id m, m_role m, m_content m))
         (messages (db chatting_world))
     = [(1, 1, "user", "hi"); (2, 2, "assistant", "")].
Proof. split; reflexivity. Qed.

(** X1. Whatever requests a server started on an empty store has
    answered, well-formed or not, the identifiers of both tables are
    positive, strictly ascending in table order (hence distinct) and
    never above the value kept in [sqlite_sequence]. *)
Theorem served_keys (w : world) :
  served w ->
  StronglySorted Z.lt (map c_id (conversations (db w)))
  /\ Forall (fun c => 0 < c_id c <= seq_conversations (db w)) (conversations (db w))
  /\ StronglySorted Z.lt (map m_id (messages (db w)))
  /\ Forall (fun m => 0 < m_id m <= seq_messages (db w)) (messages (db w)).
Proof.
  intros H. destruct (served_store_ok w H). auto.
Qed.

Lemma served_keys_chatting :
  StronglySorted Z.lt (map c_id (conversations (db chatting_world)))
  /\ Forall (fun c => 0 < c_id c <= seq_conversations (db chatting_world))
            (conversations (db chatting_world))
  /\ StronglySorted Z.lt (map m_id (messages (db chatting_world)))
  /\ Forall (fun m => 0 < m_id m <= seq_messages (db chatting_world))
            (messages (db chatting_world)).
Proof. exact (served_keys chatting_world chatting_world_served). Defined.

(** X2. In every such store each message has one of the three roles
    and belongs to a conversation that exists: no request sequence
    leaves an orphan or a message with another role behind. *)
Theorem served_messages_owned (w : world) :
  served w ->
  Forall (fun m => In (m_role m) ROLES
                   /\ exists c, find_conversation (db w) (m_conversation_id m) = Some c)
         (messages (db w)).
Proof.
  intros H. destruct (served_store_ok w H) as [_ _ _ _ _ Hr Ho _].
  rewrite Forall_forall in *. intros m Hm. split.
  - specialize (Hr m Hm). unfold is_role in Hr. apply existsb_exists in Hr.
    destruct Hr as (r & Hin & Heq). apply String.eqb_eq in Heq. subst. exact Hin.
  - specialize (Ho m Hm).
    destruct (find_conversation (db w) (m_conversation_id m)) as [c|];
      [exists c; reflexivity | exfalso; apply Ho; reflexivity].
Qed.

Lemma served_messages_owned_chatting :
  Forall (fun m => In (m_role m) ROLES
                   /\ exists c, find_conversation (db chatting_world)
                                                  (m_conversation_id m) = Some c)
         (messages (db chatting_world)).
Proof. exact (served_messages_owned chatting_world chatting_world_served). Defined.

Lemma served_message_rows (w : world) (cid : Z) :
  served w -> message_rows (db w) cid = messages_of (db w) cid.
Proof.
  intros H. destruct (served_store_ok w H) as [_ _ Hmi _ _ _ _ _].
  unfold message_rows. apply order_by_fixes_sorted.
  apply ascending_ids_sorted. unfold messages_of.
  apply sorted_message_filter. exact Hmi.
Qed.

(** X3. In every such store [ORDER BY id ASC] changes nothing:
    [list_messages] returns the messages of the conversation in the order
    they were inserted. *)
Theorem served_list_is_insertion_order (w : world) (cid : Z) :
  served w ->
  fits_int64 cid = true ->
  list_messages cid w = (Ok (map message_dict (messages_of (db w) cid)), w).
Proof.
  intros H Hfit. rewrite (list_messages_run w cid Hfit).
  rewrite (served_message_rows w cid H). reflexivity.
Qed.

Lemma served_list_is_insertion_order_chatting :
  list_messages 2 chatting_world
  = (Ok (map message_dict (messages_of (db chatting_world) 2)), chatting_world).
Proof.
  apply (served_list_is_insertion_order chatting_world 2).
  - exact chatting_world_served.
  - reflexivity.
Defined.

Lemma no_messages_without_owner (w : world) (cid : Z) :
  served w ->
  find_conversation (db w) cid = None ->
  messages_of (db w) cid = [].
Proof.
  intros H Hnone. destruct (served_store_ok w H) as [_ _ _ _ _ _ Ho _].
  unfold messages_of. rewrite Forall_forall in Ho.
  destruct (filter _ _) as [|m l] eqn:E; [reflexivity|]. exfalso.
  assert (Hin : In m (filter (fun m => m_conversation_id m =? cid) (messages (db w)))).
  { rewrite E. left. reflexivity. }
  apply filter_In in Hin. destruct Hin as [Hin Hc]. apply Z.eqb_eq in Hc.
  apply (Ho m Hin). rewrite Hc. exact Hnone.
Qed.

(** X4. [list_messages] on an identifier that names no conversation is
    not an error: in every such store it returns the empty list. *)
Theorem list_messages_unknown (w : world) (cid : Z) :
  served w ->
  fits_int64 cid = true ->
  find_conversation (db w) cid = None ->
  list_messages cid w = (Ok [], w).
Proof.
  intros H Hfit Hnone. rewrite (list_messages_run w cid Hfit).
  rewrite (served_message_rows w cid H).
  rewrite (no_messages_without_owner w cid H Hnone). reflexivity.
Qed.

Lemma list_messages_unknown_chatting :
  list_messages 3 chatting_world = (Ok [], chatting_world).
Proof.
  apply (list_messages_unknown chatting_world 3).
  - exact chatting_world_served.
  - reflexivity.
  - reflexivity.
Defined.

(** X5. A conversation just created in such a store has no message:
    its fresh identifier was never the owner of one. *)
Theorem created_conversation_is_empty (w w' : world) (title prompt : json) (id : Z) :
  served w ->
  create_conversation title prompt w = (Ok id, w') ->
  list_messages id w' = (Ok [], w')
  /\ (forall other, message_rows (db w') other = message_rows (db w) other).
Proof.
  intros H Hcreate. unfold create_conversation in Hcreate.
  apply bind_inv in Hcreate. destruct Hcreate as [(ts & w1 & H1 & H2) | (e & _ & He)];
    [|discriminate He].
  apply now_iso_inv in H1. destruct H1 as (_ & Hd1 & _ & _).
  apply with_db_inv in H2. destruct H2 as (w2 & H2 & _ & _ & Hout).
  destruct Hout as [(a & _ & ->) | (e & He & _)]; [|discriminate He].
  unfold execute in H2.
  destruct (insert_conversation title prompt ts ts (db w1)) as [[id' d]|e] eqn:Hi;
    [|discriminate H2].
  injection H2 as <- <-.
  assert (Hmsgs : messages d = messages (db w)).
  { unfold insert_conversation in Hi.
    destruct (adapt title) as [vt|]; [|discriminate Hi]. simpl in Hi.
    destruct (adapt prompt) as [vp|]; [|discriminate Hi]. simpl in Hi.
    destruct (new_rowid _ _); [|discriminate Hi]. simpl in Hi.
    destruct (text_not_null vt) as [t|]; [|discriminate Hi]. simpl in Hi.
    destruct (text_not_null vp) as [p|]; [|discriminate Hi]. simpl in Hi.
    injection Hi as _ <-. simpl. rewrite Hd1. reflexivity. }
  assert (Hfit : fits_int64 id' = true).
  { unfold insert_conversation in Hi.
    destruct (adapt title) as [vt|]; [|discriminate Hi]. simpl in Hi.
    destruct (adapt prompt) as [vp|]; [|discriminate Hi]. simpl in Hi.
    unfold new_rowid in Hi. destruct (fits_int64 _) eqn:Hf; [|discriminate Hi].
    simpl in Hi.
    destruct (text_not_null vt) as [t|]; [|discriminate Hi]. simpl in Hi.
    destruct (text_not_null vp) as [p|]; [|discriminate Hi]. simpl in Hi.
    injection Hi as <- _. exact Hf. }
  apply insert_conversation_inv in Hi. destruct Hi as (Hid & _).
  assert (Hrows : forall other, message_rows d other = message_rows (db w) other).
  { intros other. unfold message_rows, messages_of. rewrite Hmsgs. reflexivity. }
  split; [|intros other; apply Hrows].
  rewrite (list_messages_run _ id' Hfit). simpl db.
  rewrite Hrows, (served_message_rows w id' H).
  rewrite (no_messages_without_owner w id' H); [reflexivity|].
  unfold find_conversation. rewrite Hid, Hd1. apply find_fresh_rowid.
Qed.

Lemma created_conversation_is_empty_chatting :
  list_messages 3 (snd (create_conversation (JStr "Third") (JStr "") chatting_world))
  = (Ok [], snd (create_conversation (JStr "Third") (JStr "") chatting_world))
  /\ (forall other,
        message_rows (db (snd (create_conversation (JStr "Third") (JStr "")
                                                   chatting_world))) other
        = message_rows (db chatting_world) other).
Proof.
  apply (created_conversation_is_empty chatting_world _ (JStr "Third") (JStr "") 3).
  - exact chatting_world_served.
  - vm_compute. reflexivity.
Defined.

(* ------------------------------------------------------------------ *)
(** ** Reading, and the two refusals that come before the body *)

Lemma list_conversations_reads (w : world) : snd (list_conversations w) = w.
Proof. unfold list_conversations. rewrite with_db_query. reflexivity. Qed.

Lemma list_messages_reads (w : world) (id : Z) : snd (list_messages id w) = w.
Proof. unfold list_messages. rewrite with_db_query. reflexivity. Qed.

Lemma do_GET_reads (path : string) (w : world) : snd (do_GET path w) = w.
Proof.
  unfold do_GET. destruct (String.eqb path API).
  - unfold bind. pose proof (list_conversations_reads w) as H.
    destruct (list_conversations w) as [[rows|e] w1]; simpl in *; exact H.
  - destruct (is_messages_path path); [|reflexivity].
    unfold with_conversation. destruct (conversation_id_of path) as [cid|]; [|reflexivity].
    unfold bind. rewrite get_conversation_run.
    destruct (adapt_id cid) as [n|]; [|reflexivity]. simpl.
    destruct (find_conversation (db w) n); [|reflexivity]. simpl.
    pose proof (list_messages_reads w cid) as H.
    destruct (list_messages cid w) as [[rows|e] w1]; simpl in *; exact H.
Qed.

(** X6. A GET changes nothing: whatever the path, the store, the clock
    and the trace of outbound requests are afterwards what they were. *)
Theorem do_GET_reads_only (path : string) (w : world) :
  snd (do_GET path w) = w
  /\ (forall r, fst (do_GET path w) = Ok r ->
        match r with
        | JsonResponse status _ => status = 200 \/ status = 400 \/ status = 404
        | ServeStatic route_path => route_path = path /\ is_messages_path path = false
        | SendError _ _ => False
        end).
Proof.
  split; [apply do_GET_reads|].
  unfold do_GET. destruct (String.eqb path API).
  - unfold bind. destruct (list_conversations w) as [[rows|e] w1]; simpl;
      intros r H; [injection H as <-; auto | discriminate H].
  - destruct (is_messages_path path).
    + unfold with_conversation. destruct (conversation_id_of path) as [cid|].
      * unfold bind. rewrite get_conversation_run.
        destruct (adapt_id cid) as [n|]; [|intros r H; discriminate H]. simpl.
        destruct (find_conversation (db w) n); simpl.
        -- destruct (list_messages cid w) as [[rows|e] w1]; simpl;
             intros r H; [injection H as <-; auto | discriminate H].
        -- intros r H. injection H as <-. auto.
      * intros r H. injection H as <-. auto.
    + intros r H. injection H as <-. auto.
Qed.

Lemma with_conversation_invalid (path : string) (k : Z -> M response) (w : world) :
  conversation_id_of path = None ->
  with_conversation path k w = (Ok INVALID_ID, w).
Proof. intros H. unfold with_conversation. rewrite H. reflexivity. Qed.

Lemma with_conversation_missing (path : string) (k : Z -> M response) (w : world)
    (cid : Z) :
  conversation_id_of path = Some cid ->
  fits_int64 cid = true ->
  find_conversation (db w) cid = None ->
  with_conversation path k w = (Ok NOT_FOUND, w).
Proof.
  intros Hid Hfit Hnone. unfold with_conversation. rewrite Hid.
  unfold bind. rewrite get_conversation_run. unfold adapt_id. rewrite Hfit. simpl.
  rewrite Hnone. reflexivity.
Qed.

Lemma with_conversation_overflow (path : string) (k : Z -> M response) (w : world)
    (cid : Z) :
  conversation_id_of path = Some cid ->
  fits_int64 cid = false ->
  with_conversation path k w = (Raise OverflowError, w).
Proof.
  intros Hid Hfit. unfold with_conversation. rewrite Hid.
  unfold bind. rewrite get_conversation_run. unfold adapt_id. rewrite Hfit. reflexivity.
Qed.

(** Every request under [/api/conversations/] that a handler takes up
    starts with [with_conversation]. *)
Lemma conversation_routes (path : string) (w : world) (out : res response * world) :
  startswith path API_SLASH = true ->
  (forall k, with_conversation path k w = out) ->
  answers_all path w out.
Proof.
  intros Hpre Hwith. unfold answers_all. split.
  - intros body. unfold do_PUT. rewrite Hpre. simpl.
    destruct (endswith path MESSAGES) eqn:Hend; simpl.
    + unfold is_messages_path. rewrite Hpre, Hend. simpl. apply Hwith.
    + apply Hwith.
  - intros Hmsg. split.
    + unfold do_GET. rewrite (messages_path_not_api path Hmsg), Hmsg. apply Hwith.
    + intros body. unfold do_POST.
      rewrite (messages_path_not_api path Hmsg), Hmsg. apply Hwith.
Qed.

(** X7. Under [/api/conversations/], a path whose third segment is not
    an integer literal is answered 400 "invalid conversation id" by PUT,
    and by GET and POST when it ends in [/messages]: for every body,
    which is not looked at, and with the world untouched. *)
Theorem invalid_id_precedes_body (path : string) (w : world) :
  startswith path API_SLASH = true ->
  conversation_id_of path = None ->
  answers_all path w (Ok INVALID_ID, w).
Proof.
  intros Hpre Hid. apply conversation_routes; [exact Hpre|].
  intros k. apply with_conversation_invalid. exact Hid.
Qed.

Lemma invalid_id_precedes_body_word :
  answers_all "/api/conversations/first/messages" chatting_world
              (Ok INVALID_ID, chatting_world).
Proof.
  apply (invalid_id_precedes_body "/api/conversations/first/messages" chatting_world).
  - reflexivity.
  - reflexivity.
Defined.

(** X8. When the segment is an integer that names no conversation the
    answer is 404 "conversation not found", again for every body and
    with the world untouched: a body that is not an object, or a role
    that is not one, is not reported for an unknown conversation. *)
Theorem unknown_conversation_precedes_body (path : string) (w : world) (cid : Z) :
  startswith path API_SLASH = true ->
  conversation_id_of path = Some cid ->
  fits_int64 cid = true ->
  find_conversation (db w) cid = None ->
  answers_all path w (Ok NOT_FOUND, w).
Proof.
  intros Hpre Hid Hfit Hnone. apply conversation_routes; [exact Hpre|].
  intros k. apply (with_conversation_missing path k w cid Hid Hfit Hnone).
Qed.

Lemma unknown_conversation_precedes_body_third :
  answers_all "/api/conversations/3/messages" chatting_world
              (Ok NOT_FOUND, chatting_world).
Proof.
  apply (unknown_conversation_precedes_body "/api/conversations/3/messages"
           chatting_world 3).
  - reflexivity.
  - reflexivity.
  - reflexivity.
  - reflexivity.
Defined.

(** X9. An integer outside the 64-bit range passes [int()] and is then
    refused by the first SELECT: the OverflowError escapes all three
    handlers, no response is written, and the world is untouched. *)
Theorem oversized_id_escapes (path : string) (w : world) (cid : Z) :
  startswith path API_SLASH = true ->
  conversation_id_of path = Some cid ->
  fits_int64 cid = false ->
  answers_all path w (Raise OverflowError, w).
Proof.
  intros Hpre Hid Hfit. apply conversation_routes; [exact Hpre|].
  intros k. apply (with_conversation_overflow path k w cid Hid Hfit).
Qed.

Lemma oversized_id_escapes_two_to_the_63 :
  answers_all "/api/conversations/9223372036854775808/messages" chatting_world
              (Raise OverflowError, chatting_world).
Proof.
  apply (oversized_id_escapes "/api/conversations/9223372036854775808/messages"
           chatting_world 9223372036854775808).
  - reflexivity.
  - reflexivity.
  - reflexivity.
Defined.

(* ------------------------------------------------------------------ *)
(** ** What a statement does to the store *)

Lemma adapt_id_inv (cid n : Z) : adapt_id cid = Ok n -> n = cid /\ fits_int64 cid = true.
Proof.
  unfold adapt_id. destruct (fits_int64 cid); [|discriminate].
  intros H. injection H as <-. split; reflexivity.
Qed.

Lemma insert_conversation_shape (title prompt : json) (created updated : string)
    (d d' : database) (id : Z) :
  insert_conversation title prompt created updated d = Ok (id, d') ->
  exists t p,
    d' = mkDatabase (conversations d ++ [mkConversation id t p created updated])
                    (messages d) id (seq_messages d)
    /\ id = next_rowid (seq_conversations d) (map c_id (conversations d)).
Proof.
  intros H. unfold insert_conversation in H.
  destruct (adapt title) as [vt|]; [|discriminate H]. simpl in H.
  destruct (adapt prompt) as [vp|]; [|discriminate H]. simpl in H.
  unfold new_rowid in H. destruct (fits_int64 _); [|discriminate H]. simpl in H.
  destruct (text_not_null vt) as [t|]; [|discriminate H]. simpl in H.
  destruct (text_not_null vp) as [p|]; [|discriminate H]. simpl in H.
  injection H as <- <-. exists t, p. split; reflexivity.
Qed.

Lemma insert_message_shape (cid : Z) (role content : json) (created : string)
    (d d' : database) :
  insert_message cid role content created d = Ok d' ->
  exists m,
    d' = mkDatabase (conversations d) (messages d ++ [m]) (seq_conversations d) (m_id m)
    /\ m_id m = next_rowid (seq_messages d) (map m_id (messages d))
    /\ m_conversation_id m = cid
    /\ m_created_at m = created.
Proof.
  intros H. unfold insert_message in H.
  destruct (adapt_id cid) as [n|] eqn:Hn; [|discriminate H]. simpl in H.
  apply adapt_id_inv in Hn. destruct Hn as [-> _].
  destruct (adapt role) as [vr|]; [|discriminate H]. simpl in H.
  destruct (adapt content) as [vc|]; [|discriminate H]. simpl in H.
  unfold new_rowid in H. destruct (fits_int64 _); [|discriminate H]. simpl in H.
  destruct (text_not_null vr) as [r|]; [|discriminate H]. simpl in H.
  destruct (text_not_null vc) as [c|]; [|discriminate H]. simpl in H.
  destruct (is_role r); [|discriminate H]. simpl in H.
  destruct (find_conversation d cid); [|discriminate H].
  injection H as <-. eexists (mkMessage _ cid r c created). simpl.
  repeat split; reflexivity.
Qed.

Lemma delete_messages_shape (cid : Z) (d d' : database) :
  delete_messages cid d = Ok d' ->
  d' = mkDatabase (conversations d)
                  (filter (fun m => negb (m_conversation_id m =? cid)) (messages d))
                  (seq_conversations d) (seq_messages d).
Proof.
  intros H. unfold delete_messages in H.
  destruct (adapt_id cid) as [n|] eqn:Hn; [|discriminate H]. simpl in H.
  apply adapt_id_inv in Hn. destruct Hn as [-> _]. injection H as <-. reflexivity.
Qed.

Lemma rewrites_same (cid : Z) (d : database) : rewrites cid d d.
Proof.
  exists (fun c => c). rewrite map_id. destruct d. split; [reflexivity|].
  intros c. repeat split; reflexivity.
Qed.

Lemma touch_conversation_shape (updated : string) (cid : Z) (d d' : database) :
  touch_conversation updated cid d = Ok d' -> rewrites cid d d'.
Proof.
  intros H. unfold touch_conversation in H.
  destruct (adapt_id cid) as [n|] eqn:Hn; [|discriminate H]. simpl in H.
  apply adapt_id_inv in Hn. destruct Hn as [-> _]. injection H as <-.
  eexists. split; [reflexivity|]. intros c. simpl.
  destruct (Z.eqb_spec (c_id c) cid); repeat split; try reflexivity.
  intros Hne. contradiction.
Qed.

Lemma update_row_shape (title prompt : option json) (updated : string) (cid : Z)
    (d d' : database) :
  update_row title prompt updated cid d = Ok d' -> rewrites cid d d'.
Proof.
  intros H. unfold update_row in H.
  destruct (match title with Some v => _ | None => _ end) as [vt|]; [|discriminate H].
  simpl in H.
  destruct (match prompt with Some v => _ | None => _ end) as [vp|]; [|discriminate H].
  simpl in H.
  destruct (adapt_id cid) as [n|] eqn:Hn; [|discriminate H]. simpl in H.
  apply adapt_id_inv in Hn. destruct Hn as [-> _].
  destruct (find_conversation d cid) as [found|].
  - destruct (match vt with Some x => _ | None => _ end) as [nt|]; [|discriminate H].
    simpl in H.
    destruct (match vp with Some x => _ | None => _ end) as [np|]; [|discriminate H].
    simpl in H. injection H as <-.
    eexists. split; [reflexivity|]. intros c. simpl.
    destruct (Z.eqb_spec (c_id c) cid); repeat split; try reflexivity.
    intros Hne. contradiction.
  - injection H as <-. apply rewrites_same.
Qed.

(* ------------------------------------------------------------------ *)
(** ** A request on one conversation leaves the others alone *)

Lemma filter_other_after_delete (cid other : Z) (l : list message) :
  other <> cid ->
  filter (fun m => m_conversation_id m =? other)
         (filter (fun m => negb (m_conversation_id m =? cid)) l)
  = filter (fun m => m_conversation_id m =? other) l.
Proof.
  intros Hne. induction l as [|m l IH]; simpl; [reflexivity|].
  destruct (Z.eqb_spec (m_conversation_id m) cid) as [Hc|Hc]; simpl.
  - destruct (Z.eqb_spec (m_conversation_id m) other) as [Ho|Ho]; [|exact IH].
    exfalso. apply Hne. rewrite <- Ho. exact Hc.
  - rewrite IH. reflexivity.
Qed.

Lemma rewrites_view (cid other : Z) (d d' : database) :
  other <> cid -> rewrites cid d d' ->
  conversation_view d' other = conversation_view d other.
Proof.
  intros Hne (f & -> & Hf). unfold conversation_view, find_conversation, messages_of.
  simpl. f_equal.
  rewrite (find_conversation_map f _ other (fun c => proj1 (Hf c))).
  destruct (find (fun c => c_id c =? other) (conversations d)) as [c|] eqn:E;
    [|reflexivity].
  simpl. f_equal. apply Hf.
  apply find_some in E. destruct E as [_ E]. apply Z.eqb_eq in E. rewrite E. exact Hne.
Qed.

(** X10. A request whose path names the conversation [cid] changes
    nothing of any other conversation: its row and its messages are
    afterwards what they were, for every method and body and however the
    request ends. *)
Theorem named_request_frame (r : request) (cid other : Z) (w : world) :
  conversation_id_of (path_of r) = Some cid ->
  other <> cid ->
  conversation_view (db (snd (handle r w))) other = conversation_view (db w) other.
Proof.
  intros Hid Hne.
  destruct (handle r w) as [res w'] eqn:H. simpl.
  refine (handle_keeps
            (fun d => conversation_view d other = conversation_view (db w) other)
            (fun c => c = cid) False _ _ _ _ _ r _ _ w w' res eq_refl H).
  - intros title prompt created updated [].
  - intros c role content created d d' -> HP Hins.
    apply insert_message_shape in Hins. destruct Hins as (m & -> & _ & Hm & _).
    rewrite <- HP. unfold conversation_view, find_conversation, messages_of. simpl.
    f_equal. rewrite filter_app. simpl. rewrite Hm.
    destruct (Z.eqb_spec cid other) as [E|_]; [exfalso; apply Hne; symmetry; exact E|].
    apply app_nil_r.
  - intros c d d' -> HP Hdel. apply delete_messages_shape in Hdel. subst d'.
    rewrite <- HP. unfold conversation_view, find_conversation, messages_of. simpl.
    f_equal. apply filter_other_after_delete. exact Hne.
  - intros updated c d d' -> HP Htouch. apply touch_conversation_shape in Htouch.
    rewrite <- HP. apply (rewrites_view cid other d d' Hne Htouch).
  - intros title prompt updated c d d' -> HP Hup. apply update_row_shape in Hup.
    rewrite <- HP. apply (rewrites_view cid other d d' Hne Hup).
  - intros c Hc. rewrite Hid in Hc. injection Hc as <-. reflexivity.
  - intros Hapi. rewrite Hapi in Hid. discriminate Hid.
Qed.

Lemma named_request_frame_replace :
  conversation_view
    (db (snd (handle (PUT "/api/conversations/2/messages"
                          (JObj [("messages", JArr [user_says "again"])]))
                     chatting_world))) 1
  = conversation_view (db chatting_world) 1.
Proof.
  apply (named_request_frame
           (PUT "/api/conversations/2/messages"
                (JObj [("messages", JArr [user_says "again"])])) 2 1 chatting_world).
  - reflexivity.
  - discriminate.
Defined.

(* ------------------------------------------------------------------ *)
(** ** Nothing is taken back *)

Lemma extends_refl (d : database) : extends d d.
Proof.
  unfold extends. repeat split; try lia.
  - intros c Hc. exists c. repeat split; try reflexivity. exact Hc.
  - intros m Hm. left. exact Hm.
Qed.

Lemma extends_trans (d1 d2 d3 : database) :
  extends d1 d2 -> extends d2 d3 -> extends d1 d3.
Proof.
  intros (Hc1 & Hm1 & Hk1 & Hn1) (Hc2 & Hm2 & Hk2 & Hn2). unfold extends.
  repeat split; try lia.
  - intros c Hc. destruct (Hk1 c Hc) as (c' & Hin' & Hid' & Hcr').
    destruct (Hk2 c' Hin') as (c'' & Hin'' & Hid'' & Hcr'').
    exists c''. repeat split; [exact Hin'' | congruence | congruence].
  - intros m Hm. destruct (Hn2 m Hm) as [Hin|Hnew]; [|right; lia].
    exact (Hn1 m Hin).
Qed.

Lemma rewrites_extends (cid : Z) (d d' : database) : rewrites cid d d' -> extends d d'.
Proof.
  intros (f & -> & Hf). unfold extends. simpl. repeat split; try lia.
  - intros c Hc. exists (f c). destruct (Hf c) as (Hid & Hcr & _).
    repeat split; [apply in_map; exact Hc| |]; assumption.
  - intros m Hm. left. exact Hm.
Qed.

Lemma insert_conversation_extends (title prompt : json) (created updated : string)
    (d d' : database) (id : Z) :
  insert_conversation title prompt created updated d = Ok (id, d') -> extends d d'.
Proof.
  intros H. apply insert_conversation_shape in H. destruct H as (t & p & -> & ->).
  destruct (below_next_rowid (seq_conversations d) (map c_id (conversations d)))
    as [Hseq _].
  unfold extends. simpl. repeat split; try lia.
  - intros c Hc. exists c. repeat split; try reflexivity.
    apply in_or_app. left. exact Hc.
  - intros m Hm. left. exact Hm.
Qed.

Lemma insert_message_extends (cid : Z) (role content : json) (created : string)
    (d d' : database) :
  insert_message cid role content created d = Ok d' -> extends d d'.
Proof.
  intros H. apply insert_message_shape in H. destruct H as (m & -> & Hid & _).
  destruct (below_next_rowid (seq_messages d) (map m_id (messages d))) as [Hseq _].
  unfold extends. simpl. repeat split; try lia.
  - intros c Hc. exists c. repeat split; try reflexivity. exact Hc.
  - intros m' Hm'. apply in_app_or in Hm'. destruct Hm' as [Hold|[<-|[]]].
    + left. exact Hold.
    + right. lia.
Qed.

Lemma delete_messages_extends (cid : Z) (d d' : database) :
  delete_messages cid d = Ok d' -> extends d d'.
Proof.
  intros H. apply delete_messages_shape in H. subst d'.
  unfold extends. simpl. repeat split; try lia.
  - intros c Hc. exists c. repeat split; try reflexivity. exact Hc.
  - intros m Hm. left. apply filter_In in Hm. apply Hm.
Qed.

Lemma handle_extends (r : request) (w : world) :
  extends (db w) (db (snd (handle r w))).
Proof.
  destruct (handle r w) as [res w'] eqn:H. simpl.
  refine (handle_keeps (extends (db w)) (fun _ => True) True _ _ _ _ _ r _ _
                       w w' res (extends_refl (db w)) H); auto.
  - intros title prompt created updated _ d d' id HP Hins.
    exact (extends_trans _ _ _ HP (insert_conversation_extends _ _ _ _ _ _ _ Hins)).
  - intros c role content created d d' _ HP Hins.
    exact (extends_trans _ _ _ HP (insert_message_extends _ _ _ _ _ _ Hins)).
  - intros c d d' _ HP Hdel.
    exact (extends_trans _ _ _ HP (delete_messages_extends _ _ _ Hdel)).
  - intros updated c d d' _ HP Htouch.
    exact (extends_trans _ _ _ HP
             (rewrites_extends c _ _ (touch_conversation_shape _ _ _ _ Htouch))).
  - intros title prompt updated c d d' _ HP Hup.
    exact (extends_trans _ _ _ HP
             (rewrites_extends c _ _ (update_row_shape _ _ _ _ _ _ Hup))).
Qed.

(** X11. No request takes anything back.  Whatever the request and
    the world, afterwards the two AUTOINCREMENT counters have not
    decreased, every conversation is still there with its id and
    creation time (no route deletes one), and every message in the store
    is a message that was there, unchanged in every field, or carries an
    id above the counter: messages are never edited and ids never used
    again, also after a replacement. *)
Theorem requests_take_nothing_back (r : request) (w : world) :
  seq_conversations (db w) <= seq_conversations (db (snd (handle r w)))
  /\ seq_messages (db w) <= seq_messages (db (snd (handle r w)))
  /\ (forall c, In c (conversations (db w)) ->
        exists c', In c' (conversations (db (snd (handle r w))))
                   /\ c_id c' = c_id c /\ c_created_at c' = c_created_at c)
  /\ (forall m, In m (messages (db (snd (handle r w)))) ->
        In m (messages (db w)) \/ seq_messages (db w) < m_id m).
Proof. exact (handle_extends r w). Qed.

(* ------------------------------------------------------------------ *)
(** ** One request, at most one write *)

Lemma with_conversation_cases (path : string) (k : Z -> M response) (w : world) :
  snd (with_conversation path k w) = w
  \/ exists cid, conversation_id_of path = Some cid
                 /\ with_conversation path k w = k cid w.
Proof.
  unfold with_conversation. destruct (conversation_id_of path) as [cid|]; [|left; reflexivity].
  unfold bind. rewrite get_conversation_run.
  destruct (adapt_id cid) as [n|]; [|left; reflexivity]. simpl.
  destruct (find_conversation (db w) n); [|left; reflexivity].
  right. exists cid. split; reflexivity.
Qed.

Lemma same_store_refl (w : world) : same_store w w.
Proof. repeat split. Qed.

Lemma llm_chat_same_store (msgs : list json) (w : world) :
  same_store w (snd (llm_chat msgs w)).
Proof.
  unfold llm_chat, same_store. destruct (no_credential w); [repeat split|].
  unfold bind, build_request, urlopen.
  destruct (network w (chat_request w msgs)) eqn:Hnet; simpl; try rewrite Hnet;
    simpl; repeat split.
Qed.

(** As far as the store and the clock go, a request is one call of a
    writing storage function, or nothing. *)
Lemma handle_one_call (r : request) (w : world) :
  same_store w (snd (handle r w)) \/ exists c, snd (handle r w) = run c w.
Proof.
  destruct r as [path|path body|path body]; simpl.
  - left. rewrite do_GET_reads. apply same_store_refl.
  - unfold do_POST. destruct (String.eqb path API).
    + unfold bind, lift.
      destruct (py_get body "title" JNull) as [t|]; [|left; apply same_store_refl].
      destruct (py_get body "systemPrompt" JNull) as [p|]; [|left; apply same_store_refl].
      right. exists (CreateConversation (py_or t (JStr "New conversation"))
                                        (py_or p (JStr ""))).
      simpl.
      destruct (create_conversation _ _ w) as [[id|e] w1]; [|reflexivity].
      rewrite get_conversation_run. simpl.
      destruct (res_bind _ _); reflexivity.
    + destruct (is_messages_path path).
      * destruct (with_conversation_cases path
                    (fun conversation_id =>
                       role <- lift (py_get body "role" JNull) ;;
                       content <- lift (py_get body "content" (JStr "")) ;;
                       known <- lift (in_roles role) ;;
                       if negb known then ret (JsonResponse 400 (error_json "invalid role"))
                       else
                         append_message conversation_id role content ;;;
                         ret (JsonResponse 201 (JObj [("ok", JBool true)]))) w)
          as [Hsame | (cid & _ & Hrun)].
        -- left. rewrite Hsame. apply same_store_refl.
        -- rewrite Hrun. unfold bind, lift.
           destruct (py_get body "role" JNull) as [role|]; [|left; apply same_store_refl].
           destruct (py_get body "content" (JStr "")) as [content|];
             [|left; apply same_store_refl].
           destruct (in_roles role) as [known|]; [|left; apply same_store_refl].
           destruct known; simpl; [|left; apply same_store_refl].
           right. exists (AppendMessage cid role content). simpl.
           destruct (append_message cid role content w) as [[u|e] w1]; reflexivity.
      * destruct (String.eqb path "/api/chat"); [|left; apply same_store_refl].
        unfold bind, lift.
        destruct (py_get body "messages" (JArr [])) as [found|];
          [|left; apply same_store_refl].
        destruct found; try (left; apply same_store_refl).
        left. unfold chat_or_500. pose proof (llm_chat_same_store items w) as H.
        destruct (llm_chat items w) as [[reply|e] w1]; [exact H|].
        destruct e; exact H.
  - unfold do_PUT.
    destruct (startswith path API_SLASH && negb (endswith path MESSAGES)).
    + destruct (with_conversation_cases path
                  (fun conversation_id =>
                     title <- lift (py_get body "title" JNull) ;;
                     system_prompt <- lift (py_get body "systemPrompt" JNull) ;;
                     update_conversation conversation_id title system_prompt ;;;
                     updated <- get_conversation conversation_id ;;
                     ret (JsonResponse 200
                            (JObj [("conversation",
                                    match updated with Some c => c | None => JNull end)]))) w)
        as [Hsame | (cid & _ & Hrun)].
      * left. rewrite Hsame. apply same_store_refl.
      * rewrite Hrun. unfold bind, lift.
        destruct (py_get body "title" JNull) as [t|]; [|left; apply same_store_refl].
        destruct (py_get body "systemPrompt" JNull) as [p|]; [|left; apply same_store_refl].
        right. exists (UpdateConversation cid t p). simpl.
        destruct (update_conversation cid t p w) as [[u|e] w1]; [|reflexivity].
        rewrite get_conversation_run. simpl. destruct (res_bind _ _); reflexivity.
    + destruct (is_messages_path path); [|left; apply same_store_refl].
      destruct (with_conversation_cases path
                  (fun conversation_id =>
                     found <- lift (py_get body "messages" (JArr [])) ;;
                     match found with
                     | JArr msgs =>
                         outcome <- lift (clean_messages msgs []) ;;
                         match outcome with
                         | inl early => ret early
                         | inr cleaned =>
                             replace_messages conversation_id cleaned ;;;
                             ret (JsonResponse 200 (JObj [("ok", JBool true)]))
                         end
                     | _ => ret (JsonResponse 400 (error_json "messages must be an array"))
                     end) w)
        as [Hsame | (cid & _ & Hrun)].
      * left. rewrite Hsame. apply same_store_refl.
      * rewrite Hrun. unfold bind, lift.
        destruct (py_get body "messages" (JArr [])) as [found|];
          [|left; apply same_store_refl].
        destruct found; try (left; apply same_store_refl).
        destruct (clean_messages items []) as [[early|cleaned]|];
          try (left; apply same_store_refl).
        right. exists (ReplaceMessages cid cleaned). simpl.
        destruct (replace_messages cid cleaned w) as [[u|e] w1]; reflexivity.
Qed.

Lemma served_in_order (w : world) :
  served w -> clock_monotone w -> stamps_in_order w.
Proof.
  induction 1 as [w Hempty | w r Hserved IH]; intros Hclock.
  - unfold stamps_in_order. rewrite Hempty. constructor.
  - destruct (handle_one_call r w) as [(Hdb & Hc & Ht) | (c & Hrun)].
    + unfold clock_monotone in Hclock. rewrite Hc in Hclock.
      unfold stamps_in_order. rewrite Hdb, Hc, Ht. apply IH. exact Hclock.
    + rewrite Hrun in *. pose proof (run_evolves c w) as Hev.
      assert (Hmono : clock_monotone w).
      { destruct Hev as (Hc & _). unfold clock_monotone in *.
        rewrite Hc in Hclock. exact Hclock. }
      exact (evolves_keeps_order w (run c w) Hmono Hev (IH Hmono)).
Qed.

Lemma chatting_world_clock : clock chatting_world = sample_clock.
Proof. vm_compute. reflexivity. Qed.

(** X12. As long as the clock does not go back, the store a server has
    reached by answering requests shows every conversation created no
    later than it was last updated, and last updated no later than the
    next reading of the clock; and whatever a request does to the store
    and the clock, one call of a writing storage function does. *)
Theorem served_stamps_in_order (w : world) :
  served w ->
  clock_monotone w ->
  Forall (fun c => stamp_le (c_created_at c) (c_updated_at c)
                   /\ stamp_le (c_updated_at c) (clock w (ticks w)))
         (conversations (db w))
  /\ (forall r, same_store w (snd (handle r w)) \/ exists c, snd (handle r w) = run c w).
Proof.
  intros Hserved Hclock. split.
  - exact (served_in_order w Hserved Hclock).
  - intros r. apply handle_one_call.
Qed.

Lemma served_stamps_in_order_chatting :
  Forall (fun c => stamp_le (c_created_at c) (c_updated_at c)
                   /\ stamp_le (c_updated_at c)
                               (clock chatting_world (ticks chatting_world)))
         (conversations (db chatting_world))
  /\ (forall r, same_store chatting_world (snd (handle r chatting_world))
                \/ exists c, snd (handle r chatting_world) = run c chatting_world).
Proof.
  apply (served_stamps_in_order chatting_world).
  - exact chatting_world_served.
  - intros i j Hij. rewrite chatting_world_clock. apply sample_clock_monotone. exact Hij.
Defined.

(* ------------------------------------------------------------------ *)
(** ** [append_message], accepted and refused *)

Lemma store_ok_top (d : database) : store_ok d -> top_message_id d = seq_messages d.
Proof.
  intros [_ _ _ Hms _ _ _ _]. unfold top_message_id.
  pose proof (fold_max_seed (seq_messages d) (map m_id (messages d))) as Hlow.
  assert (Hhigh : fold_right Z.max (seq_messages d) (map m_id (messages d))
                  <= seq_messages d).
  { apply fold_max_bound; [lia|]. apply Forall_map.
    eapply Forall_impl; [|exact Hms]. simpl. intros m Hm. lia. }
  lia.
Qed.

Lemma store_ok_fits (d : database) (cid : Z) (c : conversation) :
  store_ok d -> find_conversation d cid = Some c -> fits_int64 cid = true.
Proof.
  intros [_ Hcs _ _ _ _ _ [Hroom _]] Hfind.
  pose proof (find_conversation_id d cid c Hfind) as Hid.
  apply find_some in Hfind. destruct Hfind as [Hin _].
  rewrite Forall_forall in Hcs. specialize (Hcs c Hin).
  apply fits_int64_range. lia.
Qed.

Lemma store_ok_message_rows (d : database) (cid : Z) :
  store_ok d -> message_rows d cid = messages_of d cid.
Proof.
  intros [_ _ Hmi _ _ _ _ _].
  unfold message_rows. apply order_by_fixes_sorted.
  apply ascending_ids_sorted. unfold messages_of.
  apply sorted_message_filter. exact Hmi.
Qed.

(** X13. In a store reached by requests, [append_message] on an
    existing conversation, with one of the three roles and a content the
    column can hold, succeeds when the table has an id left, and
    [list_messages] then shows what it showed before followed by the new
    message.  The new id is one more than the counter of
    [sqlite_sequence]; the message is stamped with the first reading of
    the clock and the conversation with the second. *)
Theorem append_then_list (w : world) (cid : Z) (conv : conversation) (r : string)
    (v : json) (t : string) :
  served w ->
  find_conversation (db w) cid = Some conv ->
  is_role r = true ->
  stored_text v = Ok t ->
  seq_messages (db w) < INT64_MAX ->
  exists w',
    append_message cid (JStr r) v w = (Ok tt, w')
    /\ message_rows (db w') cid
       = (message_rows (db w) cid
          ++ [mkMessage (seq_messages (db w) + 1) cid r t (clock w (ticks w))])%list
    /\ find_conversation (db w') cid = Some (touched conv (clock w (S (ticks w))))
    /\ ticks w' = S (S (ticks w)).
Proof.
  intros Hserved Hfind Hrole Htext Hroom.
  pose proof (served_store_ok w Hserved) as Hok.
  pose proof (store_ok_fits _ _ _ Hok Hfind) as Hfit.
  pose proof (store_ok_top _ Hok) as Htop.
  assert (Hseq : 0 <= seq_messages (db w)) by (destruct Hok as [_ _ _ _ [_ H] _ _ _]; exact H).
  assert (Hins := insert_message_run cid conv r v t (clock w (ticks w)) (db w)
                    Hfit Hfind Hrole Htext Hseq).
  rewrite Htop in Hins. specialize (Hins ltac:(lia)).
  set (m := mkMessage (seq_messages (db w) + 1) cid r t (clock w (ticks w))) in *.
  set (d1 := mkDatabase (conversations (db w)) (messages (db w) ++ [m])
                        (seq_conversations (db w)) (seq_messages (db w) + 1)) in *.
  assert (Hok1 : store_ok d1) by exact (insert_message_keeps_ok _ _ _ _ _ _ Hok Hins).
  destruct (touch_conversation (clock w (S (ticks w))) cid d1) as [d2|] eqn:Htouch.
  2:{ unfold touch_conversation, adapt_id in Htouch. rewrite Hfit in Htouch.
      discriminate Htouch. }
  assert (Hok2 : store_ok d2) by exact (touch_conversation_keeps_ok _ _ _ _ Hok1 Htouch).
  exists (mkWorld d2 (clock w) (S (S (ticks w))) (environ w) (network w) (sent w)).
  split; [|split; [|split; [|reflexivity]]].
  - unfold append_message, with_db, bind, now_iso, execute_, execute. simpl db.
    rewrite Hins. simpl. rewrite Htouch. reflexivity.
  - simpl db. rewrite (store_ok_message_rows d2 cid Hok2).
    rewrite (store_ok_message_rows (db w) cid Hok).
    unfold touch_conversation, adapt_id in Htouch. rewrite Hfit in Htouch.
    simpl in Htouch. injection Htouch as <-.
    unfold messages_of. simpl. rewrite filter_app. simpl. rewrite Z.eqb_refl.
    reflexivity.
  - simpl db. unfold touch_conversation, adapt_id in Htouch. rewrite Hfit in Htouch.
    simpl in Htouch. injection Htouch as <-.
    pose proof (find_conversation_id (db w) cid conv Hfind) as Hid.
    unfold find_conversation in *. simpl.
    rewrite find_conversation_map by (intros c; destruct (c_id c =? cid); reflexivity).
    rewrite Hfind. simpl. unfold touched. rewrite Hid, Z.eqb_refl. reflexivity.
Qed.

Lemma append_then_list_number :
  exists w',
    append_message 1 (JStr "assistant") (JInt 42) chatting_world = (Ok tt, w')
    /\ message_rows (db w') 1
       = (message_rows (db chatting_world) 1
          ++ [mkMessage (seq_messages (db chatting_world) + 1) 1 "assistant" "42"
                        (clock chatting_world (ticks chatting_world))])%list
    /\ find_conversation (db w') 1
       = Some (touched (mkConversation 1 "Renamed" "" (sample_clock 0) (sample_clock 6))
                       (clock chatting_world (S (ticks chatting_world))))
    /\ ticks w' = S (S (ticks chatting_world)).
Proof.
  apply (append_then_list chatting_world 1
           (mkConversation 1 "Renamed" "" (sample_clock 0) (sample_clock 6))
           "assistant" (JInt 42) "42").
  - exact chatting_world_served.
  - vm_compute. reflexivity.
  - reflexivity.
  - reflexivity.
  - vm_compute. reflexivity.
Defined.

Lemma new_message_rowid (d : database) :
  0 <= seq_messages d ->
  top_message_id d + 1 <= INT64_MAX ->
  new_rowid (seq_messages d) (map m_id (messages d)) = Ok (top_message_id d + 1).
Proof.
  intros Hseq Hroom. unfold new_rowid, next_rowid. fold (top_message_id d).
  rewrite fits_int64_range; [reflexivity|].
  pose proof (fold_max_seed (seq_messages d) (map m_id (messages d))).
  unfold top_message_id in *. lia.
Qed.

(** An INSERT that a constraint refuses, on a table that has a rowid
    left. *)
Lemma insert_message_refused (cid : Z) (r : string) (v : json) (sv : sqlval)
    (created : string) (d : database) :
  fits_int64 cid = true ->
  adapt v = Ok sv ->
  0 <= seq_messages d ->
  top_message_id d + 1 <= INT64_MAX ->
  is_role r = false \/ find_conversation d cid = None \/ v = JNull ->
  insert_message cid (JStr r) v created d = Raise IntegrityError.
Proof.
  intros Hfit Hadapt Hseq Hroom Hwhy.
  unfold insert_message, adapt_id. rewrite Hfit. simpl.
  rewrite Hadapt. simpl. rewrite (new_message_rowid d Hseq Hroom). simpl.
  destruct sv as [|n|s]; simpl; [reflexivity| |].
  - destruct (is_role r) eqn:Hr; simpl; [|reflexivity].
    destruct (find_conversation d cid) eqn:Hf; [|reflexivity].
    destruct Hwhy as [H|[H|H]]; [discriminate H | discriminate H|].
    subst v. discriminate Hadapt.
  - destruct (is_role r) eqn:Hr; simpl; [|reflexivity].
    destruct (find_conversation d cid) eqn:Hf; [|reflexivity].
    destruct Hwhy as [H|[H|H]]; [discriminate H | discriminate H|].
    subst v. discriminate Hadapt.
Qed.

(** X14. On a table that has a rowid left, [append_message] is refused
    with IntegrityError, and the store rolled back to what it was, when
    the role is a string outside the three (the CHECK), when the
    conversation does not exist (the foreign key), and when the content
    is None (NOT NULL).  The clock has been read once by then.  On a
    table without a rowid left the INSERT fails before any constraint
    is looked at, with OperationalError. *)
Theorem append_message_refused (w : world) (cid : Z) (r : string) (v : json)
    (sv : sqlval) :
  fits_int64 cid = true ->
  adapt v = Ok sv ->
  0 <= seq_messages (db w) ->
  top_message_id (db w) + 1 <= INT64_MAX ->
  is_role r = false \/ find_conversation (db w) cid = None \/ v = JNull ->
  fst (append_message cid (JStr r) v w) = Raise IntegrityError
  /\ db (snd (append_message cid (JStr r) v w)) = db w
  /\ ticks (snd (append_message cid (JStr r) v w)) = S (ticks w).
Proof.
  intros Hfit Hadapt Hseq Hroom Hwhy.
  unfold append_message, with_db, bind, now_iso, execute_, execute. simpl db.
  rewrite (insert_message_refused cid r v sv _ (db w) Hfit Hadapt Hseq Hroom Hwhy).
  simpl. repeat split; reflexivity.
Qed.

Lemma append_message_refused_orphan :
  fst (append_message 3 (JStr "user") (JStr "hi") chatting_world) = Raise IntegrityError
  /\ db (snd (append_message 3 (JStr "user") (JStr "hi") chatting_world))
     = db chatting_world
  /\ ticks (snd (append_message 3 (JStr "user") (JStr "hi") chatting_world))
     = S (ticks chatting_world).
Proof.
  apply (append_message_refused chatting_world 3 "user" (JStr "hi") (SText "hi")).
  - reflexivity.
  - reflexivity.
  - vm_compute. discriminate.
  - vm_compute. discriminate.
  - right. left. vm_compute. reflexivity.
Defined.

Example full_table_is_reported_first :
  fst (append_message 1 (JStr "robot") JNull
         (set_db one_conversation_world
                 (mkDatabase (conversations (db one_conversation_world)) [] 1 INT64_MAX)))
  = Raise OperationalError.
Proof. vm_compute. reflexivity. Qed.

(* ------------------------------------------------------------------ *)
(** ** [replace_messages]: all of the list or nothing *)

Lemma insert_each_app (cid : Z) (a b : list json) (w : world) :
  insert_each cid (a ++ b) w
  = match insert_each cid a w with
    | (Ok _, w1) => insert_each cid b w1
    | (Raise e, w1) => (Raise e, w1)
    end.
Proof.
  revert w. induction a as [|m a IH]; intros w; [reflexivity|].
  cbn [insert_each app]. unfold bind, lift, now_iso.
  destruct (py_getitem m "role") as [role|]; [|reflexivity].
  destruct (py_getitem m "content") as [content|]; [|reflexivity].
  destruct (execute_ _ _) as [[u|e] w1]; [|reflexivity].
  apply IH.
Qed.

Lemma with_db_raises {A} (block : M A) (w : world) (e : exn) :
  fst (block w) = Raise e ->
  fst (with_db block w) = Raise e /\ db (snd (with_db block w)) = db w.
Proof.
  intros H. unfold with_db. destruct (block w) as [[a|e'] w1]; simpl in *.
  - discriminate H.
  - split; [exact H | reflexivity].
Qed.

Lemma insert_each_unstorable (cid : Z) (c : conversation) (bad : json) (e : exn)
    (rest : list json) (items : list item) :
  fits_int64 cid = true ->
  unstorable bad e ->
  Forall item_ok items ->
  forall w,
    find_conversation (db w) cid = Some c ->
    0 <= seq_messages (db w) ->
    top_message_id (db w) + Z.of_nat (List.length items) + 1 <= INT64_MAX ->
    fst (insert_each cid (map item_message items ++ bad :: rest)%list w) = Raise e.
Proof.
  intros Hfit Hbad Hitems.
  induction Hitems as [|[r v t] items [Hr Hv] _ IH]; intros w Hfind Hseq Hroom.
  - simpl List.length in Hroom. simpl app. cbn [insert_each]. unfold bind, lift.
    destruct Hbad as [d Hrole | d role Hrole Hcontent | d r v sv Hrole Hnot Hcontent Hadapt];
      simpl py_getitem.
    + rewrite Hrole. reflexivity.
    + rewrite Hrole, Hcontent. reflexivity.
    + rewrite Hrole, Hcontent. unfold now_iso, execute_, execute. simpl db.
      rewrite (insert_message_refused cid r v sv _ (db w) Hfit Hadapt Hseq)
        by (try (left; exact Hnot); lia).
      reflexivity.
  - simpl in Hr, Hv. simpl List.length in Hroom. rewrite Nat2Z.inj_succ in Hroom.
    set (m := mkMessage (top_message_id (db w) + 1) cid r t (clock w (ticks w))).
    set (d1 := mkDatabase (conversations (db w)) (messages (db w) ++ [m])
                          (seq_conversations (db w)) (top_message_id (db w) + 1)).
    set (w1 := mkWorld d1 (clock w) (S (ticks w)) (environ w) (network w) (sent w)).
    assert (Htop : top_message_id d1 = top_message_id (db w) + 1).
    { apply (top_after_insert (db w) m). reflexivity. }
    assert (Hlow : seq_messages (db w) <= top_message_id (db w)).
    { apply fold_max_seed. }
    specialize (IH w1 Hfind).
    cbn [map app insert_each item_message i_role i_content]. unfold bind at 1, lift.
    simpl py_getitem. cbv beta iota. unfold bind at 1. simpl py_getitem. cbv beta iota.
    unfold bind at 1, now_iso. cbv beta iota.
    unfold bind at 1, execute_, execute. simpl db.
    rewrite (insert_message_run cid c r v t _ (db w) Hfit Hfind Hr Hv Hseq) by lia.
    simpl res_bind. cbv beta iota. apply IH.
    + simpl. lia.
    + simpl db. rewrite Htop. lia.
Qed.

(** X15. [replace_messages] is all or nothing.  When the list starts
    with messages that can be stored and goes on with one that cannot,
    because "role" or "content" is missing (KeyError) or because its
    role is a string outside the three (IntegrityError, the table having
    a rowid left for it), the call raises that exception, whatever the
    rest of the list is, and the store is what it was before the call:
    the DELETE and the INSERTs already made are undone. *)
Theorem replace_messages_all_or_nothing (w : world) (cid : Z) (c : conversation)
    (items : list item) (bad : json) (e : exn) (rest : list json) :
  fits_int64 cid = true ->
  find_conversation (db w) cid = Some c ->
  Forall item_ok items ->
  0 <= seq_messages (db w) ->
  top_message_id (db w) + Z.of_nat (List.length items) + 1 <= INT64_MAX ->
  unstorable bad e ->
  rolled_back w e
    (replace_messages cid (map item_message items ++ bad :: rest)%list w).
Proof.
  intros Hfit Hfind Hitems Hseq Hroom Hbad.
  set (d0 := mkDatabase (conversations (db w))
                        (filter (fun m => negb (m_conversation_id m =? cid))
                                (messages (db w)))
                        (seq_conversations (db w)) (seq_messages (db w))).
  assert (Hdel : execute_ (delete_messages cid) w = (Ok tt, set_db w d0)).
  { unfold execute_, execute, delete_messages, adapt_id. rewrite Hfit. reflexivity. }
  pose proof (insert_each_unstorable cid c bad e rest items Hfit Hbad Hitems
                (set_db w d0) Hfind Hseq) as Hraise.
  unfold rolled_back, replace_messages. apply with_db_raises.
  unfold bind at 1. rewrite Hdel. unfold bind at 1.
  destruct (insert_each cid (map item_message items ++ bad :: rest)%list (set_db w d0))
    as [[u|e'] w2]; simpl in *.
  - assert (H : @Ok unit u = Raise e); [|discriminate H].
    apply Hraise. unfold top_message_id in *. simpl.
    pose proof (fold_max_filter (seq_messages (db w))
                  (fun m => negb (m_conversation_id m =? cid)) (messages (db w))).
    lia.
  - apply Hraise. unfold top_message_id in *. simpl.
    pose proof (fold_max_filter (seq_messages (db w))
                  (fun m => negb (m_conversation_id m =? cid)) (messages (db w))).
    lia.
Qed.

Lemma replace_messages_all_or_nothing_twice :
  rolled_back chatting_world KeyError
    (replace_messages 1
       (map item_message [mkItem "system" (JStr "be brief") "be brief"]
        ++ JObj [("role", JStr "user")] :: [JInt 7])%list
       chatting_world)
  /\ rolled_back chatting_world IntegrityError
       (replace_messages 1
          (map item_message [mkItem "system" (JStr "be brief") "be brief"]
           ++ JObj [("role", JStr "robot"); ("content", JStr "x")] :: [JInt 7])%list
          chatting_world).
Proof.
  split.
  - apply (replace_messages_all_or_nothing chatting_world 1
             (mkConversation 1 "Renamed" "" (sample_clock 0) (sample_clock 6))
             [mkItem "system" (JStr "be brief") "be brief"]
             (JObj [("role", JStr "user")]) KeyError [JInt 7]).
    + reflexivity.
    + vm_compute. reflexivity.
    + constructor; [split; reflexivity | constructor].
    + vm_compute. discriminate.
    + vm_compute. discriminate.
    + apply (no_content [("role", JStr "user")] (JStr "user")); reflexivity.
  - apply (replace_messages_all_or_nothing chatting_world 1
             (mkConversation 1 "Renamed" "" (sample_clock 0) (sample_clock 6))
             [mkItem "system" (JStr "be brief") "be brief"]
             (JObj [("role", JStr "robot"); ("content", JStr "x")]) IntegrityError
             [JInt 7]).
    + reflexivity.
    + vm_compute. reflexivity.
    + constructor; [split; reflexivity | constructor].
    + vm_compute. discriminate.
    + vm_compute. discriminate.
    + apply (bad_role [("role", JStr "robot"); ("content", JStr "x")] "robot"
                      (JStr "x") (SText "x")); reflexivity.
Defined.

Example replace_refused_keeps_messages :
  let w := snd (replace_messages 1 [user_says "new"; JObj [("role", JStr "user")]]
                                 chatting_world) in
  map (fun m => (m_id m, m_content m)) (message_rows (db w) 1) = [(1, "hi")]
  /\ seq_messages (db w) = 2.
Proof. vm_compute. split; reflexivity. Qed.

(** X16. A PUT on [/messages] whose body has no "messages" is a
    replacement by the empty list: on an existing conversation it is
    answered 200, every message of the conversation is gone, the
    messages of the others and the counter of [sqlite_sequence] stay. *)
Theorem put_without_messages_erases (w : world) (path : string) (cid : Z)
    (conv : conversation) (d : list (string * json)) :
  is_messages_path path = true ->
  conversation_id_of path = Some cid ->
  fits_int64 cid = true ->
  find_conversation (db w) cid = Some conv ->
  dict_get "messages" d = None ->
  exists w',
    do_PUT path (JObj d) w = (Ok (JsonResponse 200 OK_TRUE), w')
    /\ messages (db w')
       = filter (fun m => negb (m_conversation_id m =? cid)) (messages (db w))
    /\ messages_of (db w') cid = []
    /\ seq_messages (db w') = seq_messages (db w).
Proof.
  intros Hpath Hid Hfit Hfind Hnone. eexists.
  unfold do_PUT. rewrite (messages_path_not_update path Hpath), Hpath.
  rewrite (with_conversation_found path _ w cid conv Hid Hfit Hfind).
  unfold bind at 1, lift. simpl py_get. rewrite Hnone. cbv beta iota.
  unfold bind at 1, lift. simpl clean_messages. cbv beta iota.
  unfold bind, replace_messages, with_db, bind, execute_, execute, now_iso.
  simpl db. unfold delete_messages, adapt_id. rewrite Hfit. simpl.
  unfold touch_conversation, adapt_id. rewrite Hfit. simpl.
  split; [reflexivity|]. split; [reflexivity|]. split; [|reflexivity].
  unfold messages_of. simpl. apply filter_out_then_in.
Qed.

Lemma put_without_messages_erases_first :
  exists w',
    do_PUT "/api/conversations/1/messages" (JObj [("title", JStr "x")]) chatting_world
    = (Ok (JsonResponse 200 OK_TRUE), w')
    /\ messages (db w')
       = filter (fun m => negb (m_conversation_id m =? 1)) (messages (db chatting_world))
    /\ messages_of (db w') 1 = []
    /\ seq_messages (db w') = seq_messages (db chatting_world).
Proof.
  apply (put_without_messages_erases chatting_world "/api/conversations/1/messages" 1
           (mkConversation 1 "Renamed" "" (sample_clock 0) (sample_clock 6))
           [("title", JStr "x")]).
  - reflexivity.
  - reflexivity.
  - reflexivity.
  - vm_compute. reflexivity.
  - reflexivity.
Defined.

(** X17. [update_conversation] on an id that names no conversation is
    not an error: the UPDATE matches no row, the call returns, and the
    store is what it was.  The clock has been read all the same. *)
Theorem update_unknown_conversation (w : world) (cid : Z)
    (new_title new_prompt : option string) :
  fits_int64 cid = true ->
  find_conversation (db w) cid = None ->
  update_conversation cid (optional_str new_title) (optional_str new_prompt) w
  = (Ok tt, mkWorld (db w) (clock w) (S (ticks w)) (environ w) (network w) (sent w)).
Proof.
  intros Hfit Hnone.
  unfold update_conversation, bind, now_iso, with_db, execute_, execute. simpl db.
  assert (Hrow : forall t p,
             update_row (option_map JStr t) (option_map JStr p)
                        (clock w (ticks w)) cid (db w) = Ok (db w)).
  { intros t p. unfold update_row, adapt_id. rewrite Hfit.
    destruct t, p; simpl; rewrite Hnone; reflexivity. }
  specialize (Hrow new_title new_prompt).
  destruct new_title, new_prompt; simpl in *; rewrite Hrow; reflexivity.
Qed.

Lemma update_unknown_conversation_third :
  update_conversation 3 (optional_str (Some "Ghost")) (optional_str None) chatting_world
  = (Ok tt, mkWorld (db chatting_world) (clock chatting_world)
                    (S (ticks chatting_world)) (environ chatting_world)
                    (network chatting_world) (sent chatting_world)).
Proof.
  apply (update_unknown_conversation chatting_world 3 (Some "Ghost") None).
  - reflexivity.
  - vm_compute. reflexivity.
Defined.

(* ------------------------------------------------------------------ *)
(** ** [POST /api/chat] *)

Lemma do_POST_chat (body : json) (w : world) :
  do_POST "/api/chat" body w
  = match py_get body "messages" (JArr []) with
    | Ok (JArr msgs) => chat_or_500 msgs w
    | Ok _ => (Ok NOT_A_LIST, w)
    | Raise e => (Raise e, w)
    end.
Proof.
  unfold do_POST. change (String.eqb "/api/chat" API) with false.
  change (is_messages_path "/api/chat") with false.
  change (String.eqb "/api/chat" "/api/chat") with true. cbv iota.
  unfold bind, lift. destruct (py_get body "messages" (JArr [])) as [found|];
    [|reflexivity].
  destruct found; reflexivity.
Qed.

Lemma chat_or_500_run (msgs : list json) (w : world) :
  chat_or_500 msgs w = (chat_response (fst (llm_chat msgs w)), snd (llm_chat msgs w)).
Proof.
  unfold chat_or_500, chat_response.
  destruct (llm_chat msgs w) as [[reply|e] w1]; [reflexivity|].
  destruct e; reflexivity.
Qed.

Lemma llm_chat_sent (msgs : list json) (w : world) :
  sent (snd (llm_chat msgs w))
  = (if no_credential w then sent w
     else match network w (chat_request w msgs) with
          | Refused => sent w
          | _ => (sent w ++ [chat_request w msgs])%list
          end)
  /\ environ (snd (llm_chat msgs w)) = environ w.
Proof.
  unfold llm_chat. destruct (no_credential w); [split; reflexivity|].
  unfold bind, build_request, urlopen.
  destruct (network w (chat_request w msgs)) eqn:Hnet; simpl; try rewrite Hnet;
    simpl; split; reflexivity.
Qed.

(** X18. [POST /api/chat] with a list under "messages" (the empty
    list when the key is absent) calls [urlopen] at most once.  It does
    not call it without a credential, nor when [urllib] refuses the URL
    the request is built with; otherwise it calls it exactly once,
    whatever comes back: there is no second attempt.  The store and the
    clock are not touched. *)
Theorem chat_sends_at_most_once (w : world) (body : json) (msgs : list json) :
  py_get body "messages" (JArr []) = Ok (JArr msgs) ->
  sent (snd (do_POST "/api/chat" body w))
  = (if no_credential w then sent w
     else match network w (chat_request w msgs) with
          | Refused => sent w
          | _ => (sent w ++ [chat_request w msgs])%list
          end)
  /\ same_store w (snd (do_POST "/api/chat" body w))
  /\ environ (snd (do_POST "/api/chat" body w)) = environ w.
Proof.
  intros Hmsgs. rewrite do_POST_chat, Hmsgs, chat_or_500_run. simpl snd.
  destruct (llm_chat_sent msgs w) as [Hsent Henv].
  split; [exact Hsent|]. split; [apply llm_chat_same_store | exact Henv].
Qed.

Lemma chat_sends_at_most_once_refused :
  sent (snd (do_POST "/api/chat" (JObj []) (online_world (HTTPError 503 "busy"))))
  = (if no_credential (online_world (HTTPError 503 "busy"))
     then sent (online_world (HTTPError 503 "busy"))
     else match network (online_world (HTTPError 503 "busy"))
                        (chat_request (online_world (HTTPError 503 "busy")) []) with
          | Refused => sent (online_world (HTTPError 503 "busy"))
          | _ => (sent (online_world (HTTPError 503 "busy"))
                  ++ [chat_request (online_world (HTTPError 503 "busy")) []])%list
          end)
  /\ same_store (online_world (HTTPError 503 "busy"))
                (snd (do_POST "/api/chat" (JObj []) (online_world (HTTPError 503 "busy"))))
  /\ environ (snd (do_POST "/api/chat" (JObj []) (online_world (HTTPError 503 "busy"))))
     = environ (online_world (HTTPError 503 "busy")).
Proof.
  apply (chat_sends_at_most_once (online_world (HTTPError 503 "busy")) (JObj []) []).
  reflexivity.
Defined.

Example chat_refused_url_sends_nothing :
  do_POST "/api/chat" (JObj []) (online_world Refused)
  = (Raise ValueError, online_world Refused).
Proof. reflexivity. Qed.

(** X19. With a credential, what [POST /api/chat] answers is decided
    by what [urllib] does with the request.  A URL it refuses escapes
    as ValueError; an HTTP error status and a failed connection become a
    500 that carries the status and the body, or the reason; a 2xx body
    that is not JSON escapes as ValueError, with no response; any other
    exception of [urlopen] or of the read escapes as itself, unless it
    is a RuntimeError; a JSON body gives 200 with the reply, a 500 when
    [llm_chat] raises RuntimeError on it, and lets any other exception
    escape. *)
Theorem chat_answer_by_upstream (w : world) (body : json) (msgs : list json) :
  py_get body "messages" (JArr []) = Ok (JArr msgs) ->
  no_credential w = false ->
  fst (do_POST "/api/chat" body w)
  = match network w (chat_request w msgs) with
    | Refused => Raise ValueError
    | HTTPError code detail =>
        Ok (JsonResponse 500
              (error_json ("LLM request failed (" ++ decimal code ++ "): " ++ detail)))
    | URLError reason =>
        Ok (JsonResponse 500 (error_json ("LLM connection failed: " ++ reason)))
    | NotJson => Raise ValueError
    | Escapes e => chat_response (Raise e)
    | Body data => chat_response (reply_of data)
    end.
Proof.
  intros Hmsgs Hcred. rewrite do_POST_chat, Hmsgs, chat_or_500_run. simpl fst.
  unfold llm_chat. rewrite Hcred. unfold bind, build_request, urlopen.
  destruct (network w (chat_request w msgs)) eqn:Hnet; simpl; try rewrite Hnet;
    reflexivity.
Qed.

Lemma chat_answer_by_upstream_busy :
  fst (do_POST "/api/chat" (JObj [("messages", JArr [user_says "hi"])])
               (online_world (HTTPError 503 "busy")))
  = match network (online_world (HTTPError 503 "busy"))
                  (chat_request (online_world (HTTPError 503 "busy")) [user_says "hi"]) with
    | Refused => Raise ValueError
    | HTTPError code detail =>
        Ok (JsonResponse 500
              (error_json ("LLM request failed (" ++ decimal code ++ "): " ++ detail)))
    | URLError reason =>
        Ok (JsonResponse 500 (error_json ("LLM connection failed: " ++ reason)))
    | NotJson => Raise ValueError
    | Escapes e => chat_response (Raise e)
    | Body data => chat_response (reply_of data)
    end.
Proof.
  apply (chat_answer_by_upstream (online_world (HTTPError 503 "busy"))
           (JObj [("messages", JArr [user_says "hi"])]) [user_says "hi"]).
  - reflexivity.
  - reflexivity.
Defined.

Example chat_timeout_escapes :
  fst (do_POST "/api/chat" (JObj [("messages", JArr [user_says "hi"])])
               (online_world (Escapes OSError)))
  = Raise OSError.
Proof. reflexivity. Qed.

Example chat_busy_text :
  fst (do_POST "/api/chat" (JObj [("messages", JArr [user_says "hi"])])
               (online_world (HTTPError 503 "busy")))
  = Ok (JsonResponse 500 (error_json "LLM request failed (503): busy")).
Proof. reflexivity. Qed.

(** X20. A "messages" that is present and not a list, null included,
    is answered 400 "messages must be an array" by [POST /api/chat] and,
    on an existing conversation, by PUT on [/messages]; nothing is sent
    and nothing is written.  Only an absent key stands for the empty
    list. *)
Theorem messages_must_be_a_list (w : world) (d : list (string * json)) (v : json) :
  dict_get "messages" d = Some v ->
  is_list v = false ->
  do_POST "/api/chat" (JObj d) w = (Ok NOT_A_LIST, w)
  /\ (forall path cid conv,
        is_messages_path path = true ->
        conversation_id_of path = Some cid ->
        fits_int64 cid = true ->
        find_conversation (db w) cid = Some conv ->
        do_PUT path (JObj d) w = (Ok NOT_A_LIST, w)).
Proof.
  intros Hd Hv. split.
  - rewrite do_POST_chat. simpl py_get. rewrite Hd.
    destruct v; try reflexivity. discriminate Hv.
  - intros path cid conv Hpath Hid Hfit Hfind.
    unfold do_PUT. rewrite (messages_path_not_update path Hpath), Hpath.
    rewrite (with_conversation_found path _ w cid conv Hid Hfit Hfind).
    unfold bind, lift. simpl py_get. rewrite Hd.
    destruct v; try reflexivity. discriminate Hv.
Qed.

Lemma messages_must_be_a_list_null :
  do_POST "/api/chat" (JObj [("messages", JNull)]) chatting_world
  = (Ok NOT_A_LIST, chatting_world)
  /\ (forall path cid conv,
        is_messages_path path = true ->
        conversation_id_of path = Some cid ->
        fits_int64 cid = true ->
        find_conversation (db chatting_world) cid = Some conv ->
        do_PUT path (JObj [("messages", JNull)]) chatting_world
        = (Ok NOT_A_LIST, chatting_world)).
Proof.
  apply (messages_must_be_a_list chatting_world [("messages", JNull)] JNull).
  - reflexivity.
  - reflexivity.
Defined.

Lemma llm_chat_truthy (msgs : list json) (w : world) (reply : json) :
  fst (llm_chat msgs w) = Ok reply -> truthy reply = true.
Proof.
  unfold llm_chat. destruct (no_credential w).
  - simpl. destruct (scan_last_user (rev msgs)) as [last_user|]; simpl;
      intros H; [|discriminate H].
    injection H as <-. reflexivity.
  - unfold bind, build_request, urlopen.
    destruct (network w (chat_request w msgs)) as [data| | | | |e] eqn:Hnet; simpl;
      try rewrite Hnet; simpl; intros H; try discriminate H.
    exact (reply_of_never_empty data reply H).
Qed.

(** X21. A 200 from [POST /api/chat] always carries a reply, and the
    reply is never null, false, zero, the empty string, or an empty list
    or object, with a credential or without. *)
Theorem chat_reply_is_never_empty (w w' : world) (body payload : json) :
  do_POST "/api/chat" body w = (Ok (JsonResponse 200 payload), w') ->
  exists reply, payload = JObj [("reply", reply)] /\ truthy reply = true.
Proof.
  rewrite do_POST_chat.
  destruct (py_get body "messages" (JArr [])) as [found|]; [|discriminate].
  destruct found as [| | | |msgs|]; try discriminate.
  rewrite chat_or_500_run. intros H. injection H as Hresp _.
  destruct (fst (llm_chat msgs w)) as [reply|e] eqn:Hreply.
  - simpl in Hresp. injection Hresp as <-. exists reply. split; [reflexivity|].
    exact (llm_chat_truthy msgs w reply Hreply).
  - destruct e; discriminate Hresp.
Qed.

Lemma chat_reply_is_never_empty_offline :
  exists reply,
    JObj [("reply", JStr MOCK_PREFIX)] = JObj [("reply", reply)] /\ truthy reply = true.
Proof.
  apply (chat_reply_is_never_empty offline_world offline_world (JObj [])
           (JObj [("reply", JStr MOCK_PREFIX)])).
  reflexivity.
Defined.

(* ------------------------------------------------------------------ *)
(** ** The fallback reads the list from its end *)

(** X22. Without a credential [llm_chat] inspects the messages from
    the last one back to the most recent user message and no further:
    what comes before that message may be any JSON values at all and
    changes nothing.  A value that is not an object and comes after the
    last user message raises AttributeError. *)
Theorem fallback_reads_from_the_end (w : world) (before after : list json) :
  no_credential w = true ->
  Forall (fun m => is_dict m = true /\ has_role "user" m = false) after ->
  (forall d,
      has_role "user" (JObj d) = true ->
      llm_chat (before ++ JObj d :: after) w
      = (Ok (JStr (MOCK_PREFIX ++ py_str (content_or_empty (dict_get "content" d)))), w))
  /\ (forall x,
        is_dict x = false ->
        llm_chat (before ++ x :: after) w = (Raise AttributeError, w)).
Proof.
  intros Hcred Hafter.
  assert (Hscan : forall x,
             scan_last_user (rev (before ++ x :: after))
             = scan_last_user (x :: rev before)).
  { intros x. apply scan_from_the_end. exact Hafter. }
  split.
  - intros d Hrole. unfold llm_chat. rewrite Hcred, Hscan.
    cbn [scan_last_user py_get res_bind]. simpl in Hrole.
    destruct (dict_get "role" d) as [v|]; [|discriminate Hrole].
    rewrite Hrole. unfold content_or_empty.
    destruct (dict_get "content" d); reflexivity.
  - intros x Hx. unfold llm_chat. rewrite Hcred, Hscan.
    destruct x; try reflexivity. discriminate Hx.
Qed.

Lemma fallback_reads_from_the_end_numbers :
  (forall d,
      has_role "user" (JObj d) = true ->
      llm_chat ([JInt 1; JNull] ++ JObj d :: [JObj [("role", JStr "assistant")]])%list
               offline_world
      = (Ok (JStr (MOCK_PREFIX ++ py_str (content_or_empty (dict_get "content" d)))),
         offline_world))
  /\ (forall x,
        is_dict x = false ->
        llm_chat ([JInt 1; JNull] ++ x :: [JObj [("role", JStr "assistant")]])%list
                 offline_world
        = (Raise AttributeError, offline_world)).
Proof.
  apply (fallback_reads_from_the_end offline_world [JInt 1; JNull]
           [JObj [("role", JStr "assistant")]]).
  - reflexivity.
  - constructor; [split; reflexivity | constructor].
Defined.

(* ------------------------------------------------------------------ *)
(** ** A body that is not an object *)

(** X23. A request body that is valid JSON and not an object is never
    answered 400: the first [body.get] raises AttributeError, which
    escapes the handler, on [POST /api/conversations], on
    [POST /api/chat], and on the three routes that name a conversation
    once the conversation is found.  The world is untouched. *)
Theorem non_object_body_escapes (w : world) (body : json) :
  is_dict body = false ->
  do_POST API body w = (Raise AttributeError, w)
  /\ do_POST "/api/chat" body w = (Raise AttributeError, w)
  /\ (forall path cid conv,
        startswith path API_SLASH = true ->
        conversation_id_of path = Some cid ->
        fits_int64 cid = true ->
        find_conversation (db w) cid = Some conv ->
        do_PUT path body w = (Raise AttributeError, w)
        /\ (is_messages_path path = true ->
            do_POST path body w = (Raise AttributeError, w))).
Proof.
  intros Hbody.
  assert (Hget : forall k default, py_get body k default = Raise AttributeError).
  { intros k default. destruct body; try reflexivity. discriminate Hbody. }
  split; [|split].
  - unfold do_POST. change (String.eqb API API) with true. cbv iota.
    unfold bind, lift. rewrite Hget. reflexivity.
  - rewrite do_POST_chat, Hget. reflexivity.
  - intros path cid conv Hpre Hid Hfit Hfind. split.
    + unfold do_PUT. rewrite Hpre. simpl.
      destruct (endswith path MESSAGES) eqn:Hend; simpl.
      * unfold is_messages_path. rewrite Hpre, Hend. simpl.
        rewrite (with_conversation_found path _ w cid conv Hid Hfit Hfind).
        unfold bind, lift. rewrite Hget. reflexivity.
      * rewrite (with_conversation_found path _ w cid conv Hid Hfit Hfind).
        unfold bind, lift. rewrite Hget. reflexivity.
    + intros Hpath. unfold do_POST.
      rewrite (messages_path_not_api path Hpath), Hpath.
      rewrite (with_conversation_found path _ w cid conv Hid Hfit Hfind).
      unfold bind, lift. rewrite Hget. reflexivity.
Qed.

Lemma non_object_body_escapes_list :
  do_POST API (JArr [user_says "hi"]) chatting_world
  = (Raise AttributeError, chatting_world)
  /\ do_POST "/api/chat" (JArr [user_says "hi"]) chatting_world
     = (Raise AttributeError, chatting_world)
  /\ (forall path cid conv,
        startswith path API_SLASH = true ->
        conversation_id_of path = Some cid ->
        fits_int64 cid = true ->
        find_conversation (db chatting_world) cid = Some conv ->
        do_PUT path (JArr [user_says "hi"]) chatting_world
        = (Raise AttributeError, chatting_world)
        /\ (is_messages_path path = true ->
            do_POST path (JArr [user_says "hi"]) chatting_world
            = (Raise AttributeError, chatting_world))).
Proof.
  apply (non_object_body_escapes chatting_world (JArr [user_says "hi"])).
  reflexivity.
Defined.
